(** * Behance Archive Downloader: ledger, metadata extraction, download
      correlation and the main body

    A shallow embedding of [index.js].  The script drives a browser through
    Puppeteer; everything the browser, the file system and the JavaScript
    runtime do is made explicit here:

    - JavaScript strings are [string]s (sequences of bytes, UTF-8 encoded;
      substring search and splitting on a separator agree with the UTF-16
      view because UTF-8 is self-synchronising);
    - [fs/promises] is a finite map from paths to contents together with a
      set of paths that refuse writes; a rejected promise is [Throw];
    - the CDP session is an event emitter whose listeners are closures; a
      closure is represented by the index of the [scrapeVideo] activation
      (its scope) that created it, and the variable [downloadFilename], which
      both listeners of one activation share, lives in that scope;
    - an asynchronous body is suspended at its awaits: the scope records
      where, and what arrives from outside while an item is in flight (the
      download notifications, the settling of the promises that the
      interaction driver and the completion body await, the browser storing
      the downloaded bytes) is an explicit list of inputs that decides what
      runs next;
    - an unhandled rejection ends the process, which is what Node does since
      version 15 (the repository asks for version 22);
    - the main body meets the host and the site through a record of what
      they answer (is the directory there, can the page be reached, does
      the user sign in, what does the grid show); the JSON codec and the
      cookie jar of the browser are parameters, as the file-name sanitiser
      is. *)

From stdpp Require Import gmap strings list.
From Stdlib Require Import ZArith Lia Ascii DecimalString.

Open Scope string_scope.
Open Scope list_scope.

(** ** Results of fallible operations *)

Inductive result (A : Type) : Type :=
| Ok (a : A)
| Throw (e : string).
Arguments Ok {A} a.
Arguments Throw {A} e.

#[global] Instance result_ret : MRet result := @Ok.

#[global] Instance result_bind : MBind result :=
  fun A B k r =>
    match r with
    | Ok a => k a
    | Throw e => Throw e
    end.

(** ** The parts of the JavaScript runtime the script relies on *)

Module JS.

Definition bytes (l : list nat) : string :=
  fold_right (fun n s => String (ascii_of_nat n) s) "" l.

Definition LF : string := bytes [10].

(** [s.startsWith(p)] *)
Fixpoint startsWith (s p : string) {struct p} : bool :=
  match p, s with
  | "", _ => true
  | String _ _, "" => false
  | String b p', String a s' => if Ascii.eqb a b then startsWith s' p' else false
  end.

(** [s.includes(needle)] *)
Fixpoint includes (s needle : string) : bool :=
  if startsWith s needle then true
  else match s with
       | "" => false
       | String _ s' => includes s' needle
       end.

Fixpoint drop (n : nat) (s : string) : string :=
  match n, s with
  | 0, _ => s
  | S _, "" => ""
  | S n', String _ s' => drop n' s'
  end.

Fixpoint chars (s : string) : list string :=
  match s with
  | "" => []
  | String c s' => String c "" :: chars s'
  end.

(** The scan behind [s.split(sep)] for a separator that is not empty:
    [skip] counts the characters of a separator occurrence that are still
    to be passed over, [cur] is the piece collected so far. *)
Fixpoint split_scan (sep : string) (skip : nat) (cur s : string) : list string :=
  match s with
  | "" => [cur]
  | String c s' =>
      match skip with
      | S k => split_scan sep k cur s'
      | 0 =>
          if startsWith s sep
          then cur :: split_scan sep (String.length sep - 1) "" s'
          else split_scan sep 0 (cur +:+ String c "") s'
      end
  end.

(** [s.split(sep)] *)
Definition split (s sep : string) : list string :=
  match sep with
  | "" => chars s
  | _ => split_scan sep 0 "" s
  end.

(** White space and line terminators of ECMAScript, in UTF-8. *)
Definition whitespace : list string :=
  [ bytes [9]; bytes [10]; bytes [11]; bytes [12]; bytes [13]; bytes [32];
    bytes [194; 160]; bytes [225; 154; 128];
    bytes [226; 128; 128]; bytes [226; 128; 129]; bytes [226; 128; 130];
    bytes [226; 128; 131]; bytes [226; 128; 132]; bytes [226; 128; 133];
    bytes [226; 128; 134]; bytes [226; 128; 135]; bytes [226; 128; 136];
    bytes [226; 128; 137]; bytes [226; 128; 138];
    bytes [226; 128; 168]; bytes [226; 128; 169]; bytes [226; 128; 175];
    bytes [226; 129; 159]; bytes [227; 128; 128]; bytes [239; 187; 191] ].

Fixpoint strip_one (s : string) (ws : list string) : option string :=
  match ws with
  | [] => None
  | w :: ws' => if startsWith s w then Some (drop (String.length w) s)
                else strip_one s ws'
  end.

Fixpoint strip (fuel : nat) (ws : list string) (s : string) : string :=
  match fuel with
  | 0 => s
  | S f => match strip_one s ws with
           | Some s' => strip f ws s'
           | None => s
           end
  end.

Definition trimStart (s : string) : string :=
  strip (String.length s) whitespace s.

Definition trimEnd (s : string) : string :=
  String.rev (strip (String.length s) (map String.rev whitespace) (String.rev s)).

(** [s.trim()] *)
Definition trim (s : string) : string := trimEnd (trimStart s).

Fixpoint takeWhile (p : ascii -> bool) (s : string) : string :=
  match s with
  | "" => ""
  | String c s' => if p c then String c (takeWhile p s') else ""
  end.

Fixpoint dropWhile (p : ascii -> bool) (s : string) : string :=
  match s with
  | "" => ""
  | String c s' => if p c then dropWhile p s' else s
  end.

Definition notSlash (c : ascii) : bool := negb (Ascii.eqb c "/"%char).

(** [url.match(/\/videos\/([^/]+)/)]: the capture group of the leftmost
    position at which the pattern matches, [None] for [null]. *)
Fixpoint match_videos (url : string) : option string :=
  match url with
  | "" => None
  | String _ url' =>
      let capture := takeWhile notSlash (drop 8 url) in
      if startsWith url "/videos/" && negb (String.eqb capture "")
      then Some capture
      else match_videos url'
  end.

(** *** Dates

    A time value is a number of milliseconds since the epoch, UTC.  The
    Date constructor applied to a string that is not in the ISO format
    falls back to the engine's legacy parser, which reads the fields as
    LOCAL time; [tz] is the offset of local time from UTC, in minutes
    (east of Greenwich positive), as the host environment has it. *)

Definition msPerDay : Z := 86400000.
Definition msPerMinute : Z := 60000.

Definition days_from_civil (y m d : Z) : Z :=
  let y' := if (m <=? 2)%Z then (y - 1)%Z else y in
  let era := (y' `div` 400)%Z in
  let yoe := (y' - era * 400)%Z in
  let mp := if (m >? 2)%Z then (m - 3)%Z else (m + 9)%Z in
  let doy := ((153 * mp + 2) `div` 5 + d - 1)%Z in
  let doe := (yoe * 365 + yoe `div` 4 - yoe `div` 100 + doy)%Z in
  (era * 146097 + doe - 719468)%Z.

Definition civil_from_days (z : Z) : Z * Z * Z :=
  let z := (z + 719468)%Z in
  let era := (z `div` 146097)%Z in
  let doe := (z - era * 146097)%Z in
  let yoe := ((doe - doe `div` 1460 + doe `div` 36524 - doe `div` 146096) `div` 365)%Z in
  let doy := (doe - (365 * yoe + yoe `div` 4 - yoe `div` 100))%Z in
  let mp := ((5 * doy + 2) `div` 153)%Z in
  let d := (doy - (153 * mp + 2) `div` 5 + 1)%Z in
  let m := if (mp <? 10)%Z then (mp + 3)%Z else (mp - 9)%Z in
  let y := (yoe + era * 400 + (if (m <=? 2)%Z then 1 else 0))%Z in
  (y, m, d).

Definition isDigit (c : ascii) : bool :=
  let n := nat_of_ascii c in (48 <=? n)%nat && (n <=? 57)%nat.

Definition isAlpha (c : ascii) : bool :=
  let n := nat_of_ascii c in
  ((65 <=? n)%nat && (n <=? 90)%nat) || ((97 <=? n)%nat && (n <=? 122)%nat).

Definition isSpace (c : ascii) : bool := Ascii.eqb c " "%char.

Definition isSpaceOrComma (c : ascii) : bool :=
  Ascii.eqb c " "%char || Ascii.eqb c ","%char.

Definition toLower (c : ascii) : ascii :=
  let n := nat_of_ascii c in
  if (65 <=? n)%nat && (n <=? 90)%nat then ascii_of_nat (n + 32) else c.

Fixpoint lower (s : string) : string :=
  match s with
  | "" => ""
  | String c s' => String (toLower c) (lower s')
  end.

Fixpoint take (n : nat) (s : string) : string :=
  match n, s with
  | 0, _ => ""
  | S _, "" => ""
  | S n', String c s' => String c (take n' s')
  end.

Definition monthNames : list string :=
  ["jan"; "feb"; "mar"; "apr"; "may"; "jun";
   "jul"; "aug"; "sep"; "oct"; "nov"; "dec"].

Fixpoint index_of (x : string) (l : list string) (i : Z) : option Z :=
  match l with
  | [] => None
  | y :: l' => if String.eqb x y then Some i else index_of x l' (i + 1)%Z
  end.

(** A month word is recognised by its first three letters, whatever the
    case; the result is the month number, 1 to 12. *)
Definition monthOfWord (w : string) : option Z :=
  if (String.length w <? 3)%nat then None
  else index_of (lower (take 3 w)) monthNames 1.

Fixpoint number (acc : Z) (s : string) : Z :=
  match s with
  | "" => acc
  | String c s' => number (acc * 10 + Z.of_nat (nat_of_ascii c - 48))%Z s'
  end.

(** Two-digit years of the legacy parser: 0..49 are 2000..2049 and 50..99
    are 1950..1999. *)
Definition legacyYear (digits : string) : Z :=
  let y := number 0 digits in
  if (String.length digits <=? 2)%nat
  then (if (y <? 50)%Z then y + 2000 else y + 1900)%Z
  else y.

(** [Date.parse] on display dates of the form "Jan 5, 2023" (month word,
    day of the month, year; the comma is optional).  Other texts are not
    dates for this model: the time value is NaN, here [None]. *)
Definition Date_parse (tz : Z) (s : string) : option Z :=
  let word := takeWhile isAlpha s in
  match monthOfWord word with
  | None => None
  | Some m =>
      let r1 := dropWhile isSpace (dropWhile isAlpha s) in
      let day := takeWhile isDigit r1 in
      let r2 := dropWhile isSpaceOrComma (dropWhile isDigit r1) in
      let year := takeWhile isDigit r2 in
      let r3 := dropWhile isSpace (dropWhile isDigit r2) in
      if String.eqb day "" || String.eqb year "" || negb (String.eqb r3 "")
      then None
      else
        let d := number 0 day in
        if (d <? 1)%Z || (31 <? d)%Z then None
        else
          let local := (days_from_civil (legacyYear year) m d * msPerDay)%Z in
          Some (local - tz * msPerMinute)%Z
  end.

Definition digit (n : Z) : string :=
  String (ascii_of_nat (48 + Z.to_nat n)) "".

(** [n] in decimal on exactly [width] digits. *)
Fixpoint padStart (width : nat) (n : Z) : string :=
  match width with
  | 0 => ""
  | S w => padStart w (n `div` 10)%Z +:+ digit (n `mod` 10)%Z
  end.

Definition isoYear (y : Z) : string :=
  if (0 <=? y)%Z && (y <=? 9999)%Z then padStart 4 y
  else if (y <? 0)%Z then "-" +:+ padStart 6 (- y)%Z
  else "+" +:+ padStart 6 y.

(** [date.toISOString()]; a RangeError when the time value is NaN or out
    of range. *)
Definition toISOString (t : option Z) : result string :=
  match t with
  | None => Throw "RangeError: Invalid time value"
  | Some t =>
      if (Z.abs t >? 8640000000000000)%Z
      then Throw "RangeError: Invalid time value"
      else
        let '(y, m, d) := civil_from_days (t `div` msPerDay)%Z in
        let r := (t `mod` msPerDay)%Z in
        Ok (isoYear y +:+ "-" +:+ padStart 2 m +:+ "-" +:+ padStart 2 d +:+ "T"
            +:+ padStart 2 (r `div` 3600000)%Z +:+ ":"
            +:+ padStart 2 ((r `div` 60000) `mod` 60)%Z +:+ ":"
            +:+ padStart 2 ((r `div` 1000) `mod` 60)%Z +:+ "."
            +:+ padStart 3 (r `mod` 1000)%Z +:+ "Z")
  end.

End JS.

(** ** [fs/promises]

    The files of the host, by path, and the paths on which a write is
    refused (a read-only file, a full disk, a missing permission).  Every
    operation returns the file system after it, or the error with which the
    promise is rejected. *)

Module Fs.

Record t : Type := mk {
  files : gmap string string;
  denied : gset string
}.

Definition put (fs : t) (p data : string) : t :=
  {| files := <[p := data]> (files fs); denied := denied fs |}.

(** [fs.access(p)] *)
Definition access (fs : t) (p : string) : result unit :=
  match files fs !! p with
  | Some _ => Ok ()
  | None => Throw "ENOENT"
  end.

(** [fs.readFile(p, 'utf8')] *)
Definition readFile (fs : t) (p : string) : result string :=
  match files fs !! p with
  | Some data => Ok data
  | None => Throw "ENOENT"
  end.

(** [fs.writeFile(p, data)]: creates or replaces the file. *)
Definition writeFile (fs : t) (p data : string) : result t :=
  if bool_decide (p ∈ denied fs) then Throw "EACCES"
  else Ok (put fs p data).

(** [fs.appendFile(p, data)]: creates the file when it is missing. *)
Definition appendFile (fs : t) (p data : string) : result t :=
  if bool_decide (p ∈ denied fs) then Throw "EACCES"
  else Ok (put fs p (default "" (files fs !! p) +:+ data)).

(** [fs.rename(src, dst)]: replaces [dst] when it exists. *)
Definition rename (fs : t) (src dst : string) : result t :=
  match files fs !! src with
  | None => Throw "ENOENT"
  | Some data =>
      if bool_decide (dst ∈ denied fs) then Throw "EACCES"
      else Ok {| files := <[dst := data]> (delete src (files fs));
                 denied := denied fs |}
  end.

End Fs.

(** [path.join(dir, name)] for two segments: empty segments are ignored and
    the join of nothing is the current directory.  (The normalisation of
    dots and repeated separators inside a segment is not needed here.) *)
Definition path_join (dir name : string) : string :=
  match dir, name with
  | "", "" => "."
  | "", _ => name
  | _, "" => dir
  | _, _ => dir +:+ "/" +:+ name
  end.

(** ** The grid loader, [loadAllVideos]

    The scrollable root as the loop sees it.  An assignment to [scrollTop] is
    clamped by the browser to the scrollable range.  What the page does
    during the n-th settle interval (loading further cards, which makes the
    document taller) is the environment, [settle n]. *)

Module GridLoader.

Record Scroller : Type := mkScroller {
  scrollTop : Z;
  scrollHeight : Z;
  clientHeight : Z
}.

Record Window : Type := mkWindow {
  atBottom : bool;
  scroller : Scroller
}.

Definition set_scrollTop (s : Scroller) (v : Z) : Scroller :=
  {| scrollTop := Z.max 0 (Z.min v (scrollHeight s - clientHeight s));
     scrollHeight := scrollHeight s;
     clientHeight := clientHeight s |}.

(** One turn of the loop body: scroll, wait, compare, remember. *)
Definition iteration (settle : nat -> Scroller -> Scroller) (n : nat)
    (win : Window) (lastPosition : Z) : Window * Z :=
  let s := scroller win in
  let s1 := set_scrollTop s (scrollTop s + scrollHeight s) in
  let s2 := settle n s1 in
  let win2 :=
    if (scrollTop s2 =? lastPosition)%Z
    then {| atBottom := true; scroller := s2 |}
    else {| atBottom := atBottom win; scroller := s2 |} in
  (win2, scrollTop s2).

(** [while (!window.atBottom) { ... }]; [n] counts the turns taken so far.
    [None]: the loop is still running when the fuel is spent. *)
Fixpoint while_loop (settle : nat -> Scroller -> Scroller) (fuel n : nat)
    (win : Window) (lastPosition : Z) : option (nat * Window) :=
  if atBottom win then Some (n, win)
  else
    match fuel with
    | 0 => None
    | S fuel' =>
        let '(win', last') := iteration settle n win lastPosition in
        while_loop settle fuel' (S n) win' last'
    end.

Definition loadAllVideos (settle : nat -> Scroller -> Scroller) (fuel : nat)
    (page : Scroller) : option (nat * Window) :=
  while_loop settle fuel 0 {| atBottom := false; scroller := page |} (-1).

(** The page after [n] turns of scrolling and settling, whether or not the
    loop is still running then, and the position read in turn [n]. *)
Fixpoint page_after (settle : nat -> Scroller -> Scroller) (page : Scroller)
    (n : nat) : Scroller :=
  match n with
  | 0 => page
  | S k =>
      let s := page_after settle page k in
      settle k (set_scrollTop s (scrollTop s + scrollHeight s))
  end.

Definition observed (settle : nat -> Scroller -> Scroller) (page : Scroller)
    (n : nat) : Z :=
  scrollTop (page_after settle page (S n)).

(** The position turn [n] compares with: the one read a turn earlier, and
    -1 in the first turn. *)
Definition previous (settle : nat -> Scroller -> Scroller) (page : Scroller)
    (n : nat) : Z :=
  match n with
  | 0 => (-1)%Z
  | S k => observed settle page k
  end.

Definition stable (settle : nat -> Scroller -> Scroller) (page : Scroller)
    (n : nat) : Prop :=
  observed settle page n = previous settle page n.

(** The window at the start of turn [n] while the loop runs, and once it
    has set the flag. *)
Definition running (settle : nat -> Scroller -> Scroller) (page : Scroller)
    (n : nat) : Window :=
  {| atBottom := false; scroller := page_after settle page n |}.

Definition finished (settle : nat -> Scroller -> Scroller) (page : Scroller)
    (n : nat) : Window :=
  {| atBottom := true; scroller := page_after settle page n |}.

End GridLoader.

(** ** Data of the scraper *)

(** The object built by [extractVideoDataFromElementHandle]; [filename] is
    the property that the spread [{ ...videoData, filename }] adds and is
    undefined until then. *)
Record VideoData : Type := mkVideoData {
  url : string;
  uuid : string;
  title : string;
  date : string;
  duration : string;
  isPrivate : bool;
  filename : option string
}.

Definition with_filename (v : VideoData) (f : string) : VideoData :=
  {| url := url v; uuid := uuid v; title := title v; date := date v;
     duration := duration v; isPrivate := isPrivate v; filename := Some f |}.

(** What the queries of the extractor find in one grid item: the first
    anchor (its [href] and [title]), the text of the first element whose
    class starts with Card-name-, the text of the duration badge, and
    whether a privacy lock is there.  [None]: the selector matches
    nothing. *)
Record ElementHandle : Type := mkElementHandle {
  anchor : option (string * string);
  cardName : option string;
  durationBadge : option string;
  privacyLock : bool
}.

(** A cookie as the browser reports it: an object, here its properties by
    name, each with its value as text. *)
Definition Cookie : Type := list (string * string).

Inductive EventName : Type := DownloadWillBeginEv | DownloadProgressEv.

Inductive Gesture : Type :=
| HoverItem       (* mouseenter on the grid item *)
| WaitTooltip     (* page.waitForSelector of the dropdown *)
| HoverTooltip    (* mouseenter on the dropdown *)
| WaitMenu        (* elementHandle.waitForSelector of the menu *)
| QueryButton     (* elementHandle.$ of the third entry *)
| Click.          (* downloadButton.click *)

(** Where the body of [scrapeVideo] stands with the interaction driver: not
    there (yet), suspended on the gesture whose promise is pending, or past
    the last one. *)
Inductive DriverPc : Type :=
| DriverIdle
| Awaiting (g : Gesture)
| DriverDone.

(** Where the asynchronous body stands that the progress listener starts
    on a match: not started, suspended on [fs.rename(src, filepath)],
    suspended on the append of the record with [filename], or past it. *)
Inductive CompletionPc : Type :=
| CompletionIdle
| AwaitingRename (src filepath filename : string)
| AwaitingAppend (filename : string)
| CompletionDone.

(** The variables of one activation of [scrapeVideo] that its closures
    share, whether its promise is settled, and where its two asynchronous
    bodies are suspended. *)
Record Scope : Type := mkScope {
  videoData : VideoData;
  downloadFilename : string;
  settled : bool;
  driver : DriverPc;
  completion : CompletionPc
}.

(** Everything observable that the script does, in order. *)
Inductive Effect : Type :=
| ELog (msg : string)
| ELogData (label : string) (data : VideoData)
| EOn (ev : EventName) (scope : nat)
| ERemoveAll (ev : EventName)
| EGesture (g : Gesture)
| ERename (src dst : string)
| EAppend (path line : string)
| EResolve (scope : nat)
| EUnhandled (e : string).

Record World : Type := mkWorld {
  fs : Fs.t;
  onBegin : list nat;
  onProgress : list nat;
  scopes : list Scope;
  trace : list Effect;
  crashed : bool
}.

(** What reaches the script from outside while an item is in flight: the
    two download notifications of the session; the settling of the promise
    on which the interaction driver is suspended; the file operation on
    which the completion body is suspended being carried out; the browser
    storing downloaded bytes under a provisional name. *)
Inductive Input : Type :=
| DownloadWillBegin (guid : string)
| DownloadProgress (guid state : string)
| DriverSettles (ok : bool)
| FsSettles
| FileStored (name data : string).

(** How an awaited [scrapeVideo] stands: its promise is resolved; the
    inputs ran out with the promise still pending; a rejection nobody
    handles has ended the process. *)
Inductive Outcome : Type := Resolved | Pending | Crashed.

Definition is_append (e : Effect) : bool :=
  match e with EAppend _ _ => true | _ => false end.

Definition is_rename (e : Effect) : bool :=
  match e with ERename _ _ => true | _ => false end.

Definition is_resolve (e : Effect) : bool :=
  match e with EResolve _ => true | _ => false end.

Definition is_gesture (e : Effect) : bool :=
  match e with EGesture _ => true | _ => false end.

Definition is_registration (e : Effect) : bool :=
  match e with EOn _ _ => true | _ => false end.

Definition is_begin_removal (e : Effect) : bool :=
  match e with ERemoveAll DownloadWillBeginEv => true | _ => false end.

Definition is_progress_removal (e : Effect) : bool :=
  match e with ERemoveAll DownloadProgressEv => true | _ => false end.

(** The effects of the completion branch of the progress listener: it
    deregisters itself, renames, appends to the ledger, resolves. *)
Definition is_action (e : Effect) : bool :=
  is_progress_removal e || is_rename e || is_append e || is_resolve e.

(** What happens while the correlator only waits: log lines, gestures, and
    the begin listener deregistering. *)
Definition is_quiet (e : Effect) : bool :=
  match e with
  | ELog _ | ELogData _ _ | EGesture _ | ERemoveAll DownloadWillBeginEv => true
  | _ => false
  end.

Fixpoint count (p : Effect -> bool) (l : list Effect) : nat :=
  match l with
  | [] => 0
  | e :: l' => (if p e then 1 else 0) + count p l'
  end.

(** The identifier of the first download-started notification of a list of
    inputs. *)
Fixpoint first_begin (l : list Input) : option string :=
  match l with
  | [] => None
  | DownloadWillBegin guid :: _ => Some guid
  | _ :: l' => first_begin l'
  end.

(** What the begin listener has captured after the inputs [l], when [cap]
    was captured before them ([None]: nothing yet). *)
Definition capture (cap : option string) (l : list Input) : option string :=
  match cap with
  | Some guid => Some guid
  | None => first_begin l
  end.

(** The input is a progress notification that reports completion for the
    name that [downloadFilename] holds. *)
Definition hits (cap : option string) (i : Input) : bool :=
  match i with
  | DownloadProgress guid state =>
      String.eqb guid (default "" cap) && String.eqb state "completed"
  | _ => false
  end.

Fixpoint never_hit (cap : option string) (l : list Input) : Prop :=
  match l with
  | [] => True
  | i :: l' => hits cap i = false /\ never_hit (capture cap [i]) l'
  end.

(** The input is no notification, or a notification whose identifier is
    not empty. *)
Definition named (i : Input) : Prop :=
  match i with
  | DownloadWillBegin guid => guid <> ""
  | DownloadProgress guid _ => guid <> ""
  | _ => True
  end.

Definition is_begin (i : Input) : bool :=
  match i with DownloadWillBegin _ => true | _ => false end.

(** ** The script *)

Section Downloader.

(** [argv.path], the sanitize-filename package, and the offset of the
    host's local time from UTC in minutes. *)
Variable downloadDir : string.
Variable sanitize : string -> string.
Variable tz : Z.

(** [argv.user]. *)
Variable user : string.

(** What is done with the cookies of the browser is the runtime's.
    [JSON_stringify] is [JSON.stringify(cookies, null, 2)].  [JSON_parse] is
    [JSON.parse] followed by the spread of its value into an argument list:
    [Throw] when the text is no JSON, or when its value cannot be spread.
    [setCookie jar cookies] is the jar of the browser after
    [browser.setCookie(...cookies)], or the rejection of that call, which
    then has set nothing. *)
Variable JSON_stringify : list Cookie -> string.
Variable JSON_parse : string -> result (list Cookie).
Variable setCookie : list Cookie -> list Cookie -> result (list Cookie).

Definition COOKIES_FILENAME : string := "_cookies.json".
Definition CSV_FILENAME : string := "_videos.csv".

Definition csvFilename : string := path_join downloadDir CSV_FILENAME.
Definition cookiesFilename : string := path_join downloadDir COOKIES_FILENAME.

Definition headers : string :=
  "URL,UUID,Title,Date,Duration,Filename" +:+ JS.LF.

(** *** The session store *)

(** [saveCookies]: the cookies of the browser, [jar], are serialised and
    written to the session file; a failure of the write is caught and
    reported to the caller as [false]. *)
Definition saveCookies (fs : Fs.t) (jar : list Cookie) : Fs.t * bool :=
  let cookies := jar in
  match Fs.writeFile fs cookiesFilename (JSON_stringify cookies) with
  | Ok fs' => (fs', true)
  | Throw _ => (fs, false)
  end.

(** [loadCookies]: the session file is read, parsed and handed to the
    browser; whatever fails on the way is caught and reported as [false].
    The result is the jar of the browser afterwards. *)
Definition loadCookies (fs : Fs.t) (jar : list Cookie) : list Cookie * bool :=
  match (cookiesString ← Fs.readFile fs cookiesFilename;
         cookies ← JSON_parse cookiesString;
         setCookie jar cookies) with
  | Ok jar' => (jar', true)
  | Throw _ => (jar, false)
  end.

(** *** The ledger *)

Definition initCSV (fs : Fs.t) : result Fs.t :=
  match Fs.access fs csvFilename with
  | Ok _ => Ok fs
  | Throw _ => Fs.writeFile fs csvFilename headers
  end.

Definition csvLine (v : VideoData) : string :=
  url v +:+ "," +:+ uuid v +:+ "," +:+ title v +:+ "," +:+ date v +:+ ","
  +:+ duration v +:+ "," +:+ default "undefined" (filename v) +:+ JS.LF.

Definition addVideoDataToCSV (fs : Fs.t) (v : VideoData) : result Fs.t :=
  Fs.appendFile fs csvFilename (csvLine v).

Definition isVideoDataInCSV (fs : Fs.t) (uuid : string) : bool :=
  match Fs.readFile fs csvFilename with
  | Ok csvData => JS.includes csvData uuid
  | Throw _ => false
  end.

(** [needle] occurs somewhere in [s]. *)
Definition Substring (needle s : string) : Prop :=
  exists a b, s = a +:+ needle +:+ b.

(** The rows of a ledger text, the header line apart, and the
    identifier of a row: its second field. *)
Definition rows (csvData : string) : list string :=
  filter (fun l => l <> "") (tail (JS.split csvData JS.LF)).

Definition row_uuid (row : string) : option string :=
  JS.split row "," !! 1.

(** Some row of the ledger has [u] as its identifier. *)
Definition ledger_has_row (fs : Fs.t) (u : string) : Prop :=
  exists csvData row,
    Fs.readFile fs csvFilename = Ok csvData /\
    row ∈ rows csvData /\ row_uuid row = Some u.

(** *** The metadata extractor *)

Definition normalizeDate (rawDate : string) : result string :=
  iso ← JS.toISOString (JS.Date_parse tz rawDate);
  Ok (default "undefined" (JS.split iso "T" !! 0)).

Definition extractVideoDataFromElementHandle (h : ElementHandle)
    : result VideoData :=
  a ← match anchor h with
      | Some a => Ok a
      | None => Throw "Error: failed to find element matching selector a"
      end;
  let url := a.1 in
  uuid ← match JS.match_videos url with
         | Some u => Ok u
         | None => Throw "TypeError: Cannot read properties of null"
         end;
  let title := a.2 in
  rawDate ← match cardName h with
            | None => Throw "Error: failed to find element matching selector [class^=Card-name-]"
            | Some text =>
                match JS.split text "•" !! 1 with
                | Some segment => Ok (JS.trim segment)
                | None => Throw "TypeError: Cannot read properties of undefined"
                end
            end;
  date ← normalizeDate rawDate;
  duration ← match durationBadge h with
             | Some d => Ok d
             | None => Throw "Error: failed to find element matching selector [class^=Duration-duration-]"
             end;
  let isPrivate := if privacyLock h then true else false in
  Ok {| url := url; uuid := uuid; title := title; date := date;
        duration := duration; isPrivate := isPrivate; filename := None |}.

(** *** Effects on the world *)

Definition emit_effect (e : Effect) (w : World) : World :=
  {| fs := fs w; onBegin := onBegin w; onProgress := onProgress w;
     scopes := scopes w; trace := trace w ++ [e]; crashed := crashed w |}.

Definition log (msg : string) (w : World) : World := emit_effect (ELog msg) w.

Definition set_fs (fs' : Fs.t) (w : World) : World :=
  {| fs := fs'; onBegin := onBegin w; onProgress := onProgress w;
     scopes := scopes w; trace := trace w; crashed := crashed w |}.

Definition set_scopes (s : list Scope) (w : World) : World :=
  {| fs := fs w; onBegin := onBegin w; onProgress := onProgress w;
     scopes := s; trace := trace w; crashed := crashed w |}.

(** [client.on(ev, listener)], the listener being the closure of scope
    [id]. *)
Definition client_on (ev : EventName) (id : nat) (w : World) : World :=
  emit_effect (EOn ev id)
    match ev with
    | DownloadWillBeginEv =>
        {| fs := fs w; onBegin := onBegin w ++ [id]; onProgress := onProgress w;
           scopes := scopes w; trace := trace w; crashed := crashed w |}
    | DownloadProgressEv =>
        {| fs := fs w; onBegin := onBegin w; onProgress := onProgress w ++ [id];
           scopes := scopes w; trace := trace w; crashed := crashed w |}
    end.

(** [client.removeAllListeners(ev)] *)
Definition removeAllListeners (ev : EventName) (w : World) : World :=
  emit_effect (ERemoveAll ev)
    match ev with
    | DownloadWillBeginEv =>
        {| fs := fs w; onBegin := []; onProgress := onProgress w;
           scopes := scopes w; trace := trace w; crashed := crashed w |}
    | DownloadProgressEv =>
        {| fs := fs w; onBegin := onBegin w; onProgress := [];
           scopes := scopes w; trace := trace w; crashed := crashed w |}
    end.

(** A rejection that no handler catches: the process ends. *)
Definition unhandledRejection (e : string) (w : World) : World :=
  {| fs := fs w; onBegin := onBegin w; onProgress := onProgress w;
     scopes := scopes w; trace := trace w ++ [EUnhandled e]; crashed := true |}.

Definition update_scope (id : nat) (f : Scope -> Scope) (w : World) : World :=
  match scopes w !! id with
  | Some sc => set_scopes (<[id := f sc]> (scopes w)) w
  | None => w
  end.

Definition set_downloadFilename (guid : string) (sc : Scope) : Scope :=
  {| videoData := videoData sc; downloadFilename := guid;
     settled := settled sc; driver := driver sc; completion := completion sc |}.

Definition set_settled (sc : Scope) : Scope :=
  {| videoData := videoData sc; downloadFilename := downloadFilename sc;
     settled := true; driver := driver sc; completion := completion sc |}.

Definition set_driver (pc : DriverPc) (sc : Scope) : Scope :=
  {| videoData := videoData sc; downloadFilename := downloadFilename sc;
     settled := settled sc; driver := pc; completion := completion sc |}.

Definition set_completion (pc : CompletionPc) (sc : Scope) : Scope :=
  {| videoData := videoData sc; downloadFilename := downloadFilename sc;
     settled := settled sc; driver := driver sc; completion := pc |}.

(** [resolve()] of the promise of scope [id]. *)
Definition resolve (id : nat) (w : World) : World :=
  emit_effect (EResolve id) (update_scope id set_settled w).

Definition is_settled (id : nat) (w : World) : bool :=
  match scopes w !! id with
  | Some sc => settled sc
  | None => false
  end.

Definition read_downloadFilename (id : nat) (w : World) : string :=
  match scopes w !! id with
  | Some sc => downloadFilename sc
  | None => ""
  end.

(** A new activation: [let downloadFilename = ''] and a pending
    promise. *)
Definition new_scope (v : VideoData) (w : World) : World * nat :=
  (set_scopes (scopes w ++ [ {| videoData := v; downloadFilename := "";
                                settled := false;
                                driver := DriverIdle;
                                completion := CompletionIdle |} ]) w,
   length (scopes w)).

(** *** The download correlator

    Up to the registration of its listeners an activation of [scrapeVideo]
    has nothing that an input could reach, and its awaits there are run
    through at once.  From then on three bodies are suspended side by side
    and the inputs decide which runs next: the listeners, the interaction
    driver, and the completion body. *)

(** The listener of [Browser.downloadWillBegin] that scope [id]
    registers. *)
Definition onDownloadWillBegin (id : nat) (guid : string) (w : World) : World :=
  let w := removeAllListeners DownloadWillBeginEv w in
  let w := update_scope id (set_downloadFilename guid) w in
  log ("Download started: " +:+ read_downloadFilename id w) w.

(** The listener of [Browser.downloadProgress] that scope [id] registers.
    On a match it deregisters, logs, and starts the asynchronous body, which
    runs up to its first await: [fs.rename] is called with the name that
    [downloadFilename] holds now. *)
Definition onDownloadProgress (id : nat) (guid state : string) (w : World)
    : World :=
  match scopes w !! id with
  | None => w
  | Some sc =>
      if String.eqb guid (downloadFilename sc) && String.eqb state "completed"
      then
        let w := removeAllListeners DownloadProgressEv w in
        let w := log ("Download complete: " +:+ downloadFilename sc) w in
        let v := videoData sc in
        let filename := date v +:+ " - " +:+ sanitize (title v) +:+ ".mp4" in
        let filepath := path_join downloadDir filename in
        let src := path_join downloadDir (downloadFilename sc) in
        update_scope id (set_completion (AwaitingRename src filepath filename)) w
      else w
  end.

(** The file operation on which the completion body of scope [id] is
    suspended is carried out, and the body runs on to its next await or to
    its end: after the rename the log line and the call of
    [addVideoDataToCSV], after the append [resolve()].  A rejection is
    handled by nobody. *)
Definition fs_settles (id : nat) (w : World) : World :=
  match scopes w !! id with
  | None => w
  | Some sc =>
      match completion sc with
      | AwaitingRename src filepath filename =>
          match Fs.rename (fs w) src filepath with
          | Throw e =>
              unhandledRejection e (update_scope id (set_completion CompletionDone) w)
          | Ok fs1 =>
              let w := emit_effect (ERename src filepath) (set_fs fs1 w) in
              let w := log ("File renamed: " +:+ filepath) w in
              update_scope id (set_completion (AwaitingAppend filename)) w
          end
      | AwaitingAppend filename =>
          let record := with_filename (videoData sc) filename in
          match addVideoDataToCSV (fs w) record with
          | Throw e =>
              unhandledRejection e (update_scope id (set_completion CompletionDone) w)
          | Ok fs2 =>
              let w := emit_effect (EAppend csvFilename (csvLine record)) (set_fs fs2 w) in
              let w := update_scope id (set_completion CompletionDone) w in
              resolve id w
          end
      | CompletionIdle | CompletionDone => w
      end
  end.

(** [emit]: every listener registered when the notification arrives is
    called, in the order of registration. *)
Definition emit_downloadWillBegin (guid : string) (w : World) : World :=
  foldl (fun w id => onDownloadWillBegin id guid w) w (onBegin w).

Definition emit_downloadProgress (guid state : string) (w : World) : World :=
  foldl (fun w id => onDownloadProgress id guid state w) w (onProgress w).

(** *** The interaction driver *)

(** What the driver's rejection is reported as (a timeout of
    [waitForSelector], a selector without element, a click that fails). *)
Definition DRIVER_FAILED : string := "the interaction driver failed".

(** The gesture issued once the pending one has settled. *)
Definition next_gesture (g : Gesture) : option Gesture :=
  match g with
  | HoverItem => Some WaitTooltip
  | WaitTooltip => Some HoverTooltip
  | HoverTooltip => Some WaitMenu
  | WaitMenu => Some QueryButton
  | QueryButton => Some Click
  | Click => None
  end.

(** The pending await of scope [id] settles: fulfilled ([ok], and for the
    query of the button: an element was found), or rejected. *)
Definition driver_settles (id : nat) (ok : bool) (w : World) : World :=
  match scopes w !! id with
  | None => w
  | Some sc =>
      match driver sc with
      | DriverIdle | DriverDone => w
      | Awaiting g =>
          if ok then
            match next_gesture g with
            | Some g' =>
                emit_effect (EGesture g')
                  (update_scope id (set_driver (Awaiting g')) w)
            | None => update_scope id (set_driver DriverDone) w
            end
          else
            unhandledRejection DRIVER_FAILED
              (update_scope id (set_driver DriverDone) w)
      end
  end.

(** *** One item *)

Definition step (id : nat) (i : Input) (w : World) : World :=
  match i with
  | DownloadWillBegin guid => emit_downloadWillBegin guid w
  | DownloadProgress guid state => emit_downloadProgress guid state w
  | DriverSettles ok => driver_settles id ok w
  | FsSettles => fs_settles id w
  | FileStored name data =>
      match Fs.writeFile (fs w) (path_join downloadDir name) data with
      | Ok fs' => set_fs fs' w
      | Throw _ => w
      end
  end.

(** The caller's [await] of the promise of scope [id]. *)
Fixpoint await_promise (id : nat) (w : World) (inputs : list Input)
    : World * Outcome * list Input :=
  if crashed w then (w, Crashed, inputs)
  else if is_settled id w then (w, Resolved, inputs)
  else
    match inputs with
    | [] => (w, Pending, [])
    | i :: rest => await_promise id (step id i w) rest
    end.

Definition PRIVATE_FILENAME : string := "PRIVATE - video not downloadable".

Definition describe (v : VideoData) : string :=
  date v +:+ " - " +:+ title v +:+ " (" +:+ uuid v +:+ ")".

Definition scrapeVideo (w : World) (elementHandle : ElementHandle)
    (inputs : list Input) : World * Outcome * list Input :=
  match extractVideoDataFromElementHandle elementHandle with
  | Throw e => (unhandledRejection e w, Crashed, inputs)
  | Ok v =>
      let w := emit_effect (ELogData "Extracted video data:" v) w in
      let '(w, id) := new_scope v w in
      if isVideoDataInCSV (fs w) (uuid v) then
        let w := log ("Video already downloaded: " +:+ describe v) w in
        await_promise id (resolve id w) inputs
      else if isPrivate v then
        let w := log ("Video is private, skipping: " +:+ describe v) w in
        match addVideoDataToCSV (fs w) (with_filename v PRIVATE_FILENAME) with
        | Throw e => await_promise id (unhandledRejection e w) inputs
        | Ok fs' =>
            let w := emit_effect
                       (EAppend csvFilename (csvLine (with_filename v PRIVATE_FILENAME)))
                       (set_fs fs' w) in
            await_promise id (resolve id w) inputs
        end
      else
        let w := log ("Downloading video: " +:+ describe v +:+ "...") w in
        let w := client_on DownloadWillBeginEv id w in
        let w := client_on DownloadProgressEv id w in
        let w := emit_effect (EGesture HoverItem) w in
        let w := emit_effect (EGesture WaitTooltip) w in
        let w := update_scope id (set_driver (Awaiting WaitTooltip)) w in
        await_promise id w inputs
  end.

(** *** The loop over the grid items

    The [for] loop at the end of the main body: each item is awaited before
    the next is looked at, so the loop goes on only when the promise of
    [scrapeVideo] is resolved. *)

Definition decimal (n : nat) : string :=
  NilZero.string_of_uint (Nat.to_uint n).

Fixpoint scrapeAll (w : World) (i totalVideos : nat)
    (gridItems : list ElementHandle) (inputs : list Input) : World * Outcome :=
  match gridItems with
  | [] => (log "Scraping complete. Closing Puppeteer..." w, Resolved)
  | gridItem :: rest =>
      let w := log ("Scraping video " +:+ decimal (i + 1) +:+ " of "
                    +:+ decimal totalVideos +:+ "...") w in
      match scrapeVideo w gridItem inputs with
      | (w', Resolved, inputs') => scrapeAll w' (i + 1) totalVideos rest inputs'
      | (w', o, _) => (w', o)
      end
  end.

Definition scrapeGrid (w : World) (gridItems : list ElementHandle)
    (inputs : list Input) : World * Outcome :=
  scrapeAll w 0 (length gridItems) gridItems inputs.

(** What one run of [scrapeVideo] adds to the trace. *)
Definition added (w w' : World) : list Effect :=
  drop (length (trace w)) (trace w').

(** The state in which the loop over the grid items starts: a session
    without listeners, no activation yet. *)
Definition initial_world (files : Fs.t) : World :=
  {| fs := files; onBegin := []; onProgress := []; scopes := [];
     trace := []; crashed := false |}.

(** *** The main body

    What the script meets outside while it runs: the directories of the
    host; whether the browser, its page and its session can be had; whether
    the page of the user can be navigated to; whether the body of that page
    carries the class logged-in, given the cookies restored; what becomes of
    the sign-in; whether the grid of livestreams appears before the
    timeout; the page as the grid loader finds it, what it does in each
    settle interval and how many turns of the loader the run lasts; the grid
    items; what arrives while the items are in flight.  [directories] are
    the paths at which [fs.access] finds something that is no file of the
    download directory.  A call on the running browser that the site says
    nothing about ([browser.cookies], the evaluation of a script in the
    page, the query for the grid items, [browser.close]) fulfils. *)

Inductive SignIn : Type :=
| ButtonTimeout                     (* the sign-in button does not appear *)
| ClickFails                        (* the click on it is rejected *)
| NeverSignsIn                      (* the class logged-in never shows *)
| SignsIn (jar : list Cookie).      (* the user signs in; the jar then *)

Record Site : Type := mkSite {
  directories : gset string;
  launches : bool;
  reachable : bool;
  bodyLoggedIn : list Cookie -> bool;
  signIn : SignIn;
  gridAppears : bool;
  gridPage : GridLoader.Scroller;
  gridSettle : nat -> GridLoader.Scroller -> GridLoader.Scroller;
  patience : nat;
  gridItems : list ElementHandle;
  notifications : list Input
}.

(** What the script has done with the browser: not launched it, launched
    it, closed it by [browser.close]. *)
Inductive BrowserState : Type := NotLaunched | Running | Closed.

(** Where a run of the main body has got to: the world of the scraper,
    what was written to the standard error stream, the directories, the
    browser and its cookies. *)
Record Run : Type := mkRun {
  world : World;
  stderr : list string;
  dirs : gset string;
  browser : BrowserState;
  cookieJar : list Cookie
}.

(** An argument as JavaScript passes it: [fs.mkdir] is handed a boolean. *)
Inductive JsValue : Type :=
| JString (s : string)
| JBoolean (b : bool).

(** [fs.mkdir(path)]: a path that is no string is refused before anything
    is looked at. *)
Definition mkdir (ds : gset string) (path : JsValue) : result (gset string) :=
  match path with
  | JString p =>
      if bool_decide (p ∈ ds) then Throw "EEXIST" else Ok ({[ p ]} ∪ ds)
  | JBoolean _ => Throw "TypeError [ERR_INVALID_ARG_TYPE]"
  end.

Definition TIMEOUT : string := "TimeoutError".
Definition LAUNCH_FAILED : string := "the browser could not be launched".
Definition CLICK_FAILED : string := "the click was rejected".

(** [isLoggedIn]: the class of the body, as the site answers for the
    cookies that the browser holds. *)
Definition isLoggedIn (site : Site) (jar : list Cookie) : bool :=
  bodyLoggedIn site jar.

(** [handleLogin]: wait for the sign-in button, click it, and wait, without
    a timeout, for the class logged-in. *)
Definition handleLogin (site : Site) (w : World) (jar : list Cookie)
    : World * Outcome * list Cookie :=
  match signIn site with
  | ButtonTimeout => (unhandledRejection TIMEOUT w, Crashed, jar)
  | ClickFails =>
      let w := log "Initiating login..." w in
      (unhandledRejection CLICK_FAILED w, Crashed, jar)
  | NeverSignsIn =>
      let w := log "Initiating login..." w in
      let w := log "Please sign in to Behance." w in
      (w, Pending, jar)
  | SignsIn jar' =>
      let w := log "Initiating login..." w in
      let w := log "Please sign in to Behance." w in
      let w := log "User is logged in." w in
      (w, Resolved, jar')
  end.

(** The main body from the point at which the download directory is
    there. *)
Definition session (site : Site) (ds : gset string) (w : World) : Run * Outcome :=
  let w := log ("Maybe initializing CSV file: " +:+ csvFilename) w in
  match initCSV (fs w) with
  | Throw e => (mkRun (unhandledRejection e w) [] ds NotLaunched [], Crashed)
  | Ok fs1 =>
      let w := set_fs fs1 w in
      let w := log "Launching Puppeteer..." w in
      if negb (launches site)
      then (mkRun (unhandledRejection LAUNCH_FAILED w) [] ds NotLaunched [], Crashed)
      else
        let w := log "Restoring cookies if available..." w in
        let '(jar, cookiesRestored) := loadCookies (fs w) [] in
        let w := if cookiesRestored then w
                 else log "Cookies not found. You will be required to log in." w in
        let w := log "Navigating to Behance user's livestreams page..." w in
        if negb (reachable site)
        then (mkRun w ["Behance user " +:+ user +:+ " not found."] ds Closed jar,
              Resolved)
        else
          let loggedIn := isLoggedIn site jar in
          let '(w, o, jar) :=
            if negb loggedIn
            then handleLogin site (log "User is not logged in." w) jar
            else (log "User is already logged in." w, Resolved, jar) in
          match o with
          | Pending | Crashed => (mkRun w [] ds Running jar, o)
          | Resolved =>
              let w := log "Saving cookies..." w in
              let '(fs2, cookiesSaved) := saveCookies (fs w) jar in
              let w := set_fs fs2 w in
              let err := if cookiesSaved then [] else ["Failed to save cookies."] in
              let w := log "Looking for livestreams..." w in
              if negb (gridAppears site)
              then (mkRun (unhandledRejection TIMEOUT w) err ds Running jar, Crashed)
              else
                let w := log "Loading all videos..." w in
                match GridLoader.loadAllVideos (gridSettle site) (patience site)
                        (gridPage site) with
                | None => (mkRun w err ds Running jar, Pending)
                | Some _ =>
                    let w := log ("Videos loaded. Scraping... "
                                  +:+ "Please do not interact with the page.") w in
                    match scrapeGrid w (gridItems site) (notifications site) with
                    | (w, Resolved) => (mkRun w err ds Closed jar, Resolved)
                    | (w, o) => (mkRun w err ds Running jar, o)
                    end
                end
          end
  end.

(** The main body: the download directory is looked for and, when it is
    missing, [fs.mkdir] is called with [downloadDirExists]. *)
Definition main (site : Site) (files : Fs.t) : Run * Outcome :=
  let w := log ("Verifying download directory: " +:+ downloadDir)
             (initial_world files) in
  let downloadDirExists := bool_decide (downloadDir ∈ directories site) in
  if negb downloadDirExists
  then
    let w := log "Creating download directory..." w in
    match mkdir (directories site) (JBoolean downloadDirExists) with
    | Throw _ =>
        (mkRun w ["Failed to create download directory. Please choose a writable path."]
           (directories site) NotLaunched [],
         Resolved)
    | Ok ds => session site ds w
    end
  else session site (directories site) w.

(** *** Reading a run *)

(** The name under which the download of [v] is kept. *)
Definition canonicalName (v : VideoData) : string :=
  date v +:+ " - " +:+ sanitize (title v) +:+ ".mp4".

(** What [scrapeVideo] does with an item that is downloaded, in four
    parts: up to the first suspension of the interaction driver; when the
    progress listener finds its match for the provisional name [guid]; when
    the rename has succeeded; when the append has succeeded. *)
Definition arming (id : nat) (v : VideoData) : list Effect :=
  [ ELogData "Extracted video data:" v;
    ELog ("Downloading video: " +:+ describe v +:+ "...");
    EOn DownloadWillBeginEv id;
    EOn DownloadProgressEv id;
    EGesture HoverItem;
    EGesture WaitTooltip ].

Definition started (guid : string) : list Effect :=
  [ ERemoveAll DownloadProgressEv;
    ELog ("Download complete: " +:+ guid) ].

Definition renamed (v : VideoData) (guid : string) : list Effect :=
  [ ERename (path_join downloadDir guid) (path_join downloadDir (canonicalName v));
    ELog ("File renamed: " +:+ path_join downloadDir (canonicalName v)) ].

Definition appended (id : nat) (v : VideoData) : list Effect :=
  [ EAppend csvFilename (csvLine (with_filename v (canonicalName v)));
    EResolve id ].

(** Nothing but log lines, gestures and the begin listener deregistering. *)
Definition Quiet (q : list Effect) : Prop :=
  Forall (fun e => is_quiet e = true) q.

(** How far the correlator of an item in flight has come: its progress
    listener is waiting for its match; it has found it for [guid] and the
    rename is pending; the rename is done and the append is pending. *)
Inductive Stage : Type :=
| Listening
| Renaming (guid : string)
| Appending (guid : string).

(** What the trace of an item in flight looks like after [arming], by
    stage. *)
Definition TraceShape (v : VideoData) (st : Stage) (tr : list Effect) : Prop :=
  match st with
  | Listening => Quiet tr
  | Renaming guid =>
      exists q1 q2, tr = q1 ++ started guid ++ q2 /\ Quiet q1 /\ Quiet q2
  | Appending guid =>
      exists q1 q2 q3,
        tr = q1 ++ started guid ++ q2 ++ renamed v guid ++ q3 /\
        Quiet q1 /\ Quiet q2 /\ Quiet q3
  end.

(** What the inputs consumed so far look like, by stage: no match yet, or
    a first match, which is a completion reported for the name captured
    by then. *)
Definition InputShape (st : Stage) (consumed : list Input) : Prop :=
  match st with
  | Listening => never_hit None consumed
  | Renaming guid | Appending guid =>
      exists pre post,
        consumed = pre ++ DownloadProgress guid "completed" :: post /\
        never_hit None pre /\
        guid = default "" (first_begin pre)
  end.

(** The begin listener of scope [id] and its variable [downloadFilename]
    agree with what has been captured. *)
Definition Correlated (id : nat) (v : VideoData) (cap : option string)
    (w : World) : Prop :=
  exists sc, scopes w !! id = Some sc /\ videoData sc = v /\
    match cap with
    | None => onBegin w = [id] /\ downloadFilename sc = ""
    | Some guid => onBegin w = [] /\ downloadFilename sc = guid
    end.

(** The progress listener of scope [id] and its completion body agree with
    the stage, and the promise is pending. *)
Definition Staged (id : nat) (v : VideoData) (st : Stage) (w : World) : Prop :=
  exists sc, scopes w !! id = Some sc /\ settled sc = false /\
    match st with
    | Listening => onProgress w = [id] /\ completion sc = CompletionIdle
    | Renaming guid =>
        onProgress w = [] /\
        completion sc = AwaitingRename (path_join downloadDir guid)
                          (path_join downloadDir (canonicalName v)) (canonicalName v)
    | Appending guid =>
        onProgress w = [] /\ completion sc = AwaitingAppend (canonicalName v)
    end.

(** How many times the begin listener has run after the inputs [l]. *)
Definition begin_removals (l : list Input) : nat :=
  match first_begin l with
  | Some _ => 1
  | None => 0
  end.

(** The item of scope [id] is in flight: the process is alive, and after
    the inputs [consumed] the trace is [base] followed by [tr]. *)
Record InFlight (id : nat) (v : VideoData) (base : list Effect)
    (consumed : list Input) (tr : list Effect) (st : Stage) (w : World)
    : Prop := mkInFlight {
  fl_alive : crashed w = false;
  fl_trace : trace w = base ++ tr;
  fl_shape : TraceShape v st tr;
  fl_inputs : InputShape st consumed;
  fl_corr : Correlated id v (first_begin consumed) w;
  fl_stage : Staged id v st w;
  fl_begins : count is_begin_removal tr = begin_removals consumed
}.

(** How the caller's await ends: what it returns and the last effects
    before that. *)
Inductive Ending (id : nat) (v : VideoData) (st : Stage) (w' : World)
    : Outcome -> list Effect -> Prop :=
| ending_pending :
    crashed w' = false -> Staged id v st w' ->
    Ending id v st w' Pending []
| ending_crashed (e : string) :
    crashed w' = true ->
    onProgress w' = match st with Listening => [id] | _ => [] end ->
    Ending id v st w' Crashed [EUnhandled e]
| ending_resolved (guid old : string) :
    st = Appending guid ->
    crashed w' = false -> is_settled id w' = true -> onProgress w' = [] ->
    Fs.readFile (fs w') csvFilename
      = Ok (old +:+ csvLine (with_filename v (canonicalName v))) ->
    Ending id v st w' Resolved (appended id v).

(** What one input does to an item in flight: the item stays in flight, or
    the caller's await ends. *)
Inductive Stepped (id : nat) (v : VideoData) (base : list Effect)
    (consumed : list Input) (tr : list Effect) (st : Stage) (i : Input)
    (w1 : World) : Prop :=
| stepped_on (st' : Stage) (tr' : list Effect) :
    InFlight id v base (consumed ++ [i]) tr' st' w1 ->
    Stepped id v base consumed tr st i w1
| stepped_off (o : Outcome) (tail : list Effect) :
    o <> Pending ->
    trace w1 = base ++ tr ++ tail ->
    InputShape st (consumed ++ [i]) ->
    Correlated id v (first_begin (consumed ++ [i])) w1 ->
    count is_begin_removal tr = begin_removals (consumed ++ [i]) ->
    Ending id v st w1 o tail ->
    Stepped id v base consumed tr st i w1.

(** What a list of inputs does to an item in flight that has consumed
    [before] already, up to the point at which the caller's await
    returns. *)
Inductive Flight (id : nat) (v : VideoData) (base : list Effect)
    (before inputs : list Input) (w' : World) (o : Outcome)
    (rest : list Input) : Prop :=
| flight (consumed : list Input) (st : Stage) (tr tail : list Effect) :
    inputs = consumed ++ rest ->
    trace w' = base ++ tr ++ tail ->
    TraceShape v st tr ->
    InputShape st (before ++ consumed) ->
    Correlated id v (first_begin (before ++ consumed)) w' ->
    count is_begin_removal tr = begin_removals (before ++ consumed) ->
    Ending id v st w' o tail ->
    (o = Pending -> rest = []) ->
    Flight id v base before inputs w' o rest.

(** How often the character [c] occurs in [s], and the commas of [s]. *)
Fixpoint occurrences (c : ascii) (s : string) : nat :=
  match s with
  | "" => 0
  | String a s' => (if Ascii.eqb a c then 1 else 0) + occurrences c s'
  end.

Definition commas (s : string) : nat := occurrences ","%char s.

(** The grid item lacks something that the extractor reads: an anchor
    whose address has a segment after /videos/, a card name with the
    bullet in it, or the duration badge. *)
Definition Malformed (h : ElementHandle) : Prop :=
  match anchor h with
  | None => True
  | Some (href, _) =>
      forall a c b, href = a +:+ "/videos/" +:+ String c b -> c = "/"%char
  end
  \/ match cardName h with
     | None => True
     | Some text => ~ Substring "•" text
     end
  \/ durationBadge h = None.








(** The gestures among the effects, in order, and the gestures that the
    interaction driver makes when nothing fails. *)
Definition gesture_of (e : Effect) : option Gesture :=
  match e with
  | EGesture g => Some g
  | _ => None
  end.

Definition gestures (l : list Effect) : list Gesture := omap gesture_of l.

Definition routine : list Gesture :=
  [HoverItem; WaitTooltip; HoverTooltip; WaitMenu; QueryButton; Click].

(** The routine up to the gesture [g]. *)
Definition upto (g : Gesture) : list Gesture :=
  match g with
  | HoverItem => take 1 routine
  | WaitTooltip => take 2 routine
  | HoverTooltip => take 3 routine
  | WaitMenu => take 4 routine
  | QueryButton => take 5 routine
  | Click => routine
  end.

(** The gestures made since the trace was [base] are those up to the point
    at which the driver of scope [id] stands. *)
Definition Driven (id : nat) (base : list Effect) (w : World) : Prop :=
  exists l sc, trace w = base ++ l /\ scopes w !! id = Some sc /\
    match driver sc with
    | DriverIdle => gestures l = []
    | Awaiting g => gestures l = upto g
    | DriverDone => gestures l `prefix_of` routine
    end.

(** Going from [w] to [w1] no gesture is made and the driver of scope [id]
    stays where it is. *)
Definition Passive (id : nat) (w w1 : World) : Prop :=
  (forall sc, scopes w !! id = Some sc ->
     exists sc1, scopes w1 !! id = Some sc1 /\ driver sc1 = driver sc)
  /\ exists l, trace w1 = trace w ++ l /\ gestures l = [].

(** Effects by which something is downloaded or recorded: a gesture, a
    listener registered, a file renamed, a record appended. *)
Definition is_download (e : Effect) : bool :=
  is_gesture e || is_registration e || is_rename e || is_append e.

(** The page shows a signed-in user: the body carries the class logged-in
    for the cookies held, or the user signs in. *)
Definition SignedIn (site : Site) (jar : list Cookie) : Prop :=
  isLoggedIn site jar = true \/ exists jar', signIn site = SignsIn jar'.

(** [w0] is [w] some steps of the main body later: nothing has been
    downloaded or recorded in between, the ledger reads as it does in
    [files1], and the session and the activations are those of [w]. *)
Definition Ahead (w : World) (files1 : Fs.t) (w0 : World) : Prop :=
  (exists l, trace w0 = trace w ++ l /\ Forall (fun e => is_download e = false) l)
  /\ Fs.readFile (fs w0) csvFilename = Fs.readFile files1 csvFilename
  /\ onBegin w0 = onBegin w /\ onProgress w0 = onProgress w
  /\ scopes w0 = scopes w.


(** *** Sample data *)

Definition sample_row : string :=
  "https://www.behance.net/videos/abc-123/My-Stream,abc-123,My Stream,"
  +:+ "2023-01-05,1:02:03,2023-01-05 - My Stream.mp4".

Definition sample_ledger : string := headers +:+ sample_row +:+ JS.LF.

(** A download directory [dl] whose ledger has one row. *)
Definition sample_fs : Fs.t :=
  {| Fs.files := {[ "dl/_videos.csv" := sample_ledger ]}; Fs.denied := ∅ |}.

(** A download directory [dl] without a ledger. *)
Definition empty_fs : Fs.t := {| Fs.files := ∅; Fs.denied := ∅ |}.

(** The same directory with nothing but the header line in its ledger,
    and the same again with a ledger that refuses writes. *)
Definition header_fs : Fs.t :=
  {| Fs.files := {[ "dl/_videos.csv" := headers ]}; Fs.denied := ∅ |}.

Definition readonly_fs : Fs.t :=
  {| Fs.files := {[ "dl/_videos.csv" := headers ]};
     Fs.denied := {[ "dl/_videos.csv" ]} |}.

Definition public_item : ElementHandle :=
  {| anchor := Some ("https://www.behance.net/videos/abc-123/My-Stream", "My Stream");
     cardName := Some "Some Name • Jan 5, 2023";
     durationBadge := Some "1:02:03";
     privacyLock := false |}.

Definition public_video : VideoData :=
  {| url := "https://www.behance.net/videos/abc-123/My-Stream";
     uuid := "abc-123"; title := "My Stream"; date := "2023-01-05";
     duration := "1:02:03"; isPrivate := false; filename := None |}.

Definition private_item : ElementHandle :=
  {| anchor := Some ("https://www.behance.net/videos/def-456/Other", "Other");
     cardName := Some "Some Name • Feb 7, 2023";
     durationBadge := Some "2:00";
     privacyLock := true |}.

Definition private_video : VideoData :=
  {| url := "https://www.behance.net/videos/def-456/Other";
     uuid := "def-456"; title := "Other"; date := "2023-02-07";
     duration := "2:00"; isPrivate := true; filename := None |}.

(** The driver's gestures settle, a download starts under the name g1, a
    second one under g2 is announced and reported complete, the file g1
    arrives and is reported in progress, then complete (twice); the rename
    and the append of the completion body are carried out. *)
Definition sample_inputs : list Input :=
  [ DriverSettles true; DriverSettles true; DriverSettles true;
    DriverSettles true; DownloadWillBegin "g1"; DriverSettles true;
    DownloadWillBegin "g2"; DownloadProgress "g2" "completed";
    FileStored "g1" "bytes"; DownloadProgress "g1" "inProgress";
    DownloadProgress "g1" "completed"; DownloadProgress "g1" "completed";
    FsSettles; FsSettles; DownloadProgress "g1" "completed" ].

(** Progress notifications only: no download has been announced. *)
Definition early_inputs : list Input :=
  [ DriverSettles true; FileStored "g1" "bytes";
    DownloadProgress "g1" "completed"; FsSettles;
    DownloadProgress "g2" "completed"; FsSettles ].

(** A stand-in for the sanitize-filename package in the examples: it
    removes the characters that no file name may hold (the slashes, the
    colon, the question mark, the star, the bar, the angle brackets and
    the double quote). *)
Definition illegal (c : ascii) : bool :=
  existsb (Nat.eqb (nat_of_ascii c)) [47; 92; 58; 63; 42; 124; 60; 62; 34].

Fixpoint sample_sanitize (s : string) : string :=
  match s with
  | "" => ""
  | String c s' =>
      if illegal c then sample_sanitize s' else String c (sample_sanitize s')
  end.

(** A page of height 3000 in a viewport of 960 that grows by 2000 during
    each of the first two settle intervals and then stays as it is. *)
Definition sample_page : GridLoader.Scroller :=
  {| GridLoader.scrollTop := 0; GridLoader.scrollHeight := 3000;
     GridLoader.clientHeight := 960 |}.

Definition sample_settle (n : nat) (s : GridLoader.Scroller)
    : GridLoader.Scroller :=
  if (n <? 2)%nat
  then {| GridLoader.scrollTop := GridLoader.scrollTop s;
          GridLoader.scrollHeight := GridLoader.scrollHeight s + 2000;
          GridLoader.clientHeight := GridLoader.clientHeight s |}
  else s.

(** A page that grows by 2000 during every settle interval. *)
Definition endless_settle (n : nat) (s : GridLoader.Scroller)
    : GridLoader.Scroller :=
  {| GridLoader.scrollTop := GridLoader.scrollTop s;
     GridLoader.scrollHeight := GridLoader.scrollHeight s + 2000;
     GridLoader.clientHeight := GridLoader.clientHeight s |}.

(** A grid item whose card name has no bullet in it. *)
Definition malformed_item : ElementHandle :=
  {| anchor := Some ("https://www.behance.net/videos/ghi-789/Third", "Third");
     cardName := Some "Some Name, Mar 9, 2023";
     durationBadge := Some "3:00";
     privacyLock := false |}.

(** Stand-ins for the JSON codec and for [browser.setCookie] in the
    examples: a cookie is written as its properties, name=value, joined by
    ampersands, and the cookies are joined by semicolons; the browser adds
    the cookies it is handed to its jar. *)
Definition sample_stringify (cookies : list Cookie) : string :=
  String.concat ";"
    (map (fun c => String.concat "&" (map (fun kv => kv.1 +:+ "=" +:+ kv.2) c))
       cookies).

Definition sample_parse (text : string) : result (list Cookie) :=
  if String.eqb text "" then Ok []
  else
    Ok (map (fun c =>
               map (fun kv => match JS.split kv "=" with
                              | [k; v] => (k, v)
                              | _ => (kv, "")
                              end)
                 (JS.split c "&"))
          (JS.split text ";")).

Definition sample_setCookie (jar cookies : list Cookie) : result (list Cookie) :=
  Ok (jar ++ cookies).

Definition sample_jar : list Cookie :=
  [ [("name", "sid"); ("value", "1")]; [("name", "theme"); ("value", "dark")] ].

(** A first visit: the directory [dl] is there, nobody is signed in, the
    user signs in, the grid shows the private and the public item, and the
    download of the public item goes as in [sample_inputs]. *)
Definition sample_site : Site :=
  {| directories := {[ "dl" ]};
     launches := true;
     reachable := true;
     bodyLoggedIn := fun jar => match jar with [] => false | _ => true end;
     signIn := SignsIn sample_jar;
     gridAppears := true;
     gridPage := sample_page;
     gridSettle := sample_settle;
     patience := 10;
     gridItems := [private_item; public_item];
     notifications := sample_inputs |}.


(** The same visit without the directory [dl], and with a user whose page
    cannot be reached. *)
Definition homeless_site : Site :=
  {| directories := ∅;
     launches := true;
     reachable := true;
     bodyLoggedIn := fun jar => match jar with [] => false | _ => true end;
     signIn := SignsIn sample_jar;
     gridAppears := true;
     gridPage := sample_page;
     gridSettle := sample_settle;
     patience := 10;
     gridItems := [private_item; public_item];
     notifications := sample_inputs |}.

Definition unreachable_site : Site :=
  {| directories := {[ "dl" ]};
     launches := true;
     reachable := false;
     bodyLoggedIn := fun jar => match jar with [] => false | _ => true end;
     signIn := SignsIn sample_jar;
     gridAppears := true;
     gridPage := sample_page;
     gridSettle := sample_settle;
     patience := 10;
     gridItems := [private_item; public_item];
     notifications := sample_inputs |}.

(** * Properties *)

(** ** Strings *)

Lemma append_nil_l (s : string) : "" +:+ s = s.
Proof. reflexivity. Qed.

Lemma append_cons (c : ascii) (s t : string) :
  String c s +:+ t = String c (s +:+ t).
Proof. reflexivity. Qed.

Lemma append_nil_r (s : string) : s +:+ "" = s.
Proof.
  induction s as [|c s IH]; [done |].
  by rewrite append_cons, IH.
Qed.

Lemma append_assoc (a b c : string) : (a +:+ b) +:+ c = a +:+ b +:+ c.
Proof.
  induction a as [|x a IH]; [done |].
  by rewrite !append_cons, IH.
Qed.

Lemma startsWith_append (p t : string) : JS.startsWith (p +:+ t) p = true.
Proof.
  induction p as [|c p IH]; [done |].
  rewrite append_cons. simpl. by rewrite Ascii.eqb_refl.
Qed.

Lemma startsWith_inv (s p : string) :
  JS.startsWith s p = true -> exists t, s = p +:+ t.
Proof.
  revert s. induction p as [|c p IH]; intros s H.
  - by exists s.
  - destruct s as [|a s]; simpl in H; [done |].
    destruct (Ascii.eqb a c) eqn:E; [| done].
    apply Ascii.eqb_eq in E as ->.
    destruct (IH s H) as [t ->]. by exists t.
Qed.

Lemma Substring_prefix (a b : string) : Substring a (a +:+ b).
Proof. by exists "", b. Qed.

Lemma Substring_cons (c : ascii) (n s : string) :
  Substring n s -> Substring n (String c s).
Proof. intros (a & b & ->). by exists (String c a), b. Qed.

Lemma Substring_trans (a b c : string) :
  Substring a b -> Substring b c -> Substring a c.
Proof.
  intros (x & y & ->) (x' & y' & ->).
  exists (x' +:+ x), (y +:+ y'). by rewrite !append_assoc.
Qed.

Lemma includes_Substring (s needle : string) :
  JS.includes s needle = true <-> Substring needle s.
Proof.
  split.
  - induction s as [|c s IH]; simpl.
    + destruct (JS.startsWith "" needle) eqn:E; [| done].
      intros _. destruct (startsWith_inv _ _ E) as [t Ht].
      rewrite Ht. apply Substring_prefix.
    + destruct (JS.startsWith (String c s) needle) eqn:E.
      * intros _. destruct (startsWith_inv _ _ E) as [t Ht].
        rewrite Ht. apply Substring_prefix.
      * intros H. by apply Substring_cons, IH.
  - intros (a & b & ->). induction a as [|c a IH].
    + rewrite append_nil_l.
      destruct (needle +:+ b) eqn:E; simpl; rewrite <- E, startsWith_append; done.
    + rewrite append_cons. simpl. rewrite IH. by destruct (JS.startsWith _ _).
Qed.

Lemma Substring_empty (s : string) : Substring "" s.
Proof. by exists "", s. Qed.

(** Every piece that [split_scan] returns is cut out of the text: it lies
    inside it, or it is the piece in progress followed by what comes
    right after the part of the separator still to be passed over. *)
Lemma split_scan_pieces (sep s : string) :
  forall (skip : nat) (cur p : string),
    p ∈ JS.split_scan sep skip cur s ->
    Substring p s \/
    exists a, p = cur +:+ a /\
      (a = "" \/ exists x b, s = x +:+ a +:+ b /\ String.length x = skip).
Proof.
  induction s as [|c s IH]; intros skip cur p Hp; simpl in Hp.
  - apply list_elem_of_singleton in Hp as ->.
    right. exists "". rewrite append_nil_r. auto.
  - destruct skip as [|k].
    + destruct (JS.startsWith (String c s) sep).
      * apply elem_of_cons in Hp as [-> | Hp].
        { right. exists "". rewrite append_nil_r. auto. }
        left. apply Substring_cons.
        destruct (IH _ _ _ Hp) as [H | (a & -> & [-> | (x & b & -> & _)])].
        -- done.
        -- apply Substring_empty.
        -- by exists x, b.
      * destruct (IH _ _ _ Hp) as [H | (a & -> & [-> | (x & b & -> & Hx)])].
        -- left. by apply Substring_cons.
        -- right. exists (String c ""). split; [by rewrite append_nil_r |].
           right. by exists "", s.
        -- right. destruct x; [| done].
           exists (String c a). split; [by rewrite append_assoc |].
           right. by exists "", b.
    + destruct (IH _ _ _ Hp) as [H | (a & -> & [-> | (x & b & -> & Hx)])].
      * left. by apply Substring_cons.
      * right. exists "". auto.
      * right. exists a. split; [done |].
        right. exists (String c x), b. simpl. by rewrite Hx.
Qed.

Lemma split_pieces (s sep p : string) :
  sep <> "" -> p ∈ JS.split s sep -> Substring p s.
Proof.
  intros Hsep Hp. unfold JS.split in Hp.
  destruct sep as [|c sep]; [done |].
  destruct (split_scan_pieces _ _ _ _ _ Hp)
    as [H | (a & -> & [-> | (x & b & -> & Hx)])].
  - done.
  - apply Substring_empty.
  - destruct x; [| done]. rewrite !append_nil_l. apply Substring_prefix.
Qed.

(** ** The ledger *)

Lemma row_uuid_Substring (row u : string) :
  row_uuid row = Some u -> Substring u row.
Proof.
  intros H. apply (split_pieces row ","); [done |].
  by apply list_elem_of_lookup_2 in H.
Qed.

Lemma rows_Substring (csvData row : string) :
  row ∈ rows csvData -> Substring row csvData.
Proof.
  unfold rows. intros [_ H]%list_elem_of_filter.
  apply (split_pieces csvData JS.LF); [done |].
  destruct (JS.split csvData JS.LF) as [|x l]; [done |].
  simpl in H. by apply elem_of_cons; right.
Qed.

(** C1, as the code has it: [isVideoDataInCSV] answers true exactly when
    the ledger can be read and the identifier occurs somewhere in its text,
    header line included.  So it answers true whenever some row has that
    identifier in its identifier field; the converse is what fails. *)
Theorem isVideoDataInCSV_scans_text (fs : Fs.t) (u : string) :
  (isVideoDataInCSV fs u = true <->
     exists csvData, Fs.readFile fs csvFilename = Ok csvData /\ Substring u csvData)
  /\ (ledger_has_row fs u -> isVideoDataInCSV fs u = true).
Proof.
  assert (Hiff : isVideoDataInCSV fs u = true <->
     exists csvData, Fs.readFile fs csvFilename = Ok csvData /\ Substring u csvData).
  { unfold isVideoDataInCSV.
    destruct (Fs.readFile fs csvFilename) as [csvData | e].
    - rewrite includes_Substring. split.
      + intros H. by exists csvData.
      + by intros (c & [= <-] & H).
    - split; [done |]. by intros (c & [=] & _). }
  split; [exact Hiff |].
  intros (csvData & row & Hread & Hrow & Hu).
  apply Hiff. exists csvData. split; [done |].
  eapply Substring_trans; [by apply row_uuid_Substring | by apply rows_Substring].
Qed.

(** C8: [initCSV] leaves a ledger that exists as it is, whatever it
    holds; it creates a missing one with the header line and nothing else,
    touching no other file; and running it twice is running it once. *)
Theorem initCSV_idempotent (fs : Fs.t) :
  (is_Some (Fs.files fs !! csvFilename) -> initCSV fs = Ok fs)
  /\ (Fs.files fs !! csvFilename = None -> csvFilename ∉ Fs.denied fs ->
        exists fs', initCSV fs = Ok fs' /\
          Fs.files fs' = <[csvFilename := headers]> (Fs.files fs) /\
          Fs.denied fs' = Fs.denied fs /\
          Fs.readFile fs' csvFilename = Ok headers)
  /\ (initCSV fs ≫= initCSV = initCSV fs).
Proof.
  unfold initCSV, Fs.access, Fs.writeFile, Fs.readFile.
  split; [| split].
  - intros [data ->]. done.
  - intros -> Hw. rewrite bool_decide_eq_false_2 by done.
    eexists. split; [done |]. simpl. by rewrite lookup_insert_eq.
  - destruct (Fs.files fs !! csvFilename) as [data |] eqn:E; simpl.
    + by rewrite E.
    + destruct (bool_decide (csvFilename ∈ Fs.denied fs)); simpl; [done |].
      by rewrite lookup_insert_eq.
Qed.

(** ** The grid loader *)

Import GridLoader.

Section Loop.

Variable settle : nat -> Scroller -> Scroller.
Variable page : Scroller.

Lemma iteration_running (n : nat) (last : Z) :
  iteration settle n (running settle page n) last
  = (if (observed settle page n =? last)%Z then finished settle page (S n) else running settle page (S n),
     observed settle page n).
Proof. reflexivity. Qed.

Lemma iteration_stable (n : nat) :
  stable settle page n ->
  iteration settle n (running settle page n) (previous settle page n)
  = (finished settle page (S n), previous settle page (S n)).
Proof.
  intros H. rewrite iteration_running.
  apply Z.eqb_eq in H. by rewrite H.
Qed.

Lemma iteration_moving (n : nat) :
  ~ stable settle page n ->
  iteration settle n (running settle page n) (previous settle page n)
  = (running settle page (S n), previous settle page (S n)).
Proof.
  intros H. rewrite iteration_running.
  apply Z.eqb_neq in H. by rewrite H.
Qed.

Lemma stable_dec (n : nat) : {stable settle page n} + {~ stable settle page n}.
Proof. unfold stable. apply Z.eq_dec. Qed.

Lemma while_loop_running (fuel n : nat) (last : Z) :
  while_loop settle (S fuel) n (running settle page n) last
  = let '(win', last') := iteration settle n (running settle page n) last in
    while_loop settle fuel (S n) win' last'.
Proof. reflexivity. Qed.

Lemma while_loop_finished (fuel n : nat) (last : Z) :
  while_loop settle fuel n (finished settle page n) last = Some (n, finished settle page n).
Proof. by destruct fuel. Qed.

Lemma while_loop_returns (fuel : nat) :
  forall (n k : nat) (win : Window),
    while_loop settle fuel n (running settle page n) (previous settle page n) = Some (k, win) ->
    exists j, k = S j /\ n <= j /\ stable settle page j /\
      (forall i, n <= i < j -> ~ stable settle page i) /\ win = finished settle page k.
Proof.
  induction fuel as [|fuel IH]; intros n k win H; [done |].
  rewrite while_loop_running in H.
  destruct (stable_dec n) as [Hs | Hs].
  - rewrite (iteration_stable n Hs), while_loop_finished in H.
    injection H as <- <-.
    exists n. repeat split; auto. intros i Hi. lia.
  - rewrite (iteration_moving n Hs) in H.
    destruct (IH _ _ _ H) as (j & -> & Hj & Hst & Hbefore & ->).
    exists j. repeat split; auto; [lia |].
    intros i Hi. destruct (decide (i = n)) as [-> | Hne]; [done |].
    apply Hbefore. lia.
Qed.

Lemma while_loop_reaches (j : nat) :
  stable settle page j ->
  forall (fuel n : nat),
    n <= j -> j - n < fuel ->
    (forall i, n <= i < j -> ~ stable settle page i) ->
    while_loop settle fuel n (running settle page n) (previous settle page n)
    = Some (S j, finished settle page (S j)).
Proof.
  intros Hst. induction fuel as [|fuel IH]; intros n Hn Hfuel Hbefore; [lia |].
  rewrite while_loop_running. destruct (decide (n = j)) as [-> | Hne].
  - by rewrite (iteration_stable j Hst), while_loop_finished.
  - rewrite iteration_moving by (apply Hbefore; lia).
    apply IH; [lia | lia |]. intros i Hi. apply Hbefore. lia.
Qed.

Lemma while_loop_runs_on (fuel : nat) :
  (forall n, ~ stable settle page n) ->
  forall n, while_loop settle fuel n (running settle page n) (previous settle page n) = None.
Proof.
  intros Hmoving. induction fuel as [|fuel IH]; intros n; [done |].
  rewrite while_loop_running, iteration_moving by done. apply IH.
Qed.

(** C9: [loadAllVideos] returns after turn [j] exactly when turn [j] is
    the first in which the position read after the settle interval is
    the one read a turn before; nothing else ends it, and on a page
    whose position advances in every turn it does not return, however
    long it runs. *)
Theorem loadAllVideos_stops_when_stable :
  (forall fuel k win,
      loadAllVideos settle fuel page = Some (k, win) ->
      exists j, k = S j /\ stable settle page j /\
        (forall i, i < j -> ~ stable settle page i) /\
        atBottom win = true /\ scroller win = page_after settle page k)
  /\ (forall j,
        stable settle page j ->
        (forall i, i < j -> ~ stable settle page i) ->
        forall fuel, j < fuel ->
          exists win, loadAllVideos settle fuel page = Some (S j, win))
  /\ ((forall n, (previous settle page n < observed settle page n)%Z) ->
        forall fuel, loadAllVideos settle fuel page = None).
Proof.
  split; [| split].
  - intros fuel k win H.
    destruct (while_loop_returns fuel 0 k win H)
      as (j & -> & _ & Hst & Hbefore & ->).
    exists j. repeat split; auto. intros i Hi. apply Hbefore. lia.
  - intros j Hst Hbefore fuel Hfuel. eexists.
    apply (while_loop_reaches j Hst fuel 0); [lia | lia |].
    intros i Hi. apply Hbefore. lia.
  - intros Hadv fuel. apply (while_loop_runs_on fuel).
    intros n Hn. specialize (Hadv n). unfold stable in Hn. lia.
Qed.

End Loop.

(** ** Date normalisation *)

Lemma Date_parse_Jan_5_2023 :
  JS.Date_parse tz "Jan 5, 2023" = Some (1672876800000 - tz * JS.msPerMinute)%Z.
Proof. reflexivity. Qed.

(** The calendar day that comes out for "Jan 5, 2023" is the day on which
    local midnight falls in UTC: January 5 from Greenwich westwards,
    January 4 east of it. *)
Lemma normalizeDate_by_zone :
  ((-1440 < tz <= 0)%Z -> normalizeDate "Jan 5, 2023" = Ok "2023-01-05")
  /\ ((0 < tz < 1440)%Z -> normalizeDate "Jan 5, 2023" = Ok "2023-01-04").
Proof.
  unfold normalizeDate. rewrite Date_parse_Jan_5_2023.
  unfold JS.toISOString, JS.msPerMinute, JS.msPerDay.
  set (t := (1672876800000 - tz * 60000)%Z).
  split; intros Htz.
  - assert (Habs : (Z.abs t >? 8640000000000000)%Z = false)
      by (rewrite Z.gtb_ltb; apply Z.ltb_ge; lia).
    assert (Hday : (t `div` 86400000 = 19362)%Z)
      by (symmetry; apply (Z.div_unique t 86400000 19362 (t - 19362 * 86400000)); lia).
    rewrite Habs, Hday. reflexivity.
  - assert (Habs : (Z.abs t >? 8640000000000000)%Z = false)
      by (rewrite Z.gtb_ltb; apply Z.ltb_ge; lia).
    assert (Hday : (t `div` 86400000 = 19361)%Z)
      by (symmetry; apply (Z.div_unique t 86400000 19361 (t - 19361 * 86400000)); lia).
    rewrite Habs, Hday. reflexivity.
Qed.

(** ** Worlds and traces *)

Lemma count_app (p : Effect -> bool) (l1 l2 : list Effect) :
  count p (l1 ++ l2) = count p l1 + count p l2.
Proof. induction l1 as [|e l1 IH]; simpl; [done | rewrite IH; lia]. Qed.

Lemma count_quiet (p : Effect -> bool) (q : list Effect) :
  (forall e, is_quiet e = true -> p e = false) ->
  Forall (fun e => is_quiet e = true) q -> count p q = 0.
Proof.
  intros Hp. induction 1 as [|e q He _ IH]; simpl; [done |].
  by rewrite (Hp e He), IH.
Qed.

Lemma added_app (w w' : World) (l : list Effect) :
  trace w' = trace w ++ l -> added w w' = l.
Proof. unfold added. intros ->. apply drop_app_length. Qed.

Lemma update_scope_lookup (id : nat) (f : Scope -> Scope) (w : World) (sc : Scope) :
  scopes w !! id = Some sc ->
  update_scope id f w = set_scopes (<[id := f sc]> (scopes w)) w
  /\ scopes (update_scope id f w) !! id = Some (f sc).
Proof.
  intros H. unfold update_scope. rewrite H. split; [done |].
  simpl. apply list_lookup_insert_eq. by eapply lookup_lt_Some.
Qed.

Lemma await_promise_crashed (id : nat) (w : World) (inputs : list Input) :
  crashed w = true -> await_promise id w inputs = (w, Crashed, inputs).
Proof. intros H. destruct inputs; simpl; by rewrite H. Qed.

Lemma await_promise_settled (id : nat) (w : World) (inputs : list Input) :
  crashed w = false -> is_settled id w = true ->
  await_promise id w inputs = (w, Resolved, inputs).
Proof. intros H1 H2. destruct inputs; simpl; by rewrite H1, H2. Qed.

Lemma await_promise_step (id : nat) (w : World) (i : Input) (inputs : list Input) :
  crashed w = false -> is_settled id w = false ->
  await_promise id w (i :: inputs) = await_promise id (step id i w) inputs.
Proof. intros H1 H2. simpl. by rewrite H1, H2. Qed.

Lemma await_promise_nil (id : nat) (w : World) :
  crashed w = false -> is_settled id w = false ->
  await_promise id w [] = (w, Pending, []).
Proof. intros H1 H2. simpl. by rewrite H1, H2. Qed.

(** ** One input to an item in flight *)

Lemma first_begin_app (a b : list Input) :
  first_begin (a ++ b) =
  match first_begin a with
  | Some guid => Some guid
  | None => first_begin b
  end.
Proof. induction a as [|[] a IH]; simpl; done. Qed.

Lemma first_begin_snoc (c : list Input) (i : Input) :
  is_begin i = false -> first_begin (c ++ [i]) = first_begin c.
Proof. intros H. rewrite first_begin_app. by destruct (first_begin c), i. Qed.

Lemma begin_removals_snoc (c : list Input) (i : Input) :
  is_begin i = false -> begin_removals (c ++ [i]) = begin_removals c.
Proof. intros H. unfold begin_removals. by rewrite first_begin_snoc. Qed.

Lemma capture_cons (cap : option string) (i : Input) (l : list Input) :
  capture cap (i :: l) = capture (capture cap [i]) l.
Proof. by destruct cap, i. Qed.

Lemma capture_nil (cap : option string) : capture cap [] = cap.
Proof. by destruct cap. Qed.

Lemma never_hit_snoc (l : list Input) :
  forall (cap : option string) (i : Input),
    never_hit cap l -> hits (capture cap l) i = false -> never_hit cap (l ++ [i]).
Proof.
  induction l as [|x l IH]; intros cap i Hl Hi; simpl.
  - rewrite capture_nil in Hi. done.
  - destruct Hl as [Hx Hl]. split; [done |].
    apply IH; [done |]. by rewrite <- capture_cons.
Qed.

Lemma Quiet_app (q1 q2 : list Effect) : Quiet q1 -> Quiet q2 -> Quiet (q1 ++ q2).
Proof. apply Forall_app_2. Qed.

Lemma TraceShape_quiet (v : VideoData) (st : Stage) (tr q : list Effect) :
  TraceShape v st tr -> Quiet q -> TraceShape v st (tr ++ q).
Proof.
  destruct st as [| guid | guid]; cbn [TraceShape].
  - apply Quiet_app.
  - intros (q1 & q2 & -> & H1 & H2) Hq. exists q1, (q2 ++ q).
    split; [by rewrite <- !app_assoc |]. split; [done | by apply Quiet_app].
  - intros (q1 & q2 & q3 & -> & H1 & H2 & H3) Hq. exists q1, q2, (q3 ++ q).
    split; [by rewrite <- !app_assoc |].
    split; [done |]. split; [done | by apply Quiet_app].
Qed.

Lemma InputShape_snoc (st : Stage) (c : list Input) (i : Input) :
  InputShape st c ->
  (st = Listening -> hits (first_begin c) i = false) ->
  InputShape st (c ++ [i]).
Proof.
  destruct st as [| guid | guid]; simpl.
  - intros Hc Hi. apply never_hit_snoc; [done |]. by apply Hi.
  - intros (pre & post & -> & Hpre & Hg) _. exists pre, (post ++ [i]).
    by rewrite <- app_assoc.
  - intros (pre & post & -> & Hpre & Hg) _. exists pre, (post ++ [i]).
    by rewrite <- app_assoc.
Qed.

Lemma Staged_pending (id : nat) (v : VideoData) (st : Stage) (w : World) :
  Staged id v st w -> is_settled id w = false.
Proof. intros (sc & Hsc & Hs & _). unfold is_settled. by rewrite Hsc. Qed.

(** A change of the scope that keeps the promise and the completion body
    as they are keeps the stage; one that keeps the video data and
    [downloadFilename] keeps the correlation. *)
Lemma Staged_update (id : nat) (v : VideoData) (st : Stage) (w w1 : World)
    (sc : Scope) (f : Scope -> Scope) :
  Staged id v st w -> scopes w !! id = Some sc ->
  settled (f sc) = settled sc -> completion (f sc) = completion sc ->
  scopes w1 = <[id := f sc]> (scopes w) -> onProgress w1 = onProgress w ->
  Staged id v st w1.
Proof.
  intros (sc' & Hsc' & Hs & Hst) Hsc Hf1 Hf2 E1 E2.
  rewrite Hsc in Hsc'. injection Hsc' as <-.
  exists (f sc). rewrite E1, E2, Hf1, Hf2.
  split; [| done]. apply list_lookup_insert_eq. by eapply lookup_lt_Some.
Qed.

Lemma Correlated_update (id : nat) (v : VideoData) (cap : option string)
    (w w1 : World) (sc : Scope) (f : Scope -> Scope) :
  Correlated id v cap w -> scopes w !! id = Some sc ->
  videoData (f sc) = videoData sc -> downloadFilename (f sc) = downloadFilename sc ->
  scopes w1 = <[id := f sc]> (scopes w) -> onBegin w1 = onBegin w ->
  Correlated id v cap w1.
Proof.
  intros (sc' & Hsc' & Hv & Hcap) Hsc Hf1 Hf2 E1 E2.
  rewrite Hsc in Hsc'. injection Hsc' as <-.
  exists (f sc). rewrite E1, E2, Hf1, Hf2.
  split; [| done]. apply list_lookup_insert_eq. by eapply lookup_lt_Some.
Qed.

Lemma Staged_same (id : nat) (v : VideoData) (st : Stage) (w w1 : World) :
  Staged id v st w -> scopes w1 = scopes w -> onProgress w1 = onProgress w ->
  Staged id v st w1.
Proof. intros (sc & H) E1 E2. exists sc. by rewrite E1, E2. Qed.

Lemma Correlated_same (id : nat) (v : VideoData) (cap : option string)
    (w w1 : World) :
  Correlated id v cap w -> scopes w1 = scopes w -> onBegin w1 = onBegin w ->
  Correlated id v cap w1.
Proof. intros (sc & H) E1 E2. exists sc. by rewrite E1, E2. Qed.

Lemma Correlated_name (id : nat) (v : VideoData) (cap : option string)
    (w : World) (sc : Scope) :
  Correlated id v cap w -> scopes w !! id = Some sc ->
  downloadFilename sc = default "" cap /\ videoData sc = v.
Proof.
  intros (sc' & Hsc' & Hv & Hcap) Hsc.
  rewrite Hsc in Hsc'. injection Hsc' as <-.
  by destruct cap; destruct Hcap.
Qed.

(** An input that adds nothing but quiet effects and is no match keeps the
    item in flight, in its stage. *)
Lemma InFlight_quiet (id : nat) (v : VideoData) (base : list Effect)
    (c : list Input) (tr : list Effect) (st : Stage) (w w1 : World)
    (i : Input) (q : list Effect) :
  InFlight id v base c tr st w ->
  crashed w1 = false -> trace w1 = trace w ++ q -> Quiet q ->
  Staged id v st w1 ->
  Correlated id v (first_begin (c ++ [i])) w1 ->
  count is_begin_removal q + begin_removals c = begin_removals (c ++ [i]) ->
  (st = Listening -> hits (first_begin c) i = false) ->
  Stepped id v base c tr st i w1.
Proof.
  intros [Ha Ht Hsh Hin Hco Hst Hb] Hc1 Ht1 Hq Hst1 Hco1 Hb1 Hhit.
  apply (stepped_on _ _ _ _ _ _ _ _ st (tr ++ q)). split; try done.
  - by rewrite Ht1, Ht, <- app_assoc.
  - by apply TraceShape_quiet.
  - by apply InputShape_snoc.
  - rewrite count_app. lia.
Qed.

(** An input that changes nothing at all. *)
Lemma InFlight_idle (id : nat) (v : VideoData) (base : list Effect)
    (c : list Input) (tr : list Effect) (st : Stage) (w : World) (i : Input) :
  InFlight id v base c tr st w ->
  is_begin i = false ->
  (st = Listening -> hits (first_begin c) i = false) ->
  Stepped id v base c tr st i w.
Proof.
  intros Hin Hi Hhit. pose proof Hin as [Ha Ht Hsh Hinp Hco Hst Hb].
  apply (InFlight_quiet id v base c tr st w w i []);
    rewrite ?app_nil_r, ?first_begin_snoc, ?begin_removals_snoc by done;
    first [ done | by constructor ].
Qed.

Lemma Staged_listeners (id : nat) (v : VideoData) (st : Stage) (w : World) :
  Staged id v st w ->
  onProgress w = match st with Listening => [id] | _ => [] end.
Proof. intros (sc & _ & _ & H). by destruct st; destruct H. Qed.

Lemma step_begin (id : nat) (v : VideoData) (base : list Effect)
    (c : list Input) (tr : list Effect) (st : Stage) (guid : string) (w : World) :
  InFlight id v base c tr st w ->
  Stepped id v base c tr st (DownloadWillBegin guid)
    (step id (DownloadWillBegin guid) w).
Proof.
  intros Hin. pose proof Hin as [Ha Ht Hsh Hinp Hco Hst Hb].
  pose proof Hco as (sc & Hsc & Hv & Hcap).
  simpl. unfold emit_downloadWillBegin.
  destruct (first_begin c) as [cg |] eqn:Hfb; destruct Hcap as [Hbeg Hd].
  - (* a name is captured already: no listener is left *)
    rewrite Hbeg. simpl.
    apply (InFlight_quiet id v base c tr st w w _ []);
      unfold begin_removals;
      rewrite ?app_nil_r, ?first_begin_app, ?Hfb; first [ done | by constructor ].
  - rewrite Hbeg. simpl. unfold onDownloadWillBegin.
    set (w1 := removeAllListeners DownloadWillBeginEv w).
    assert (Hsc1 : scopes w1 !! id = Some sc) by done.
    destruct (update_scope_lookup id (set_downloadFilename guid) w1 sc Hsc1)
      as [E Hl].
    unfold read_downloadFilename. rewrite Hl, E. simpl.
    apply (InFlight_quiet id v base c tr st w _ _
             [ERemoveAll DownloadWillBeginEv; ELog ("Download started: " +:+ guid)]);
      unfold begin_removals; rewrite ?first_begin_app, ?Hfb; try done.
    + simpl. by rewrite <- app_assoc.
    + by repeat constructor.
    + by apply (Staged_update id v st w _ sc (set_downloadFilename guid)).
    + exists (set_downloadFilename guid sc). simpl.
      split; [| done]. apply list_lookup_insert_eq. by eapply lookup_lt_Some.
Qed.

Lemma step_progress (id : nat) (v : VideoData) (base : list Effect)
    (c : list Input) (tr : list Effect) (st : Stage) (guid state : string)
    (w : World) :
  InFlight id v base c tr st w ->
  Stepped id v base c tr st (DownloadProgress guid state)
    (step id (DownloadProgress guid state) w).
Proof.
  intros Hin. pose proof Hin as [Ha Ht Hsh Hinp Hco Hst Hb].
  simpl. unfold emit_downloadProgress.
  rewrite (Staged_listeners _ _ _ _ Hst).
  destruct st as [| g | g]; [| by apply InFlight_idle ..].
  destruct Hst as (sc & Hsc & Hs & Hp & Hcomp).
  destruct (Correlated_name id v _ w sc Hco Hsc) as [Hname Hv].
  simpl. unfold onDownloadProgress. rewrite Hsc, Hname, Hv.
  destruct (String.eqb guid (default "" (first_begin c))
            && String.eqb state "completed") eqn:Ehit.
  2: { by apply InFlight_idle. }
  apply andb_true_iff in Ehit as [Hg%String.eqb_eq Hstate%String.eqb_eq].
  subst guid state.
  set (w1 := log _ (removeAllListeners DownloadProgressEv w)).
  set (pc := AwaitingRename _ _ _).
  assert (Hsc1 : scopes w1 !! id = Some sc) by done.
  destruct (update_scope_lookup id (set_completion pc) w1 sc Hsc1) as [E Hl].
  rewrite E in Hl |- *.
  apply (stepped_on _ _ _ _ _ _ _ _ (Renaming (default "" (first_begin c)))
           (tr ++ started (default "" (first_begin c)))).
  split.
  - done.
  - simpl. by rewrite Ht, <- !app_assoc.
  - exists tr, []. rewrite app_nil_r. repeat split; [done | by constructor].
  - by exists c, [].
  - rewrite first_begin_snoc by done.
    apply (Correlated_update id v _ w1 _ sc (set_completion pc));
      first [ done | by apply (Correlated_same id v _ w) ].
  - eexists. split; [exact Hl |]. done.
  - rewrite count_app, begin_removals_snoc by done. simpl. lia.
Qed.

Lemma step_driver (id : nat) (v : VideoData) (base : list Effect)
    (c : list Input) (tr : list Effect) (st : Stage) (ok : bool) (w : World) :
  InFlight id v base c tr st w ->
  Stepped id v base c tr st (DriverSettles ok) (step id (DriverSettles ok) w).
Proof.
  intros Hin. pose proof Hin as [Ha Ht Hsh Hinp Hco Hst Hb].
  pose proof Hco as (sc & Hsc & _).
  simpl. unfold driver_settles. rewrite Hsc.
  destruct (driver sc) as [| g |]; [by apply InFlight_idle | | by apply InFlight_idle].
  assert (Hupd : forall pc w1,
    scopes w1 = <[id := set_driver pc sc]> (scopes w) ->
    onBegin w1 = onBegin w -> onProgress w1 = onProgress w ->
    Staged id v st w1 /\ Correlated id v (first_begin (c ++ [DriverSettles ok])) w1).
  { intros pc w1 E1 E2 E3. split.
    - by apply (Staged_update id v st w w1 sc (set_driver pc)).
    - rewrite first_begin_snoc by done.
      by apply (Correlated_update id v _ w w1 sc (set_driver pc)). }
  destruct ok.
  - destruct (next_gesture g) as [g' |].
    + destruct (update_scope_lookup id (set_driver (Awaiting g')) w sc Hsc) as [E _].
      rewrite E.
      destruct (Hupd (Awaiting g')
                  (emit_effect (EGesture g')
                     (set_scopes (<[id := set_driver (Awaiting g') sc]> (scopes w)) w)))
        as [Hst1 Hco1]; [done .. |].
      apply (InFlight_quiet id v base c tr st w _ _ [EGesture g']);
        rewrite ?begin_removals_snoc by done; first [ done | by repeat constructor ].
    + destruct (update_scope_lookup id (set_driver DriverDone) w sc Hsc) as [E _].
      rewrite E.
      destruct (Hupd DriverDone
                  (set_scopes (<[id := set_driver DriverDone sc]> (scopes w)) w))
        as [Hst1 Hco1]; [done .. |].
      apply (InFlight_quiet id v base c tr st w _ _ []);
        rewrite ?begin_removals_snoc, ?app_nil_r by done;
        first [ done | by constructor ].
  - destruct (update_scope_lookup id (set_driver DriverDone) w sc Hsc) as [E _].
    rewrite E.
    destruct (Hupd DriverDone
                (unhandledRejection DRIVER_FAILED
                   (set_scopes (<[id := set_driver DriverDone sc]> (scopes w)) w)))
      as [Hst1 Hco1]; [done .. |].
    apply (stepped_off _ _ _ _ _ _ _ _ Crashed [EUnhandled DRIVER_FAILED]).
    + done.
    + simpl. by rewrite Ht, <- app_assoc.
    + by apply InputShape_snoc.
    + done.
    + by rewrite begin_removals_snoc.
    + apply ending_crashed; [done |]. apply (Staged_listeners id v st _ Hst1).
Qed.

Lemma step_file (id : nat) (v : VideoData) (base : list Effect)
    (c : list Input) (tr : list Effect) (st : Stage) (name data : string)
    (w : World) :
  InFlight id v base c tr st w ->
  Stepped id v base c tr st (FileStored name data)
    (step id (FileStored name data) w).
Proof.
  intros Hin. pose proof Hin as [Ha Ht Hsh Hinp Hco Hst Hb].
  simpl. destruct (Fs.writeFile _ _ _) as [fs' | e]; [| by apply InFlight_idle].
  apply (InFlight_quiet id v base c tr st w _ _ []);
    rewrite ?begin_removals_snoc, ?first_begin_snoc, ?app_nil_r by done;
    first [ done | by constructor ].
Qed.

Lemma step_fs (id : nat) (v : VideoData) (base : list Effect)
    (c : list Input) (tr : list Effect) (st : Stage) (w : World) :
  InFlight id v base c tr st w ->
  Stepped id v base c tr st FsSettles (step id FsSettles w).
Proof.
  intros Hin. pose proof Hin as [Ha Ht Hsh Hinp Hco Hst Hb].
  pose proof Hst as (sc & Hsc & Hs & Hstage).
  destruct (Correlated_name id v _ w sc Hco Hsc) as [_ Hv].
  assert (Hshape1 : InputShape st (c ++ [FsSettles])) by (by apply InputShape_snoc).
  assert (Hupd : forall pc w0 w1,
    scopes w0 = scopes w -> onBegin w0 = onBegin w ->
    scopes w1 = <[id := set_completion pc sc]> (scopes w0) ->
    onBegin w1 = onBegin w0 ->
    Correlated id v (first_begin (c ++ [FsSettles])) w1).
  { intros pc w0 w1 E1 E2 E3 E4. rewrite first_begin_snoc by done.
    apply (Correlated_update id v _ w0 w1 sc (set_completion pc)); try done.
    - by apply (Correlated_same id v _ w).
    - by rewrite E1. }
  simpl. unfold fs_settles. rewrite Hsc.
  destruct st as [| g | g]; destruct Hstage as [Hp Hcomp]; rewrite Hcomp.
  - by apply InFlight_idle.
  - (* the rename is carried out *)
    destruct (Fs.rename (fs w) _ _) as [fs1 | e] eqn:Hren.
    + set (w0 := log _ (emit_effect _ (set_fs fs1 w))).
      assert (Hsc0 : scopes w0 !! id = Some sc) by done.
      destruct (update_scope_lookup id
                  (set_completion (AwaitingAppend (canonicalName v))) w0 sc Hsc0)
        as [E Hl].
      rewrite E in Hl |- *.
      apply (stepped_on _ _ _ _ _ _ _ _ (Appending g) (tr ++ renamed v g)).
      split.
      * done.
      * simpl. by rewrite Ht, <- !app_assoc.
      * destruct Hsh as (q1 & q2 & -> & H1 & H2).
        exists q1, q2, []. rewrite app_nil_r, <- !app_assoc.
        repeat split; [done | done | by constructor].
      * done.
      * by apply (Hupd (AwaitingAppend (canonicalName v)) w0).
      * eexists. split; [exact Hl |]. done.
      * rewrite count_app, begin_removals_snoc by done. simpl. lia.
    + destruct (update_scope_lookup id (set_completion CompletionDone) w sc Hsc)
        as [E _].
      rewrite E.
      apply (stepped_off _ _ _ _ _ _ _ _ Crashed [EUnhandled e]).
      * done.
      * simpl. by rewrite Ht, <- app_assoc.
      * done.
      * by apply (Hupd CompletionDone w).
      * by rewrite begin_removals_snoc.
      * by apply ending_crashed.
  - (* the append is carried out *)
    rewrite Hv.
    destruct (addVideoDataToCSV (fs w) _) as [fs2 | e] eqn:Happ.
    + set (w0 := emit_effect _ (set_fs fs2 w)).
      assert (Hsc0 : scopes w0 !! id = Some sc) by done.
      destruct (update_scope_lookup id (set_completion CompletionDone) w0 sc Hsc0)
        as [E Hl].
      rewrite E in Hl |- *.
      destruct (update_scope_lookup id set_settled _ _ Hl) as [E2 Hl2].
      unfold resolve. rewrite E2 in Hl2 |- *.
      apply (stepped_off _ _ _ _ _ _ _ _ Resolved (appended id v)).
      * done.
      * simpl. by rewrite Ht, <- !app_assoc.
      * done.
      * rewrite first_begin_snoc by done.
        destruct Hco as (sc' & Hsc' & Hv' & Hcap).
        rewrite Hsc in Hsc'. injection Hsc' as <-.
        exists (set_settled (set_completion CompletionDone sc)).
        split; [exact Hl2 | done].
      * by rewrite begin_removals_snoc.
      * unfold addVideoDataToCSV, Fs.appendFile in Happ.
        destruct (bool_decide _); [done |]. injection Happ as <-.
        eapply (ending_resolved _ _ _ _ g); try done.
        -- unfold is_settled.
           change (scopes (emit_effect (EResolve id) ?x)) with (scopes x).
           by rewrite Hl2.
        -- unfold Fs.readFile, Fs.put. simpl. by rewrite lookup_insert_eq.
    + destruct (update_scope_lookup id (set_completion CompletionDone) w sc Hsc)
        as [E _].
      rewrite E.
      apply (stepped_off _ _ _ _ _ _ _ _ Crashed [EUnhandled e]).
      * done.
      * simpl. by rewrite Ht, <- app_assoc.
      * done.
      * by apply (Hupd CompletionDone w).
      * by rewrite begin_removals_snoc.
      * by apply ending_crashed.
Qed.

Lemma step_inflight (id : nat) (v : VideoData) (base : list Effect)
    (c : list Input) (tr : list Effect) (st : Stage) (i : Input) (w : World) :
  InFlight id v base c tr st w -> Stepped id v base c tr st i (step id i w).
Proof.
  destruct i.
  - apply step_begin.
  - apply step_progress.
  - apply step_driver.
  - apply step_fs.
  - apply step_file.
Qed.

(** ** An item in flight *)

Lemma snoc_app (c : list Input) (i : Input) (l : list Input) :
  c ++ i :: l = (c ++ [i]) ++ l.
Proof. by rewrite <- app_assoc. Qed.

Lemma await_promise_flight (id : nat) (v : VideoData) (base : list Effect)
    (inputs : list Input) :
  forall (c : list Input) (tr : list Effect) (st : Stage) (w w' : World)
         (o : Outcome) (rest : list Input),
    InFlight id v base c tr st w ->
    await_promise id w inputs = (w', o, rest) ->
    Flight id v base c inputs w' o rest.
Proof.
  induction inputs as [|i l IH]; intros c tr st w w' o rest Hin Hrun;
    pose proof Hin as [Ha Ht Hsh Hinp Hco Hst Hb];
    pose proof (Staged_pending _ _ _ _ Hst) as Hs.
  - rewrite await_promise_nil in Hrun by done. injection Hrun as <- <- <-.
    apply (flight _ _ _ _ _ _ _ _ [] st tr []);
      rewrite ?app_nil_r; try done.
    by apply ending_pending.
  - rewrite await_promise_step in Hrun by done.
    destruct (step_inflight id v base c tr st i w Hin)
      as [st' tr' Hin1 | o' tail Ho' Ht1 Hinp1 Hco1 Hb1 Hend].
    + destruct (IH _ _ _ _ _ _ _ Hin1 Hrun)
        as [c' st2 tr2 tail -> Ht2 Hsh2 Hinp2 Hco2 Hb2 Hend Hrest].
      apply (flight _ _ _ _ _ _ _ _ (i :: c') st2 tr2 tail);
        try rewrite (snoc_app c i c'); done.
    + assert (Hout : await_promise id (step id i w) l = (step id i w, o', l)).
      { destruct Hend as [Hc1 _ | e Hc1 _ | g old _ Hc1 Hs1 _ _].
        - done.
        - by apply await_promise_crashed.
        - by apply await_promise_settled. }
      rewrite Hout in Hrun. injection Hrun as <- <- <-.
      apply (flight _ _ _ _ _ _ _ _ [i] st tr tail); done.
Qed.

(** ** The three ways through [scrapeVideo] *)

Lemma lookup_new_scope (l : list Scope) (sc : Scope) :
  (l ++ [sc]) !! length l = Some sc.
Proof. by apply list_lookup_middle. Qed.

Lemma scrapeVideo_skip (w : World) (h : ElementHandle) (inputs : list Input)
    (v : VideoData) :
  crashed w = false ->
  extractVideoDataFromElementHandle h = Ok v ->
  isVideoDataInCSV (fs w) (uuid v) = true ->
  exists w',
    scrapeVideo w h inputs = (w', Resolved, inputs) /\
    trace w' = trace w ++
      [ ELogData "Extracted video data:" v;
        ELog ("Video already downloaded: " +:+ describe v);
        EResolve (length (scopes w)) ] /\
    fs w' = fs w /\ onBegin w' = onBegin w /\ onProgress w' = onProgress w.
Proof.
  intros Hc Hext Hcsv. unfold scrapeVideo. rewrite Hext. simpl.
  rewrite Hcsv. unfold resolve, update_scope. simpl.
  rewrite lookup_new_scope.
  eexists. split.
  - apply await_promise_settled; [done |].
    unfold is_settled. simpl.
    rewrite list_lookup_insert_eq; [done |]. rewrite length_app. simpl. lia.
  - simpl. by rewrite <- !app_assoc.
Qed.

Lemma scrapeVideo_private (w : World) (h : ElementHandle) (inputs : list Input)
    (v : VideoData) :
  crashed w = false ->
  extractVideoDataFromElementHandle h = Ok v ->
  isVideoDataInCSV (fs w) (uuid v) = false ->
  isPrivate v = true ->
  exists w',
    onBegin w' = onBegin w /\ onProgress w' = onProgress w /\
    match addVideoDataToCSV (fs w) (with_filename v PRIVATE_FILENAME) with
    | Ok fs' =>
        scrapeVideo w h inputs = (w', Resolved, inputs) /\
        fs w' = fs' /\
        trace w' = trace w ++
          [ ELogData "Extracted video data:" v;
            ELog ("Video is private, skipping: " +:+ describe v);
            EAppend csvFilename (csvLine (with_filename v PRIVATE_FILENAME));
            EResolve (length (scopes w)) ]
    | Throw e =>
        scrapeVideo w h inputs = (w', Crashed, inputs) /\
        fs w' = fs w /\
        trace w' = trace w ++
          [ ELogData "Extracted video data:" v;
            ELog ("Video is private, skipping: " +:+ describe v);
            EUnhandled e ]
    end.
Proof.
  intros Hc Hext Hcsv Hpriv. unfold scrapeVideo. rewrite Hext. simpl.
  rewrite Hcsv, Hpriv.
  destruct (addVideoDataToCSV (fs w) _) as [fs' | e].
  - unfold resolve, update_scope. simpl. rewrite lookup_new_scope.
    eexists. split; [| split; [| split; [| split]]]; cycle 2.
    + apply await_promise_settled; [done |].
      unfold is_settled. simpl.
      rewrite list_lookup_insert_eq; [done |]. rewrite length_app. simpl. lia.
    + done.
    + simpl. by rewrite <- !app_assoc.
    + done.
    + done.
  - eexists. split; [| split; [| split; [| split]]]; cycle 2.
    + by apply await_promise_crashed.
    + done.
    + simpl. by rewrite <- !app_assoc.
    + done.
    + done.
Qed.

Lemma scrapeVideo_arms (w : World) (h : ElementHandle) (inputs : list Input)
    (v : VideoData) :
  crashed w = false -> onBegin w = [] -> onProgress w = [] ->
  extractVideoDataFromElementHandle h = Ok v ->
  isVideoDataInCSV (fs w) (uuid v) = false ->
  isPrivate v = false ->
  exists wa,
    scrapeVideo w h inputs = await_promise (length (scopes w)) wa inputs /\
    fs wa = fs w /\
    InFlight (length (scopes w)) v (trace w ++ arming (length (scopes w)) v)
      [] [] Listening wa.
Proof.
  intros Hc Hb Hp Hext Hcsv Hpriv. unfold scrapeVideo. rewrite Hext. simpl.
  rewrite Hcsv, Hpriv. unfold update_scope. simpl. rewrite lookup_new_scope.
  assert (Hl : forall sc sc', <[length (scopes w) := sc']> (scopes w ++ [sc])
                              !! length (scopes w) = Some sc').
  { intros. apply list_lookup_insert_eq. rewrite length_app. simpl. lia. }
  eexists. split; [done |]. split; [done |]. split.
  - done.
  - simpl. by rewrite app_nil_r, <- !app_assoc.
  - by constructor.
  - done.
  - eexists. simpl. rewrite Hl. by rewrite Hb.
  - eexists. simpl. rewrite Hl. by rewrite Hp.
  - done.
Qed.

(** An item that is to be downloaded: [scrapeVideo] arms the correlator,
    starts the driver, and is then in flight. *)
Lemma scrapeVideo_flight (w : World) (h : ElementHandle) (inputs : list Input)
    (v : VideoData) (w' : World) (o : Outcome) (rest : list Input) :
  crashed w = false -> onBegin w = [] -> onProgress w = [] ->
  extractVideoDataFromElementHandle h = Ok v ->
  isVideoDataInCSV (fs w) (uuid v) = false ->
  isPrivate v = false ->
  scrapeVideo w h inputs = (w', o, rest) ->
  Flight (length (scopes w)) v (trace w ++ arming (length (scopes w)) v)
    [] inputs w' o rest.
Proof.
  intros Hc Hb Hp Hext Hcsv Hpriv Hrun.
  destruct (scrapeVideo_arms w h inputs v Hc Hb Hp Hext Hcsv Hpriv)
    as (wa & Hrun' & _ & Hin).
  eapply await_promise_flight; [exact Hin |]. by rewrite <- Hrun'.
Qed.

(** ** Resume safety and private items *)

(** C3: an item whose identifier the ledger check finds is skipped.
    [scrapeVideo] resolves at once, without consuming an input; all it does
    is write two log lines and resolve: no gesture, no listener registered,
    nothing appended, the files and the listeners as they were. *)
Theorem scrapeVideo_skips_ledgered (w : World) (h : ElementHandle)
    (inputs : list Input) (v : VideoData) :
  crashed w = false ->
  extractVideoDataFromElementHandle h = Ok v ->
  isVideoDataInCSV (fs w) (uuid v) = true ->
  exists w',
    scrapeVideo w h inputs = (w', Resolved, inputs) /\
    added w w' =
      [ ELogData "Extracted video data:" v;
        ELog ("Video already downloaded: " +:+ describe v);
        EResolve (length (scopes w)) ] /\
    count is_gesture (added w w') = 0 /\
    count is_registration (added w w') = 0 /\
    count is_append (added w w') = 0 /\
    fs w' = fs w /\ onBegin w' = onBegin w /\ onProgress w' = onProgress w.
Proof.
  intros Hc Hext Hcsv.
  destruct (scrapeVideo_skip w h inputs v Hc Hext Hcsv)
    as (w' & Hrun & Htr & Hfs & Hb & Hp).
  exists w'. rewrite (added_app _ _ _ Htr). done.
Qed.

(** C5: an item flagged private, not yet in the ledger, never reaches the
    interaction driver or the correlator: whatever comes of the run, no
    gesture is made, no listener is registered and no input is consumed.
    And when the ledger accepts the write, the run appends the record whose
    filename field is the sentinel and resolves at once. *)
Theorem scrapeVideo_private_is_ledgered (w : World) (h : ElementHandle)
    (inputs : list Input) (v : VideoData) :
  crashed w = false ->
  extractVideoDataFromElementHandle h = Ok v ->
  isVideoDataInCSV (fs w) (uuid v) = false ->
  isPrivate v = true ->
  (forall w' o rest,
      scrapeVideo w h inputs = (w', o, rest) ->
      count is_gesture (added w w') = 0 /\
      count is_registration (added w w') = 0 /\
      onBegin w' = onBegin w /\ onProgress w' = onProgress w /\ rest = inputs)
  /\ (csvFilename ∉ Fs.denied (fs w) ->
       exists w',
         scrapeVideo w h inputs = (w', Resolved, inputs) /\
         added w w' =
           [ ELogData "Extracted video data:" v;
             ELog ("Video is private, skipping: " +:+ describe v);
             EAppend csvFilename
               (url v +:+ "," +:+ uuid v +:+ "," +:+ title v +:+ "," +:+ date v
                +:+ "," +:+ duration v +:+ ","
                +:+ "PRIVATE - video not downloadable" +:+ JS.LF);
             EResolve (length (scopes w)) ] /\
         Fs.readFile (fs w') csvFilename =
           Ok (default "" (Fs.files (fs w) !! csvFilename)
               +:+ csvLine (with_filename v PRIVATE_FILENAME))).
Proof.
  intros Hc Hext Hcsv Hpriv.
  destruct (scrapeVideo_private w h inputs v Hc Hext Hcsv Hpriv)
    as (w1 & Hb & Hp & Hcase).
  split.
  - intros w' o rest Hrun.
    destruct (addVideoDataToCSV (fs w) _) as [fs' | e];
      destruct Hcase as (Hrun1 & _ & Htr);
      rewrite Hrun1 in Hrun; injection Hrun as <- <- <-;
      rewrite (added_app _ _ _ Htr); done.
  - intros Hw. exists w1.
    unfold addVideoDataToCSV, Fs.appendFile in Hcase.
    rewrite bool_decide_eq_false_2 in Hcase by done.
    destruct Hcase as (Hrun1 & Hfs & Htr).
    rewrite (added_app _ _ _ Htr), Hfs.
    split; [done |]. split; [done |].
    unfold Fs.readFile, Fs.put. simpl. by rewrite lookup_insert_eq.
Qed.

(** A ledger that refuses the write: the private item is not ledgered, the
    rejection is handled by nobody, the promise stays pending for good, and
    the loop over the grid items ends there, whatever items follow. *)
Lemma scrapeAll_append_refused (w : World) (h : ElementHandle)
    (items : list ElementHandle) (inputs : list Input) (v : VideoData)
    (i totalVideos : nat) :
  crashed w = false ->
  extractVideoDataFromElementHandle h = Ok v ->
  isVideoDataInCSV (fs w) (uuid v) = false ->
  isPrivate v = true ->
  csvFilename ∈ Fs.denied (fs w) ->
  exists w',
    scrapeAll w i totalVideos (h :: items) inputs = (w', Crashed) /\
    fs w' = fs w /\
    is_settled (length (scopes w)) w' = false /\
    added w w' =
      [ ELog ("Scraping video " +:+ decimal (i + 1) +:+ " of "
              +:+ decimal totalVideos +:+ "...");
        ELogData "Extracted video data:" v;
        ELog ("Video is private, skipping: " +:+ describe v);
        EUnhandled "EACCES" ].
Proof.
  intros Hc Hext Hcsv Hpriv Hdenied.
  set (w0 := log ("Scraping video " +:+ decimal (i + 1) +:+ " of "
                  +:+ decimal totalVideos +:+ "...") w).
  destruct (scrapeVideo_private w0 h inputs v Hc Hext Hcsv Hpriv)
    as (w' & _ & _ & Hcase).
  unfold addVideoDataToCSV, Fs.appendFile in Hcase.
  change (fs w0) with (fs w) in Hcase.
  rewrite bool_decide_eq_true_2 in Hcase by done.
  destruct Hcase as (Hrun & Hfs & Htr).
  exists w'. cbn [scrapeAll]. fold w0. rewrite Hrun.
  split; [done |]. split; [done |]. split.
  - unfold scrapeVideo in Hrun. rewrite Hext in Hrun. simpl in Hrun.
    rewrite Hcsv, Hpriv in Hrun.
    unfold addVideoDataToCSV, Fs.appendFile in Hrun. simpl in Hrun.
    rewrite bool_decide_eq_true_2 in Hrun by done.
    rewrite await_promise_crashed in Hrun by done.
    injection Hrun as <-. unfold is_settled. simpl.
    by rewrite lookup_new_scope.
  - apply added_app. rewrite Htr. simpl. by rewrite <- app_assoc.
Qed.

(** ** The ledger is appended to once, when the outcome is known *)

Lemma quiet_not_append (e : Effect) : is_quiet e = true -> is_append e = false.
Proof. by destruct e. Qed.

Lemma quiet_not_resolve (e : Effect) : is_quiet e = true -> is_resolve e = false.
Proof. by destruct e. Qed.

Lemma quiet_not_rename (e : Effect) : is_quiet e = true -> is_rename e = false.
Proof. by destruct e. Qed.

Lemma quiet_not_progress_removal (e : Effect) :
  is_quiet e = true -> is_progress_removal e = false.
Proof. by destruct e as [| | | [] | | | | |]. Qed.

Lemma quiet_not_action (e : Effect) : is_quiet e = true -> is_action e = false.
Proof. by destruct e as [| | | [] | | | | |]. Qed.

Lemma TraceShape_counts (v : VideoData) (st : Stage) (tr : list Effect) :
  TraceShape v st tr ->
  count is_append tr = 0 /\ count is_resolve tr = 0 /\
  count is_progress_removal tr = match st with Listening => 0 | _ => 1 end /\
  count is_rename tr = match st with Appending _ => 1 | _ => 0 end /\
  (st = Listening -> count is_action tr = 0).
Proof.
  destruct st as [| g | g]; cbn [TraceShape].
  - intros Hq. unfold Quiet in Hq.
    rewrite (count_quiet _ _ quiet_not_append Hq),
      (count_quiet _ _ quiet_not_resolve Hq),
      (count_quiet _ _ quiet_not_progress_removal Hq),
      (count_quiet _ _ quiet_not_rename Hq),
      (count_quiet _ _ quiet_not_action Hq). done.
  - intros (q1 & q2 & -> & H1 & H2). unfold Quiet in H1, H2.
    rewrite !count_app,
      !(count_quiet _ _ quiet_not_append H1), !(count_quiet _ _ quiet_not_append H2),
      !(count_quiet _ _ quiet_not_resolve H1), !(count_quiet _ _ quiet_not_resolve H2),
      !(count_quiet _ _ quiet_not_progress_removal H1),
      !(count_quiet _ _ quiet_not_progress_removal H2),
      !(count_quiet _ _ quiet_not_rename H1), !(count_quiet _ _ quiet_not_rename H2).
    done.
  - intros (q1 & q2 & q3 & -> & H1 & H2 & H3). unfold Quiet in H1, H2, H3.
    rewrite !count_app,
      !(count_quiet _ _ quiet_not_append H1), !(count_quiet _ _ quiet_not_append H2),
      !(count_quiet _ _ quiet_not_append H3),
      !(count_quiet _ _ quiet_not_resolve H1), !(count_quiet _ _ quiet_not_resolve H2),
      !(count_quiet _ _ quiet_not_resolve H3),
      !(count_quiet _ _ quiet_not_progress_removal H1),
      !(count_quiet _ _ quiet_not_progress_removal H2),
      !(count_quiet _ _ quiet_not_progress_removal H3),
      !(count_quiet _ _ quiet_not_rename H1), !(count_quiet _ _ quiet_not_rename H2),
      !(count_quiet _ _ quiet_not_rename H3).
    done.
Qed.

(** The only rename in the trace of an item in flight is the one of the
    provisional name that matched, to the canonical name. *)
Lemma TraceShape_renames (v : VideoData) (st : Stage) (tr : list Effect)
    (src dst : string) :
  TraceShape v st tr -> ERename src dst ∈ tr ->
  exists guid, st = Appending guid /\
    src = path_join downloadDir guid /\
    dst = path_join downloadDir (canonicalName v).
Proof.
  assert (Hq : forall q, Quiet q -> ERename src dst ∈ q -> False).
  { intros q Hq Hin. unfold Quiet in Hq. rewrite Forall_forall in Hq.
    by specialize (Hq _ Hin). }
  destruct st as [| g | g]; cbn [TraceShape].
  - intros H Hin. destruct (Hq _ H Hin).
  - intros (q1 & q2 & -> & H1 & H2) Hin.
    rewrite !elem_of_app in Hin. destruct Hin as [Hin | [Hin | Hin]].
    + destruct (Hq _ H1 Hin).
    + unfold started in Hin. rewrite !elem_of_cons in Hin.
      destruct Hin as [[=] | [[=] | Hin]]. by apply elem_of_nil in Hin.
    + destruct (Hq _ H2 Hin).
  - intros (q1 & q2 & q3 & -> & H1 & H2 & H3) Hin.
    rewrite !elem_of_app in Hin. destruct Hin as [Hin | [Hin | [Hin | [Hin | Hin]]]].
    + destruct (Hq _ H1 Hin).
    + unfold started in Hin. rewrite !elem_of_cons in Hin.
      destruct Hin as [[=] | [[=] | Hin]]. by apply elem_of_nil in Hin.
    + destruct (Hq _ H2 Hin).
    + unfold renamed in Hin. rewrite !elem_of_cons in Hin.
      destruct Hin as [[= -> ->] | [[=] | Hin]]; [by exists g |].
      by apply elem_of_nil in Hin.
    + destruct (Hq _ H3 Hin).
Qed.


(** ** Correlation *)

Lemma Correlated_read (id : nat) (v : VideoData) (cap : option string) (w : World) :
  Correlated id v cap w ->
  read_downloadFilename id w = default "" cap /\
  onBegin w = match cap with Some _ => [] | None => [id] end.
Proof.
  intros (sc & Hsc & _ & Hcap). unfold read_downloadFilename. rewrite Hsc.
  by destruct cap; destruct Hcap.
Qed.

Lemma arming_counts (id : nat) (v : VideoData) :
  count is_action (arming id v) = 0 /\
  count is_begin_removal (arming id v) = 0 /\
  count is_progress_removal (arming id v) = 0 /\
  count is_rename (arming id v) = 0 /\
  count is_append (arming id v) = 0.
Proof. done. Qed.

Lemma arming_no_rename (id : nat) (v : VideoData) (src dst : string) :
  ERename src dst ∈ arming id v -> False.
Proof.
  unfold arming. rewrite !elem_of_cons.
  intros [[=] | [[=] | [[=] | [[=] | [[=] | [[=] | H]]]]]].
  by apply elem_of_nil in H.
Qed.

(** What the last effects of a run count for. *)
Lemma Ending_counts (id : nat) (v : VideoData) (st : Stage) (w' : World)
    (o : Outcome) (tail : list Effect) :
  Ending id v st w' o tail ->
  count is_begin_removal tail = 0 /\
  count is_progress_removal tail = 0 /\
  count is_rename tail = 0 /\
  count is_append tail = match o with Resolved => 1 | _ => 0 end /\
  (o = Resolved -> exists guid, st = Appending guid) /\
  (o <> Resolved -> count is_action tail = 0) /\
  onProgress w' = match st with Listening => [id] | _ => [] end /\
  (forall src dst, ERename src dst ∈ tail -> False).
Proof.
  intros [Hc Hst | e Hc Hp | guid old -> Hc Hs Hp Hread].
  - repeat split; try done.
    + by apply (Staged_listeners id v).
    + intros src dst H. by apply elem_of_nil in H.
  - repeat split; try done.
    intros src dst. rewrite elem_of_cons. intros [[=] | H]. by apply elem_of_nil in H.
  - repeat split; try done.
    + intros _. by exists guid.
    + intros src dst. unfold appended. rewrite !elem_of_cons.
      intros [[=] | [[=] | H]]. by apply elem_of_nil in H.
Qed.

(** C6: while an item is in flight, the begin listener runs once, on the
    first download-started notification: it is deregistered there, and
    [downloadFilename] holds that notification's identifier from then on.
    The completion branch runs at most once, and only in answer to a
    progress notification that reports the state completed for the
    identifier that [downloadFilename] holds at that moment: as long as no
    such notification has arrived nothing of it happens, and once it runs
    the file renamed is the one of that identifier and the append follows
    the rename.  An identifier that is not empty can only match after it
    has been captured. *)
Theorem download_correlation_exclusive (w : World) (h : ElementHandle)
    (inputs : list Input) (v : VideoData) (w' : World) (o : Outcome)
    (rest : list Input) :
  crashed w = false -> onBegin w = [] -> onProgress w = [] ->
  extractVideoDataFromElementHandle h = Ok v ->
  isVideoDataInCSV (fs w) (uuid v) = false ->
  isPrivate v = false ->
  scrapeVideo w h inputs = (w', o, rest) ->
  exists consumed,
    inputs = consumed ++ rest /\
    read_downloadFilename (length (scopes w)) w' = default "" (first_begin consumed) /\
    count is_begin_removal (added w w') =
      match first_begin consumed with Some _ => 1 | None => 0 end /\
    onBegin w' =
      match first_begin consumed with Some _ => [] | None => [length (scopes w)] end /\
    ((never_hit None consumed /\
      count is_action (added w w') = 0 /\
      onProgress w' = [length (scopes w)] /\ o <> Resolved)
     \/
     (exists pre guid post,
        consumed = pre ++ DownloadProgress guid "completed" :: post /\
        never_hit None pre /\
        guid = default "" (first_begin pre) /\
        (guid <> "" -> first_begin pre = Some guid) /\
        count is_progress_removal (added w w') = 1 /\
        count is_rename (added w w') <= 1 /\
        count is_append (added w w') <= count is_rename (added w w') /\
        (forall src dst,
            ERename src dst ∈ added w w' ->
            src = path_join downloadDir guid /\
            dst = path_join downloadDir (canonicalName v)) /\
        onProgress w' = [])).
Proof.
  intros Hc Hb Hp Hext Hcsv Hpriv Hrun.
  destruct (scrapeVideo_flight w h inputs v w' o rest Hc Hb Hp Hext Hcsv Hpriv Hrun)
    as [c st tr tail -> Htr Hsh Hinp Hco Hbeg Hend Hrest].
  simpl in Hinp, Hco, Hbeg.
  assert (Hadd : added w w' = arming (length (scopes w)) v ++ tr ++ tail)
    by (apply added_app; by rewrite Htr, <- !app_assoc).
  destruct (arming_counts (length (scopes w)) v) as (Ha1 & Ha2 & Ha3 & Ha4 & Ha5).
  destruct (TraceShape_counts v st tr Hsh) as (Ht1 & _ & Ht3 & Ht4 & Ht5).
  destruct (Ending_counts _ _ _ _ _ _ Hend)
    as (He1 & He2 & He3 & He4 & He5 & He6 & He7 & He8).
  destruct (Correlated_read _ _ _ _ Hco) as [Hread Hbegin].
  exists c. rewrite Hadd, !count_app, Ha1, Ha2, Ha3, Ha4, Ha5, Hbeg, He1, He2, He3.
  split; [done |]. split; [done |].
  split; [unfold begin_removals; destruct (first_begin c); simpl; lia |].
  split; [done |].
  destruct st as [| g | g].
  - left. split; [done |].
    assert (Ho : o <> Resolved) by (intros Ho; by destruct (He5 Ho)).
    rewrite (Ht5 eq_refl), (He6 Ho). done.
  - right. destruct Hinp as (pre & post & -> & Hpre & Hg). exists pre, g, post.
    assert (Ho : o <> Resolved) by (intros Ho; by destruct (He5 Ho)).
    rewrite Ht1, Ht3, Ht4, He4.
    repeat split; try done; simpl; try (destruct o; done || lia).
    + intros Hne. destruct (first_begin pre); simpl in Hg; congruence.
    + rewrite !elem_of_app in H. destruct H as [H | [H | H]].
      * destruct (arming_no_rename _ _ _ _ H).
      * by destruct (TraceShape_renames v _ tr src dst Hsh H) as (g' & [=] & _).
      * destruct (He8 _ _ H).
    + rewrite !elem_of_app in H. destruct H as [H | [H | H]].
      * destruct (arming_no_rename _ _ _ _ H).
      * by destruct (TraceShape_renames v _ tr src dst Hsh H) as (g' & [=] & _).
      * destruct (He8 _ _ H).
  - right. destruct Hinp as (pre & post & -> & Hpre & Hg). exists pre, g, post.
    rewrite Ht1, Ht3, Ht4, He4.
    repeat split; try done; simpl; try (destruct o; lia).
    + intros Hne. destruct (first_begin pre); simpl in Hg; congruence.
    + rewrite !elem_of_app in H. destruct H as [H | [H | H]].
      * destruct (arming_no_rename _ _ _ _ H).
      * by destruct (TraceShape_renames v _ tr src dst Hsh H) as (g' & [= ->] & -> & _).
      * destruct (He8 _ _ H).
    + rewrite !elem_of_app in H. destruct H as [H | [H | H]].
      * destruct (arming_no_rename _ _ _ _ H).
      * by destruct (TraceShape_renames v _ tr src dst Hsh H) as (g' & [= ->] & _ & ->).
      * destruct (He8 _ _ H).
Qed.

(** A match for an identifier that is not empty comes after that
    identifier was captured. *)
Lemma InputShape_named (st : Stage) (c rest : list Input) :
  Forall named (c ++ rest) -> InputShape st c ->
  st = Listening \/
  exists pre guid post,
    c = pre ++ DownloadProgress guid "completed" :: post /\
    first_begin pre = Some guid /\
    (st = Renaming guid \/ st = Appending guid).
Proof.
  intros Hnamed Hinp.
  assert (H : forall guid,
    (exists pre post, c = pre ++ DownloadProgress guid "completed" :: post /\
                      never_hit None pre /\ guid = default "" (first_begin pre)) ->
    exists pre post, c = pre ++ DownloadProgress guid "completed" :: post /\
                     first_begin pre = Some guid).
  { intros guid (pre & post & -> & _ & Hg). exists pre, post. split; [done |].
    apply Forall_app in Hnamed as [Hnamed _].
    apply Forall_app in Hnamed as [_ Hnamed].
    apply Forall_cons in Hnamed as [Hguid _]. simpl in Hguid.
    destruct (first_begin pre); simpl in Hg; congruence. }
  destruct st as [| g | g]; [by left | right ..];
    destruct (H g Hinp) as (pre & post & -> & Hfb);
    exists pre, g, post; auto.
Qed.

(** C10: for an item that is downloaded, when the identifiers that the
    notifications carry are not empty, the completion branch runs only in
    answer to a progress notification that comes after a download-started
    notification and carries the identifier of the first one.  So as long
    as no download-started notification has been received, no progress
    notification triggers it: nothing is renamed or appended, the promise
    stays unresolved, [downloadFilename] is still empty and the progress
    listener is still registered. *)
Theorem no_completion_before_begin (w : World) (h : ElementHandle)
    (inputs : list Input) (v : VideoData) (w' : World) (o : Outcome)
    (rest : list Input) :
  crashed w = false -> onBegin w = [] -> onProgress w = [] ->
  extractVideoDataFromElementHandle h = Ok v ->
  isVideoDataInCSV (fs w) (uuid v) = false ->
  isPrivate v = false ->
  Forall named inputs ->
  scrapeVideo w h inputs = (w', o, rest) ->
  (count is_action (added w w') = 0 \/
   exists pre guid post,
     inputs = pre ++ DownloadProgress guid "completed" :: post ++ rest /\
     first_begin pre = Some guid)
  /\ (first_begin inputs = None ->
       count is_action (added w w') = 0 /\ o <> Resolved /\
       read_downloadFilename (length (scopes w)) w' = "" /\
       onProgress w' = [length (scopes w)]).
Proof.
  intros Hc Hb Hp Hext Hcsv Hpriv Hnamed Hrun.
  destruct (scrapeVideo_flight w h inputs v w' o rest Hc Hb Hp Hext Hcsv Hpriv Hrun)
    as [c st tr tail -> Htr Hsh Hinp Hco Hbeg Hend Hrest].
  simpl in Hinp, Hco.
  assert (Hadd : added w w' = arming (length (scopes w)) v ++ tr ++ tail)
    by (apply added_app; by rewrite Htr, <- !app_assoc).
  destruct (arming_counts (length (scopes w)) v) as (Ha1 & _).
  destruct (TraceShape_counts v st tr Hsh) as (_ & _ & _ & _ & Ht5).
  destruct (Ending_counts _ _ _ _ _ _ Hend) as (_ & _ & _ & _ & He5 & He6 & He7 & _).
  destruct (Correlated_read _ _ _ _ Hco) as [Hread _].
  destruct (InputShape_named st c rest Hnamed Hinp)
    as [-> | (pre & guid & post & -> & Hfb & Hst)].
  - assert (Ho : o <> Resolved) by (intros Ho; by destruct (He5 Ho)).
    assert (H0 : count is_action (added w w') = 0)
      by (by rewrite Hadd, !count_app, Ha1, (Ht5 eq_refl), (He6 Ho)).
    split; [by left |]. rewrite first_begin_app. intros Hnone.
    destruct (first_begin c); [done |]. done.
  - split.
    + right. exists pre, guid, post. by rewrite <- app_assoc.
    + rewrite <- app_assoc, first_begin_app, Hfb. done.
Qed.

Lemma await_promise_resolved_alive (id : nat) (inputs : list Input) :
  forall (w w' : World) (rest : list Input),
    await_promise id w inputs = (w', Resolved, rest) -> crashed w' = false.
Proof.
  induction inputs as [|i l IH]; intros w w' rest H; simpl in H;
    destruct (crashed w) eqn:Hc; try done;
    destruct (is_settled id w); try done.
  - by injection H as <- <-.
  - by injection H as <- <-.
  - by eapply IH.
Qed.

Lemma scrapeVideo_resolved_alive (w : World) (h : ElementHandle)
    (inputs : list Input) (w' : World) (rest : list Input) :
  scrapeVideo w h inputs = (w', Resolved, rest) -> crashed w' = false.
Proof.
  unfold scrapeVideo.
  destruct (extractVideoDataFromElementHandle h) as [v | e]; [| done]. simpl.
  destruct (isVideoDataInCSV _ _); [apply await_promise_resolved_alive |].
  destruct (isPrivate v); [| apply await_promise_resolved_alive].
  destruct (addVideoDataToCSV _ _); apply await_promise_resolved_alive.
Qed.

(** A run that resolves leaves no listener behind when identifiers are not
    empty, so the next item starts from the same state of the session as
    the first. *)
Lemma scrapeVideo_leaves_no_listener (w : World) (h : ElementHandle)
    (inputs : list Input) (w' : World) (rest : list Input) :
  crashed w = false -> onBegin w = [] -> onProgress w = [] ->
  Forall named inputs ->
  scrapeVideo w h inputs = (w', Resolved, rest) ->
  crashed w' = false /\ onBegin w' = [] /\ onProgress w' = [].
Proof.
  intros Hc Hb Hp Hnamed Hrun.
  split; [by eapply scrapeVideo_resolved_alive |].
  destruct (extractVideoDataFromElementHandle h) as [v | e] eqn:Hext.
  2: { unfold scrapeVideo in Hrun. by rewrite Hext in Hrun. }
  destruct (isVideoDataInCSV (fs w) (uuid v)) eqn:Hcsv.
  { destruct (scrapeVideo_skip w h inputs v Hc Hext Hcsv)
      as (w1 & Hrun1 & _ & _ & Hb1 & Hp1).
    rewrite Hrun1 in Hrun. injection Hrun as <- <-. by rewrite Hb1, Hp1. }
  destruct (isPrivate v) eqn:Hpriv.
  { destruct (scrapeVideo_private w h inputs v Hc Hext Hcsv Hpriv)
      as (w1 & Hb1 & Hp1 & Hcase).
    destruct (addVideoDataToCSV (fs w) _) as [fs' | e];
      destruct Hcase as (Hrun1 & _ & _);
      rewrite Hrun1 in Hrun; [| done]. injection Hrun as <- <-.
    by rewrite Hb1, Hp1. }
  destruct (scrapeVideo_flight w h inputs v w' Resolved rest Hc Hb Hp Hext Hcsv Hpriv Hrun)
    as [c st tr tail -> Htr Hsh Hinp Hco Hbeg Hend Hrest].
  simpl in Hinp, Hco.
  destruct (Ending_counts _ _ _ _ _ _ Hend) as (_ & _ & _ & _ & He5 & _ & He7 & _).
  destruct (He5 eq_refl) as [g ->].
  destruct (Correlated_read _ _ _ _ Hco) as [_ Hbegin].
  destruct (InputShape_named _ c rest Hnamed Hinp)
    as [[=] | (pre & guid & post & -> & Hfb & _)].
  rewrite first_begin_app, Hfb in Hbegin. done.
Qed.

(** ** The whole loop *)

(** What a run of [scrapeVideo] that starts without listeners leaves: a
    longer trace with at most one append more, and the inputs it has not
    consumed. *)
Lemma scrapeVideo_run (w : World) (h : ElementHandle) (inputs : list Input)
    (w' : World) (o : Outcome) (rest : list Input) :
  crashed w = false -> onBegin w = [] -> onProgress w = [] ->
  scrapeVideo w h inputs = (w', o, rest) ->
  exists l consumed,
    trace w' = trace w ++ l /\ count is_append l <= 1 /\
    inputs = consumed ++ rest.
Proof.
  intros Hc Hb Hp Hrun.
  destruct (extractVideoDataFromElementHandle h) as [v | e] eqn:Hext.
  2: { unfold scrapeVideo in Hrun. rewrite Hext in Hrun.
       injection Hrun as <- <- <-. exists [EUnhandled e], []. simpl. auto. }
  destruct (isVideoDataInCSV (fs w) (uuid v)) eqn:Hcsv.
  { destruct (scrapeVideo_skip w h inputs v Hc Hext Hcsv) as (w1 & Hrun1 & Htr & _).
    rewrite Hrun1 in Hrun. injection Hrun as <- <- <-.
    eexists _, []. split; [exact Htr |]. simpl. auto. }
  destruct (isPrivate v) eqn:Hpriv.
  { destruct (scrapeVideo_private w h inputs v Hc Hext Hcsv Hpriv)
      as (w1 & _ & _ & Hcase).
    destruct (addVideoDataToCSV (fs w) _) as [fs' | e];
      destruct Hcase as (Hrun1 & _ & Htr);
      rewrite Hrun1 in Hrun; injection Hrun as <- <- <-;
      eexists _, []; (split; [exact Htr |]); simpl; auto. }
  destruct (scrapeVideo_flight w h inputs v w' o rest Hc Hb Hp Hext Hcsv Hpriv Hrun)
    as [c st tr tail -> Htr Hsh Hinp Hco Hbeg Hend Hrest].
  exists (arming (length (scopes w)) v ++ tr ++ tail), c.
  split; [by rewrite Htr, <- !app_assoc |]. split; [| done].
  destruct (arming_counts (length (scopes w)) v) as (_ & _ & _ & _ & Ha).
  destruct (TraceShape_counts v st tr Hsh) as (Ht & _).
  destruct (Ending_counts _ _ _ _ _ _ Hend) as (_ & _ & _ & He & _).
  rewrite !count_app, Ha, Ht, He. destruct o; lia.
Qed.

(** X10: the loop appends at most once per grid item.  However a run of
    the loop over the grid items ends (completed, hanging or crashed) and
    whatever arrives meanwhile, the records it has appended to the ledger
    are at most as many as the grid items. *)
Lemma scrapeAll_appends (items : list ElementHandle) :
  forall (w : World) (i totalVideos : nat) (inputs : list Input)
         (w' : World) (o : Outcome),
    crashed w = false -> onBegin w = [] -> onProgress w = [] ->
    Forall named inputs ->
    scrapeAll w i totalVideos items inputs = (w', o) ->
    exists l, trace w' = trace w ++ l /\ count is_append l <= length items.
Proof.
  induction items as [|h items IH]; intros w i totalVideos inputs w' o
    Hc Hb Hp Hnamed Hrun; cbn [scrapeAll] in Hrun.
  - injection Hrun as <- <-. eexists. split; [done |]. simpl. lia.
  - set (w0 := log _ w) in Hrun.
    destruct (scrapeVideo w0 h inputs) as [[w1 o1] rest] eqn:Hitem.
    destruct (scrapeVideo_run w0 h inputs w1 o1 rest Hc Hb Hp Hitem)
      as (l1 & consumed & Htr1 & Hcnt1 & Hsplit).
    assert (Hstop : (w', o) = (w1, o1) ->
      exists l, trace w' = trace w ++ l /\ count is_append l <= length (h :: items)).
    { intros [= -> ->]. eexists. split.
      - rewrite Htr1. simpl. by rewrite <- app_assoc.
      - simpl. lia. }
    destruct o1; [| by apply Hstop | by apply Hstop].
    destruct (scrapeVideo_leaves_no_listener w0 h inputs w1 rest Hc Hb Hp Hnamed Hitem)
      as (Hc1 & Hb1 & Hp1).
    assert (Hnamed1 : Forall named rest)
      by (rewrite Hsplit in Hnamed; by apply Forall_app in Hnamed as [_ ?]).
    destruct (IH w1 (i + 1) totalVideos rest w' o Hc1 Hb1 Hp1 Hnamed1 Hrun)
      as (l2 & Htr2 & Hcnt2).
    eexists. split.
    + rewrite Htr2, Htr1. simpl. by rewrite <- !app_assoc.
    + simpl. rewrite count_app. lia.
Qed.

(** ** How a run of [scrapeVideo] ends *)

Lemma Ending_resolves (id : nat) (v : VideoData) (st : Stage) (w' : World)
    (o : Outcome) (tail : list Effect) :
  Ending id v st w' o tail ->
  count is_resolve tail = match o with Resolved => 1 | _ => 0 end.
Proof. by intros [Hc Hst | e Hc Hp | guid old -> Hc Hs Hp Hread]. Qed.

Lemma await_promise_outcome (id : nat) (inputs : list Input) :
  forall (w w' : World) (o : Outcome) (rest : list Input),
    await_promise id w inputs = (w', o, rest) ->
    crashed w' = match o with Crashed => true | _ => false end
    /\ (o = Pending -> rest = []).
Proof.
  induction inputs as [|i l IH]; intros w w' o rest Hrun; simpl in Hrun.
  - destruct (crashed w) eqn:Hc; [by injection Hrun as <- <- <- |].
    destruct (is_settled id w); by injection Hrun as <- <- <-.
  - destruct (crashed w) eqn:Hc; [by injection Hrun as <- <- <- |].
    destruct (is_settled id w); [by injection Hrun as <- <- <- |].
    by apply (IH (step id i w)).
Qed.

Lemma scrapeVideo_outcome (w : World) (h : ElementHandle) (inputs : list Input)
    (w' : World) (o : Outcome) (rest : list Input) :
  scrapeVideo w h inputs = (w', o, rest) ->
  crashed w' = match o with Crashed => true | _ => false end
  /\ (o = Pending -> rest = []).
Proof.
  unfold scrapeVideo.
  destruct (extractVideoDataFromElementHandle h) as [v | e];
    [| by intros [= <- <- <-]].
  cbv zeta. destruct (new_scope v _) as [w2 id].
  destruct (isVideoDataInCSV _ _); [apply await_promise_outcome |].
  destruct (isPrivate v); [| apply await_promise_outcome].
  destruct (addVideoDataToCSV _ _); apply await_promise_outcome.
Qed.

(** X23: the promise of an item is resolved once at most.  In one run of
    [scrapeVideo] the call [resolve()] is made exactly once when the
    caller's await returns, and not at all when the run hangs or crashes;
    the run counts as crashed exactly when a rejection was left unhandled,
    and it only hangs when nothing more arrives. *)
Theorem scrapeVideo_resolves_once (w : World) (h : ElementHandle)
    (inputs : list Input) (w' : World) (o : Outcome) (rest : list Input) :
  crashed w = false -> onBegin w = [] -> onProgress w = [] ->
  scrapeVideo w h inputs = (w', o, rest) ->
  count is_resolve (added w w') = match o with Resolved => 1 | _ => 0 end
  /\ crashed w' = match o with Crashed => true | _ => false end
  /\ (o = Pending -> rest = []).
Proof.
  intros Hc Hb Hp Hrun.
  split; [| by apply (scrapeVideo_outcome w h inputs)].
  destruct (extractVideoDataFromElementHandle h) as [v | e] eqn:Hext.
  2: { unfold scrapeVideo in Hrun. rewrite Hext in Hrun.
       injection Hrun as <- <- <-. unfold added. simpl.
       by rewrite drop_app_length. }
  destruct (isVideoDataInCSV (fs w) (uuid v)) eqn:Hcsv.
  { destruct (scrapeVideo_skip w h inputs v Hc Hext Hcsv) as (w1 & Hrun1 & Htr & _).
    rewrite Hrun1 in Hrun. injection Hrun as <- <- <-.
    unfold added. by rewrite Htr, drop_app_length. }
  destruct (isPrivate v) eqn:Hpriv.
  { destruct (scrapeVideo_private w h inputs v Hc Hext Hcsv Hpriv)
      as (w1 & _ & _ & Hcase).
    destruct (addVideoDataToCSV (fs w) _) as [fs' | e];
      destruct Hcase as (Hrun1 & _ & Htr);
      rewrite Hrun1 in Hrun; injection Hrun as <- <- <-;
      unfold added; by rewrite Htr, drop_app_length. }
  destruct (scrapeVideo_flight w h inputs v w' o rest Hc Hb Hp Hext Hcsv Hpriv Hrun)
    as [c st tr tail -> Htr Hsh Hinp Hco Hbeg Hend Hrest].
  pose proof (Ending_resolves _ _ _ _ _ _ Hend) as Hres.
  destruct (TraceShape_counts v st tr Hsh) as (_ & Ht & _).
  unfold added. rewrite Htr, <- app_assoc, drop_app_length.
  by rewrite !count_app, Ht, Hres.
Qed.

(** ** What the extractor reads *)




Lemma notSlash_spec (c : ascii) : JS.notSlash c = true <-> c <> "/"%char.
Proof.
  unfold JS.notSlash. rewrite negb_true_iff. apply Ascii.eqb_neq.
Qed.


Lemma match_videos_None (href : string) :
  (forall a c b, href = a +:+ "/videos/" +:+ String c b -> c = "/"%char) ->
  JS.match_videos href = None.
Proof.
  induction href as [|x href IH]; intros H; [done |].
  cbn [JS.match_videos]. cbv zeta.
  assert (Hrest : JS.match_videos href = None).
  { apply IH. intros a c b ->. by apply (H (String x a) c b). }
  destruct (JS.startsWith (String x href) "/videos/") eqn:Hst; cbn [andb]; [| done].
  destruct (startsWith_inv _ _ Hst) as [t Ht].
  assert (Hdrop : JS.drop 8 (String x href) = t) by (rewrite Ht; reflexivity).
  rewrite Hdrop.
  destruct t as [|c t']; [done |]. cbn [JS.takeWhile].
  destruct (JS.notSlash c) eqn:Hc; [| done].
  apply notSlash_spec in Hc. destruct Hc. apply (H "" c t'). by rewrite Ht.
Qed.

Lemma includes_false (s sep : string) :
  ~ Substring sep s -> JS.includes s sep = false.
Proof.
  intros H. destruct (JS.includes s sep) eqn:E; [| done].
  by apply includes_Substring in E.
Qed.

(** A text without the separator is one piece. *)
Lemma split_scan_whole (sep s : string) :
  JS.includes s sep = false ->
  forall cur, JS.split_scan sep 0 cur s = [cur +:+ s].
Proof.
  induction s as [|c s IH]; intros H cur.
  - simpl. by rewrite append_nil_r.
  - cbn [JS.includes] in H. cbn [JS.split_scan].
    destruct (JS.startsWith (String c s) sep); [done |].
    rewrite IH by done. by rewrite append_assoc.
Qed.

Lemma split_whole (s sep : string) :
  sep <> "" -> ~ Substring sep s -> JS.split s sep = [s].
Proof.
  intros Hsep H. unfold JS.split. destruct sep as [|c sep]; [done |].
  by rewrite split_scan_whole by (by apply includes_false).
Qed.

Lemma Malformed_throws (h : ElementHandle) :
  Malformed h -> exists e, extractVideoDataFromElementHandle h = Throw e.
Proof.
  unfold extractVideoDataFromElementHandle. intros Hm.
  destruct (anchor h) as [[href t] |] eqn:Ha; cbn [mbind result_bind fst snd];
    [| by eexists].
  destruct (JS.match_videos href) as [u |] eqn:Hu; cbn [mbind result_bind];
    [| by eexists].
  destruct (cardName h) as [text |] eqn:Hc; cbn [mbind result_bind];
    [| by eexists].
  destruct (JS.split text "•" !! 1) as [segment |] eqn:Hs; cbn [mbind result_bind];
    [| by eexists].
  destruct (normalizeDate (JS.trim segment)) as [d |]; cbn [mbind result_bind];
    [| by eexists].
  destruct (durationBadge h) as [dur |] eqn:Hd; cbn [mbind result_bind];
    [| by eexists].
  exfalso. unfold Malformed in Hm. rewrite Ha, Hc, Hd in Hm.
  destruct Hm as [Hm | [Hm | Hm]].
  - by rewrite (match_videos_None href Hm) in Hu.
  - by rewrite (split_whole text "•") in Hs.
  - done.
Qed.







(** X2: one grid item that the extractor cannot read ends the run: the
    rejection is handled by nobody, nothing is written, no activation is
    made, and the items after it are never looked at. *)
Theorem malformed_item_ends_the_run (w : World) (h : ElementHandle)
    (items : list ElementHandle) (inputs : list Input) (i totalVideos : nat) :
  Malformed h ->
  exists e w',
    scrapeAll w i totalVideos (h :: items) inputs = (w', Crashed)
    /\ trace w' = trace w ++
         [ ELog ("Scraping video " +:+ decimal (i + 1) +:+ " of "
                 +:+ decimal totalVideos +:+ "...");
           EUnhandled e ]
    /\ crashed w' = true
    /\ fs w' = fs w /\ scopes w' = scopes w
    /\ onBegin w' = onBegin w /\ onProgress w' = onProgress w.
Proof.
  intros Hm. destruct (Malformed_throws h Hm) as [e He].
  exists e. eexists. cbn [scrapeAll]. unfold scrapeVideo. rewrite He.
  split; [reflexivity |]. simpl. by rewrite <- app_assoc.
Qed.

(** ** Records of the ledger *)

Lemma occurrences_app (c : ascii) (a b : string) :
  occurrences c (a +:+ b) = occurrences c a + occurrences c b.
Proof.
  induction a as [|x a IH]; [done |].
  rewrite append_cons. simpl. rewrite IH. lia.
Qed.

Lemma split_scan_commas (s : string) :
  forall cur, length (JS.split_scan "," 0 cur s) = S (commas s).
Proof.
  induction s as [|c s IH]; intros cur; [done |].
  cbn [JS.split_scan JS.startsWith]. unfold commas. cbn [occurrences].
  destruct (Ascii.eqb c ","); simpl; by rewrite IH.
Qed.

Lemma csvLine_uuid (v : VideoData) : Substring (uuid v) (csvLine v).
Proof.
  unfold csvLine. exists (url v +:+ ","). eexists.
  by rewrite append_assoc.
Qed.

(** X5: the record is written as it stands.  No field is quoted and nothing
    is escaped: cut at its commas, the line of a record has six fields and
    one more for every comma that a field holds. *)
Theorem csvLine_is_not_escaped (v : VideoData) :
  length (JS.split (csvLine v) ",")
  = 6 + commas (url v) + commas (uuid v) + commas (title v) + commas (date v)
    + commas (duration v) + commas (default "undefined" (filename v)).
Proof.
  unfold JS.split. rewrite split_scan_commas.
  unfold csvLine, commas. rewrite !occurrences_app. simpl. lia.
Qed.

(** X6: what has been appended is found: after [addVideoDataToCSV] the
    check answers true for the identifier of the record. *)
Theorem appended_record_is_found (fs0 fs1 : Fs.t) (v : VideoData) :
  addVideoDataToCSV fs0 v = Ok fs1 ->
  isVideoDataInCSV fs1 (uuid v) = true.
Proof.
  unfold addVideoDataToCSV, Fs.appendFile, isVideoDataInCSV, Fs.readFile.
  destruct (bool_decide _); [done |]. intros [= <-]. simpl.
  rewrite lookup_insert_eq. apply includes_Substring.
  destruct (csvLine_uuid v) as (a & b & ->).
  exists (default "" (Fs.files fs0 !! csvFilename) +:+ a), b.
  by rewrite append_assoc.
Qed.

Lemma addVideoDataToCSV_Ok (fs0 fs1 : Fs.t) (v : VideoData) :
  addVideoDataToCSV fs0 v = Ok fs1 ->
  Fs.readFile fs1 csvFilename
    = Ok (default "" (Fs.files fs0 !! csvFilename) +:+ csvLine v)
  /\ (forall p, p <> csvFilename -> Fs.files fs1 !! p = Fs.files fs0 !! p)
  /\ Fs.denied fs1 = Fs.denied fs0.
Proof.
  unfold addVideoDataToCSV, Fs.appendFile, Fs.readFile.
  destruct (bool_decide _); [done |]. intros [= <-]. simpl.
  rewrite lookup_insert_eq. split; [done |]. split; [| done].
  intros p Hp. by rewrite lookup_insert_ne.
Qed.

(** X7: an append only adds.  It is refused exactly when the ledger refuses
    writes; otherwise the ledger is its old text (nothing, when there was no
    ledger) followed by the line of the record, every identifier that was
    found before is found after, and no other file is touched. *)
Theorem append_only_adds (fs0 : Fs.t) (v : VideoData) :
  ((exists e, addVideoDataToCSV fs0 v = Throw e) <-> csvFilename ∈ Fs.denied fs0)
  /\ (forall fs1, addVideoDataToCSV fs0 v = Ok fs1 ->
        Fs.readFile fs1 csvFilename
          = Ok (default "" (Fs.files fs0 !! csvFilename) +:+ csvLine v)
        /\ (forall u, isVideoDataInCSV fs0 u = true -> isVideoDataInCSV fs1 u = true)
        /\ (forall p, p <> csvFilename -> Fs.files fs1 !! p = Fs.files fs0 !! p)
        /\ Fs.denied fs1 = Fs.denied fs0).
Proof.
  split.
  - unfold addVideoDataToCSV, Fs.appendFile.
    destruct (bool_decide _) eqn:E.
    + apply bool_decide_eq_true in E. split; [done |]. by eexists.
    + apply bool_decide_eq_false in E. split; [by intros [e ?] | done].
  - intros fs1 H. destruct (addVideoDataToCSV_Ok _ _ _ H) as (Hread & Hframe & Hden).
    repeat split; try done.
    intros u. unfold isVideoDataInCSV. rewrite Hread.
    unfold Fs.readFile. destruct (Fs.files fs0 !! csvFilename) as [old |]; [| done].
    simpl. rewrite !includes_Substring. intros (a & b & ->).
    exists a, (b +:+ csvLine v). by rewrite !append_assoc.
Qed.

(** ** The ledger through a run *)

Lemma path_join_inj (d a b : string) :
  a <> "" -> b <> "" -> path_join d a = path_join d b -> a = b.
Proof.
  intros Ha Hb. unfold path_join.
  destruct d as [|c d]; destruct a as [|x a]; destruct b as [|y b]; try done.
  intros H. apply (inj (String.app (String c d))) in H.
  rewrite !append_cons, !append_nil_l in H. by injection H as -> ->.
Qed.

































(** ** Running again *)






(** X11: listeners do not pile up.  When the loop over the grid items has
    run to its end, the process is alive and no listener is registered on
    the session any more, whatever was downloaded. *)
Theorem loop_leaves_no_listener (items : list ElementHandle) :
  forall (w : World) (i totalVideos : nat) (inputs : list Input) (w' : World),
    crashed w = false -> onBegin w = [] -> onProgress w = [] ->
    Forall named inputs ->
    scrapeAll w i totalVideos items inputs = (w', Resolved) ->
    crashed w' = false /\ onBegin w' = [] /\ onProgress w' = [].
Proof.
  induction items as [|h items IH]; intros w i totalVideos inputs w'
    Hc Hb Hp Hnamed Hrun; cbn [scrapeAll] in Hrun.
  - by injection Hrun as <-.
  - set (w0 := log _ w) in Hrun.
    destruct (scrapeVideo w0 h inputs) as [[w1 o1] rest] eqn:Hitem.
    destruct o1; [| by injection Hrun | by injection Hrun].
    destruct (scrapeVideo_leaves_no_listener w0 h inputs w1 rest Hc Hb Hp Hnamed Hitem)
      as (Hc1 & Hb1 & Hp1).
    destruct (scrapeVideo_run w0 h inputs w1 Resolved rest Hc Hb Hp Hitem)
      as (l1 & consumed & _ & _ & Hsplit).
    apply (IH w1 (i + 1) totalVideos rest w'); try done.
    rewrite Hsplit in Hnamed. by apply Forall_app in Hnamed as [_ ?].
Qed.

(** ** How long the grid loader runs *)

Lemma first_stable (settle : nat -> Scroller -> Scroller) (page : Scroller) (m : nat) :
  (forall i, i < m -> ~ stable settle page i)
  \/ exists j, j < m /\ stable settle page j /\
       forall i, i < j -> ~ stable settle page i.
Proof.
  induction m as [|m [IH | (j & Hj & Hst & Hbefore)]].
  - left. intros i Hi. lia.
  - destruct (stable_dec settle page m) as [Hs | Hs].
    + right. exists m. split; [lia | by split].
    + left. intros i Hi. destruct (decide (i = m)) as [-> | Hne]; [done |].
      apply IH. lia.
  - right. exists j. split; [lia | by split].
Qed.

(** X13: the loader never returns in its first turn.  The position read
    in the first turn is compared with -1, which no position is: when the
    position read in the first turn is not negative and the loader
    returns, it has taken two turns at least, whatever the page does. *)
Theorem loadAllVideos_takes_two_turns (settle : nat -> Scroller -> Scroller)
    (page : Scroller) (fuel n : nat) (win : Window) :
  (0 <= observed settle page 0)%Z ->
  loadAllVideos settle fuel page = Some (n, win) ->
  2 <= n /\ atBottom win = true /\ scroller win = page_after settle page n.
Proof.
  intros Hpos H.
  destruct (while_loop_returns settle page fuel 0 n win H)
    as (j & -> & _ & Hst & _ & ->).
  split; [| done].
  destruct j as [|j]; [| lia].
  unfold stable, previous in Hst. lia.
Qed.

(** X14: the loader ends once the page has settled.  When the page does not
    change in any settle interval from turn [k] on, the turn after [k]
    reads the position that turn [k] read, so the loader returns after
    [k + 2] turns at the latest. *)
Theorem loadAllVideos_ends_on_a_settled_page (settle : nat -> Scroller -> Scroller)
    (page : Scroller) (k fuel : nat) :
  (forall j s, k <= j -> settle j s = s) ->
  (0 <= scrollTop (page_after settle page k))%Z ->
  (0 <= clientHeight (page_after settle page k))%Z ->
  k + 2 <= fuel ->
  exists n win, loadAllVideos settle fuel page = Some (n, win) /\ n <= k + 2.
Proof.
  intros Hstatic Htop Hclient Hfuel.
  assert (Hst : stable settle page (S k)).
  { unfold stable, previous, observed.
    set (s := page_after settle page k) in *.
    assert (H1 : page_after settle page (S k)
                 = set_scrollTop s (scrollTop s + scrollHeight s))
      by (simpl; by rewrite Hstatic by lia).
    assert (H2 : page_after settle page (S (S k))
                 = set_scrollTop (page_after settle page (S k))
                     (scrollTop (page_after settle page (S k))
                      + scrollHeight (page_after settle page (S k))))
      by (change (page_after settle page (S (S k)))
            with (settle (S k) (set_scrollTop (page_after settle page (S k))
                     (scrollTop (page_after settle page (S k))
                      + scrollHeight (page_after settle page (S k)))));
          by rewrite Hstatic by lia).
    rewrite H2, H1. unfold set_scrollTop. simpl. lia. }
  destruct (first_stable settle page (S (S k))) as [Hno | (j & Hj & Hstj & Hbefore)].
  { destruct (Hno (S k)); [lia | done]. }
  exists (S j), (finished settle page (S j)). split; [| lia].
  apply (while_loop_reaches settle page j Hstj fuel 0); [lia | lia |].
  intros i Hi. apply Hbefore. lia.
Qed.

(** ** The gestures of the interaction driver *)

Lemma gestures_app (l1 l2 : list Effect) :
  gestures (l1 ++ l2) = gestures l1 ++ gestures l2.
Proof. apply omap_app. Qed.

Lemma Passive_refl (id : nat) (w : World) : Passive id w w.
Proof.
  split; [intros sc H; by exists sc |]. exists []. by rewrite app_nil_r.
Qed.

Lemma Passive_trans (id : nat) (w w1 w2 : World) :
  Passive id w w1 -> Passive id w1 w2 -> Passive id w w2.
Proof.
  intros [Hd1 (l1 & Ht1 & Hg1)] [Hd2 (l2 & Ht2 & Hg2)]. split.
  - intros sc H. destruct (Hd1 sc H) as (sc1 & H1 & E1).
    destruct (Hd2 sc1 H1) as (sc2 & H2 & E2). exists sc2. split; [done | congruence].
  - exists (l1 ++ l2). rewrite Ht2, Ht1, <- app_assoc, gestures_app, Hg1, Hg2. done.
Qed.

Lemma Passive_same (id : nat) (w w1 : World) (l : list Effect) :
  scopes w1 = scopes w -> trace w1 = trace w ++ l -> gestures l = [] ->
  Passive id w w1.
Proof.
  intros Hsc Ht Hg. split; [| by exists l].
  intros sc H. exists sc. by rewrite Hsc.
Qed.

Lemma Passive_update (id id' : nat) (f : Scope -> Scope) (w : World) :
  (forall sc, driver (f sc) = driver sc) ->
  Passive id w (update_scope id' f w).
Proof.
  intros Hf. unfold update_scope.
  destruct (scopes w !! id') as [sc' |] eqn:E; [| apply Passive_refl].
  split; [| exists []; by rewrite app_nil_r].
  intros sc H. simpl. destruct (decide (id = id')) as [-> | Hne].
  - exists (f sc'). rewrite list_lookup_insert_eq by (by eapply lookup_lt_Some).
    split; [done |]. rewrite Hf. congruence.
  - exists sc. by rewrite list_lookup_insert_ne.
Qed.

Lemma Passive_emit (id : nat) (e : Effect) (w : World) :
  gesture_of e = None -> Passive id w (emit_effect e w).
Proof.
  intros He. apply (Passive_same id w _ [e]); [done | done |].
  unfold gestures. simpl. by rewrite He.
Qed.

Lemma Passive_log (id : nat) (msg : string) (w : World) : Passive id w (log msg w).
Proof. by apply Passive_emit. Qed.

Lemma Passive_removeAll (id : nat) (ev : EventName) (w : World) :
  Passive id w (removeAllListeners ev w).
Proof. apply (Passive_same id w _ [ERemoveAll ev]); by destruct ev. Qed.

Lemma Passive_unhandled (id : nat) (e : string) (w : World) :
  Passive id w (unhandledRejection e w).
Proof. by apply (Passive_same id w _ [EUnhandled e]). Qed.

Lemma Passive_fs (id : nat) (fs1 : Fs.t) (w : World) : Passive id w (set_fs fs1 w).
Proof. apply (Passive_same id w _ []); [done | | done]. simpl. by rewrite app_nil_r. Qed.

Lemma Passive_foldl (id : nat) (f : nat -> World -> World) (l : list nat) :
  (forall id' w, Passive id w (f id' w)) ->
  forall w, Passive id w (foldl (fun w id' => f id' w) w l).
Proof.
  intros Hf. induction l as [|id' l IH]; intros w; [apply Passive_refl |].
  simpl. eapply Passive_trans; [apply Hf | apply IH].
Qed.

Lemma Passive_onDownloadWillBegin (id id' : nat) (guid : string) (w : World) :
  Passive id w (onDownloadWillBegin id' guid w).
Proof.
  unfold onDownloadWillBegin.
  eapply Passive_trans; [apply Passive_removeAll |].
  eapply Passive_trans; [| apply Passive_log].
  by apply Passive_update.
Qed.

Lemma Passive_onDownloadProgress (id id' : nat) (guid state : string) (w : World) :
  Passive id w (onDownloadProgress id' guid state w).
Proof.
  unfold onDownloadProgress.
  destruct (scopes w !! id') as [sc |]; [| apply Passive_refl].
  destruct (_ && _); [| apply Passive_refl].
  eapply Passive_trans; [apply Passive_removeAll |].
  eapply Passive_trans; [apply Passive_log |].
  by apply Passive_update.
Qed.

Lemma Passive_resolve (id id' : nat) (w : World) : Passive id w (resolve id' w).
Proof.
  unfold resolve.
  eapply Passive_trans; [| by apply Passive_emit]. by apply Passive_update.
Qed.

Lemma Passive_fs_settles (id id' : nat) (w : World) : Passive id w (fs_settles id' w).
Proof.
  unfold fs_settles.
  destruct (scopes w !! id') as [sc |]; [| apply Passive_refl].
  destruct (completion sc) as [| src filepath name | name |];
    try apply Passive_refl.
  - destruct (Fs.rename (fs w) src filepath) as [fs1 | e].
    + eapply Passive_trans; [| by apply Passive_update].
      eapply Passive_trans; [| apply Passive_log].
      eapply Passive_trans; [apply (Passive_fs id fs1) | by apply Passive_emit].
    + eapply Passive_trans; [| apply Passive_unhandled]. by apply Passive_update.
  - destruct (addVideoDataToCSV (fs w) _) as [fs2 | e].
    + eapply Passive_trans; [| apply Passive_resolve].
      eapply Passive_trans; [| by apply Passive_update].
      eapply Passive_trans; [apply (Passive_fs id fs2) | by apply Passive_emit].
    + eapply Passive_trans; [| apply Passive_unhandled]. by apply Passive_update.
Qed.

Lemma Driven_passive (id : nat) (base : list Effect) (w w1 : World) :
  Driven id base w -> Passive id w w1 -> Driven id base w1.
Proof.
  intros (l & sc & Ht & Hsc & Hd) [Hdr (l1 & Ht1 & Hg1)].
  destruct (Hdr sc Hsc) as (sc1 & Hsc1 & E).
  exists (l ++ l1), sc1. split; [by rewrite Ht1, Ht, <- app_assoc |].
  split; [done |]. by rewrite E, gestures_app, Hg1, app_nil_r.
Qed.

Lemma upto_prefix (g : Gesture) : upto g `prefix_of` routine.
Proof. destruct g; unfold upto; first [apply prefix_take | reflexivity]. Qed.

Lemma upto_next (g g' : Gesture) :
  next_gesture g = Some g' -> upto g ++ [g'] = upto g'.
Proof. destruct g; intros [= <-]; done. Qed.

Lemma Driven_driver_settles (id : nat) (base : list Effect) (ok : bool) (w : World) :
  Driven id base w -> Driven id base (driver_settles id ok w).
Proof.
  intros (l & sc & Ht & Hsc & Hd). unfold driver_settles. rewrite Hsc.
  assert (Hl : forall sc', <[id := sc']> (scopes w) !! id = Some sc')
    by (intros; apply list_lookup_insert_eq; by eapply lookup_lt_Some).
  destruct (driver sc) as [| g |] eqn:Eg; try by exists l, sc; rewrite Eg.
  destruct ok.
  - destruct (next_gesture g) as [g' |] eqn:En.
    + exists (l ++ [EGesture g']). eexists. unfold update_scope. rewrite Hsc. simpl.
      split; [by rewrite Ht, <- app_assoc |]. split; [apply Hl |]. simpl.
      rewrite gestures_app, Hd. by apply upto_next.
    + exists l. eexists. unfold update_scope. rewrite Hsc. simpl.
      split; [done |]. split; [apply Hl |]. simpl. rewrite Hd. apply upto_prefix.
  - exists (l ++ [EUnhandled DRIVER_FAILED]). eexists.
    unfold update_scope. rewrite Hsc. simpl.
    split; [by rewrite Ht, <- app_assoc |]. split; [apply Hl |]. simpl.
    rewrite gestures_app, Hd. simpl. rewrite app_nil_r. apply upto_prefix.
Qed.

Lemma Driven_step (id : nat) (base : list Effect) (i : Input) (w : World) :
  Driven id base w -> Driven id base (step id i w).
Proof.
  intros Hd. destruct i as [guid | guid state | ok | | name data]; simpl.
  - apply (Driven_passive _ _ _ _ Hd). unfold emit_downloadWillBegin.
    apply (Passive_foldl id (fun id' w => onDownloadWillBegin id' guid w)).
    intros. apply Passive_onDownloadWillBegin.
  - apply (Driven_passive _ _ _ _ Hd). unfold emit_downloadProgress.
    apply (Passive_foldl id (fun id' w => onDownloadProgress id' guid state w)).
    intros. apply Passive_onDownloadProgress.
  - by apply Driven_driver_settles.
  - apply (Driven_passive _ _ _ _ Hd), Passive_fs_settles.
  - destruct (Fs.writeFile _ _ _); [| done].
    apply (Driven_passive _ _ _ _ Hd), Passive_fs.
Qed.

Lemma await_promise_Driven (id : nat) (base : list Effect) (inputs : list Input) :
  forall (w w' : World) (o : Outcome) (rest : list Input),
    Driven id base w ->
    await_promise id w inputs = (w', o, rest) ->
    Driven id base w'.
Proof.
  induction inputs as [|i l IH]; intros w w' o rest Hd Hrun; simpl in Hrun.
  - by destruct (crashed w); [| destruct (is_settled id w)];
      injection Hrun as <- _ _.
  - destruct (crashed w); [by injection Hrun as <- _ _ |].
    destruct (is_settled id w); [by injection Hrun as <- _ _ |].
    eapply IH; [| exact Hrun]. by apply Driven_step.
Qed.

Lemma Driven_gestures (id : nat) (base : list Effect) (w : World) :
  Driven id base w ->
  exists l, trace w = base ++ l /\ gestures l `prefix_of` routine.
Proof.
  intros (l & sc & Ht & _ & Hd). exists l. split; [done |].
  destruct (driver sc) as [| g |].
  - rewrite Hd. apply prefix_nil.
  - rewrite Hd. apply upto_prefix.
  - done.
Qed.

(** X12: the driver keeps to its routine.  Whatever arrives and whatever
    fails, the gestures that one run of [scrapeVideo] makes are an initial
    part of the routine (hover the item, wait for the dropdown, hover it,
    wait for the menu, find the button, click): none is made twice or out
    of turn, and the button is clicked once at most, after the five
    gestures before it. *)
Theorem driver_keeps_to_its_routine (w : World) (h : ElementHandle)
    (inputs : list Input) :
  gestures (added w (scrapeVideo w h inputs).1.1) `prefix_of` routine.
Proof.
  assert (H : exists l, trace (scrapeVideo w h inputs).1.1 = trace w ++ l /\
                        gestures l `prefix_of` routine).
  { unfold scrapeVideo.
    destruct (extractVideoDataFromElementHandle h) as [v | e].
    2: { exists [EUnhandled e]. split; [done | apply prefix_nil]. }
    cbv zeta.
    set (w1 := emit_effect (ELogData "Extracted video data:" v) w).
    destruct (new_scope v w1) as [w2 id] eqn:En.
    injection En as <- <-.
    set (id := length (scopes w1)).
    set (w2 := set_scopes _ w1).
    assert (Hl : scopes w2 !! id = Some {| videoData := v; downloadFilename := "";
                   settled := false; driver := DriverIdle;
                   completion := CompletionIdle |}) by apply lookup_new_scope.
    assert (H2 : Driven id (trace w) w2).
    { exists [ELogData "Extracted video data:" v]. eexists. by split; [| split]. }
    assert (Hwait : forall wa, Driven id (trace w) wa ->
              exists l, trace (await_promise id wa inputs).1.1 = trace w ++ l /\
                        gestures l `prefix_of` routine).
    { intros wa Ha. apply (Driven_gestures id).
      destruct (await_promise id wa inputs) as [[w' o] rest] eqn:Hrun.
      by apply (await_promise_Driven id _ inputs wa w' o rest). }
    destruct (isVideoDataInCSV (fs w2) (uuid v)).
    { apply Hwait. apply (Driven_passive _ _ _ _ H2).
      eapply Passive_trans; [apply Passive_log | apply Passive_resolve]. }
    destruct (isPrivate v).
    { destruct (addVideoDataToCSV _ _) as [fs' | e].
      - apply Hwait. apply (Driven_passive _ _ _ _ H2).
        eapply Passive_trans; [| apply Passive_resolve].
        eapply Passive_trans; [| by apply Passive_emit].
        eapply Passive_trans; [apply Passive_log | apply (Passive_fs id fs')].
      - apply Hwait. apply (Driven_passive _ _ _ _ H2).
        eapply Passive_trans; [apply Passive_log | apply Passive_unhandled]. }
    apply Hwait.
    destruct H2 as (l & sc & Ht & Hsc & Hd).
    rewrite Hl in Hsc. injection Hsc as <-. simpl in Hd.
    unfold update_scope. simpl.
    rewrite lookup_new_scope.
    exists (l ++ [ELog ("Downloading video: " +:+ describe v +:+ "...");
                  EOn DownloadWillBeginEv id; EOn DownloadProgressEv id;
                  EGesture HoverItem; EGesture WaitTooltip]).
    eexists. split; [| split].
    - simpl. simpl in Ht. rewrite Ht. by rewrite <- !app_assoc.
    - simpl. apply list_lookup_insert_eq. rewrite length_app. simpl. lia.
    - simpl. by rewrite gestures_app, Hd. }
  destruct H as (l & Ht & Hp). unfold added. by rewrite Ht, drop_app_length.
Qed.

(** ** The session store *)

Lemma cookies_are_not_the_ledger : cookiesFilename <> csvFilename.
Proof.
  unfold cookiesFilename, csvFilename. intros H.
  by apply path_join_inj in H.
Qed.

(** X15: saving the cookies writes one file.  [saveCookies] answers false
    exactly when the session file refuses the write, and has changed
    nothing then; otherwise the session file holds the serialised cookies
    and every other file, the ledger among them, is as it was. *)
Theorem saveCookies_writes_one_file (files : Fs.t) (jar : list Cookie) :
  let '(files', saved) := saveCookies files jar in
  (saved = false <-> cookiesFilename ∈ Fs.denied files)
  /\ (saved = false -> files' = files)
  /\ (saved = true ->
        Fs.readFile files' cookiesFilename = Ok (JSON_stringify jar))
  /\ (forall p, p <> cookiesFilename -> Fs.files files' !! p = Fs.files files !! p)
  /\ Fs.readFile files' csvFilename = Fs.readFile files csvFilename
  /\ Fs.denied files' = Fs.denied files.
Proof.
  unfold saveCookies, Fs.writeFile, Fs.readFile.
  destruct (bool_decide _) eqn:E.
  - apply bool_decide_eq_true in E. by repeat split.
  - apply bool_decide_eq_false in E. simpl.
    rewrite lookup_insert_eq.
    rewrite lookup_insert_ne by apply cookies_are_not_the_ledger.
    repeat split; try done.
    intros p Hp. by rewrite lookup_insert_ne.
Qed.

(** X16: what is restored is what was saved.  After [saveCookies] has
    answered true, [loadCookies] on the files it left hands the browser
    the very cookies that were saved, provided their serialisation can be
    parsed back; it answers true when the browser accepts them and false,
    leaving the browser as it is, when it does not. *)
Theorem cookies_round_trip (files files' : Fs.t) (jar jar0 : list Cookie) :
  saveCookies files jar = (files', true) ->
  JSON_parse (JSON_stringify jar) = Ok jar ->
  loadCookies files' jar0
  = match setCookie jar0 jar with
    | Ok jar1 => (jar1, true)
    | Throw _ => (jar0, false)
    end.
Proof.
  unfold saveCookies, loadCookies, Fs.writeFile, Fs.readFile.
  destruct (bool_decide _); [done |]. intros [= <-] Hparse. simpl.
  rewrite lookup_insert_eq. cbn [mbind result_bind]. by rewrite Hparse.
Qed.

(** ** The main body *)

(** X17: a missing download directory is never created.  [fs.mkdir] is
    handed the boolean [downloadDirExists] instead of the path, which it
    refuses: the script reports that the directory could not be created
    and returns, with no file written and no browser launched, whatever the
    file system would have allowed. *)
Theorem missing_directory_is_not_created (site : Site) (files : Fs.t) :
  downloadDir ∉ directories site ->
  main site files
  = ({| world :=
          {| fs := files; onBegin := []; onProgress := []; scopes := [];
             trace := [ ELog ("Verifying download directory: " +:+ downloadDir);
                        ELog "Creating download directory..." ];
             crashed := false |};
        stderr := ["Failed to create download directory. Please choose a writable path."];
        dirs := directories site;
        browser := NotLaunched;
        cookieJar := [] |},
     Resolved).
Proof.
  intros H. unfold main. by rewrite bool_decide_eq_false_2.
Qed.

Lemma saveCookies_ledger (files : Fs.t) (jar : list Cookie) :
  Fs.readFile (saveCookies files jar).1 csvFilename = Fs.readFile files csvFilename.
Proof.
  unfold saveCookies, Fs.writeFile, Fs.readFile.
  destruct (bool_decide _); [done |]. simpl.
  by rewrite lookup_insert_ne by apply cookies_are_not_the_ledger.
Qed.

Lemma Ahead_refl (w : World) : Ahead w (fs w) w.
Proof.
  split; [| done]. exists []. by rewrite app_nil_r.
Qed.

Lemma Ahead_trans (w w1 w2 : World) (f f' : Fs.t) :
  Ahead w f w1 -> Ahead w1 f' w2 -> Ahead w f' w2.
Proof.
  intros ((l1 & Ht1 & Hl1) & _ & Hb1 & Hp1 & Hs1)
         ((l2 & Ht2 & Hl2) & Hr2 & Hb2 & Hp2 & Hs2).
  split; [| repeat split; congruence].
  exists (l1 ++ l2). split; [by rewrite Ht2, Ht1, <- app_assoc |].
  by apply Forall_app.
Qed.

Lemma Ahead_files (w w0 : World) (f f' : Fs.t) :
  Ahead w f w0 ->
  Fs.readFile f csvFilename = Fs.readFile f' csvFilename ->
  Ahead w f' w0.
Proof.
  intros (Ht & Hr & Hrest) Hf. split; [done |]. split; [congruence | done].
Qed.

Lemma Ahead_then (w w1 w2 : World) (f : Fs.t) (l : list Effect) :
  Ahead w f w1 ->
  trace w2 = trace w1 ++ l -> Forall (fun e => is_download e = false) l ->
  fs w2 = fs w1 -> onBegin w2 = onBegin w1 -> onProgress w2 = onProgress w1 ->
  scopes w2 = scopes w1 ->
  Ahead w f w2.
Proof.
  intros ((l1 & Ht1 & Hl1) & Hr & Hb & Hp & Hs) Ht Hl Hf Hb2 Hp2 Hs2.
  split; [| repeat split; congruence].
  exists (l1 ++ l). split; [by rewrite Ht, Ht1, <- app_assoc | by apply Forall_app].
Qed.

Lemma Ahead_log (w w1 : World) (f : Fs.t) (msg : string) :
  Ahead w f w1 -> Ahead w f (log msg w1).
Proof.
  intros H. apply (Ahead_then w w1 _ f [ELog msg] H); try done.
  by apply Forall_singleton.
Qed.

Lemma Ahead_unhandled (w w1 : World) (f : Fs.t) (e : string) :
  Ahead w f w1 -> Ahead w f (unhandledRejection e w1).
Proof.
  intros H. apply (Ahead_then w w1 _ f [EUnhandled e] H); try done.
  by apply Forall_singleton.
Qed.

Lemma Ahead_set_fs (w w1 : World) (f files1 : Fs.t) :
  Ahead w f w1 ->
  Ahead w files1 (set_fs files1 w1).
Proof.
  intros ((l1 & Ht1 & Hl1) & Hr & Hb & Hp & Hs).
  split; [by exists l1 | done].
Qed.

Lemma handleLogin_Ahead (site : Site) (w w1 : World) (f : Fs.t) (jar : list Cookie) :
  Ahead w f w1 ->
  Ahead w f (handleLogin site w1 jar).1.1
  /\ fs (handleLogin site w1 jar).1.1 = fs w1
  /\ ((handleLogin site w1 jar).1.2 = Resolved ->
      crashed (handleLogin site w1 jar).1.1 = crashed w1
      /\ exists jar', signIn site = SignsIn jar').
Proof.
  intros H. unfold handleLogin.
  destruct (signIn site) as [| | | jar']; simpl;
    (split; [| split; [done |];
               first [by intros [=] | intros _; split; [done | by eexists]]]).
  - by apply Ahead_unhandled.
  - by apply Ahead_unhandled, Ahead_log.
  - by apply Ahead_log, Ahead_log.
  - by apply Ahead_log, Ahead_log, Ahead_log.
Qed.

(** The ways in which the main body ends once the download directory is
    there: the ledger cannot be created; the browser cannot be launched;
    the page of the user cannot be reached; the sign-in fails or never
    comes, the grid does not appear or the loader does not return; or the
    loop over the grid items is entered and ends as it ends. *)
Lemma session_ends (site : Site) (ds : gset string) (w : World) (r : Run) (o : Outcome) :
  session site ds w = (r, o) ->
  dirs r = ds /\
  (((exists e, initCSV (fs w) = Throw e) /\ o = Crashed /\ browser r = NotLaunched
    /\ Ahead w (fs w) (world r))
   \/ exists fs1, initCSV (fs w) = Ok fs1 /\
        ((launches site = false /\ o = Crashed /\ browser r = NotLaunched
          /\ Ahead w fs1 (world r))
         \/ (launches site = true /\ reachable site = false
             /\ o = Resolved /\ browser r = Closed
             /\ Ahead w fs1 (world r) /\ fs (world r) = fs1
             /\ stderr r = ["Behance user " +:+ user +:+ " not found."]
             /\ cookieJar r = (loadCookies fs1 []).1)
         \/ (launches site = true /\ reachable site = true
             /\ o <> Resolved /\ browser r = Running
             /\ Ahead w fs1 (world r))
         \/ (launches site = true /\ reachable site = true
             /\ exists w0, Ahead w fs1 w0 /\ crashed w0 = crashed w
                  /\ scrapeGrid w0 (gridItems site) (notifications site) = (world r, o)
                  /\ browser r = match o with Resolved => Closed | _ => Running end
                  /\ SignedIn site (loadCookies fs1 []).1
                  /\ gridAppears site = true
                  /\ is_Some (GridLoader.loadAllVideos (gridSettle site)
                                (patience site) (gridPage site))))).
Proof.
  unfold session. intros H.
  set (wa := log _ w) in H.
  assert (Ha : Ahead w (fs w) wa) by apply Ahead_log, Ahead_refl.
  change (fs wa) with (fs w) in H.
  destruct (initCSV (fs w)) as [fs1 | e] eqn:Hinit.
  2: { injection H as <- <-. split; [done |]. left.
       split; [by exists e |]. do 2 (split; [done |]). by apply Ahead_unhandled. }
  cbv zeta in H.
  set (wb := log "Launching Puppeteer..." (set_fs fs1 wa)) in H.
  assert (Hb : Ahead w fs1 wb /\ fs wb = fs1 /\ crashed wb = crashed w).
  { split; [| done]. by eapply Ahead_log, Ahead_set_fs. }
  clearbody wb. clear Ha wa. destruct Hb as (Hb & Hfb & Hcb).
  destruct (launches site) eqn:Hlaunch; cbn [negb] in H.
  2: { injection H as <- <-. split; [done |]. right. exists fs1. split; [done |]. left.
       do 3 (split; [done |]). by apply Ahead_unhandled. }
  change (fs (log "Restoring cookies if available..." wb)) with (fs wb) in H.
  rewrite Hfb in H.
  destruct (loadCookies fs1 []) as [jar restored] eqn:Hload.
  set (wc := log "Navigating to Behance user's livestreams page..." _) in H.
  assert (Hc : Ahead w fs1 wc /\ fs wc = fs1 /\ crashed wc = crashed w).
  { subst wc. split; [| by destruct restored].
    destruct restored; by repeat apply Ahead_log. }
  clearbody wc. clear Hb Hfb Hcb wb. destruct Hc as (Hc & Hfc & Hcc).
  destruct (reachable site) eqn:Hreach; cbn [negb] in H.
  2: { injection H as <- <-. split; [done |]. right. exists fs1. split; [done |].
       right. left. do 7 (split; [done |]). by rewrite Hload. }
  cbv zeta in H.
  set (login := if negb (isLoggedIn site jar)
                then handleLogin site (log "User is not logged in." wc) jar
                else (log "User is already logged in." wc, Resolved, jar)) in H.
  assert (Hd : Ahead w fs1 login.1.1 /\ fs login.1.1 = fs1
               /\ (login.1.2 = Resolved ->
                   crashed login.1.1 = crashed w /\ SignedIn site jar)).
  { subst login. unfold SignedIn. destruct (isLoggedIn site jar); cbn [negb].
    - split; [| split; [done |]]; [by apply Ahead_log |].
      intros _. split; [done | by left].
    - destruct (handleLogin_Ahead site w (log "User is not logged in." wc) fs1 jar)
        as (Hh & Hfh & Hch); [by apply Ahead_log |].
      split; [done |]. split; [by rewrite Hfh |].
      intros Ho. destruct (Hch Ho) as [Hcr Hin]. split; [by rewrite Hcr | by right]. }
  clearbody login. clear Hc Hfc Hcc.
  destruct login as [[wd od] jard]. simpl in Hd. destruct Hd as (Hd & Hfd & Hcd).
  destruct od.
  2, 3: injection H as <- <-; split; [done |]; right; exists fs1; split; [done |];
        right; right; left; by do 4 (split; [done |]).
  destruct (Hcd eq_refl) as [Hcd' Hsigned]. clear Hcd. rename Hcd' into Hcd.
  change (fs (log "Saving cookies..." wd)) with (fs wd) in H. rewrite Hfd in H.
  pose proof (saveCookies_ledger fs1 jard) as Hsave.
  destruct (saveCookies fs1 jard) as [fs2 saved]. simpl in Hsave.
  set (we := log "Looking for livestreams..." _) in H.
  assert (He : Ahead w fs1 we /\ crashed we = crashed w).
  { subst we. split; [| done]. apply Ahead_log.
    eapply Ahead_files; [| exact Hsave].
    by eapply Ahead_set_fs, Ahead_log. }
  clearbody we. clear Hd Hfd Hcd. destruct He as (He & Hce).
  destruct (gridAppears site) eqn:Hgridthere; cbn [negb] in H.
  2: { injection H as <- <-. split; [done |]. right. exists fs1. split; [done |].
       right. right. left. do 4 (split; [done |]). by apply Ahead_unhandled. }
  destruct (loadAllVideos _ _ _) as [loaded |] eqn:Hloaded.
  2: { injection H as <- <-. split; [done |]. right. exists fs1. split; [done |].
       right. right. left. do 4 (split; [done |]). by apply Ahead_log. }
  set (wf := log _ (log "Loading all videos..." we)) in H.
  assert (Hf : Ahead w fs1 wf /\ crashed wf = crashed w).
  { subst wf. split; [| done]. by apply Ahead_log, Ahead_log. }
  clearbody wf. destruct Hf as (Hf & Hcf).
  destruct (scrapeGrid wf (gridItems site) (notifications site)) as [w' o'] eqn:Hgrid.
  split; [by destruct o'; injection H as <- <- |].
  right. exists fs1. split; [done |]. right. right. right.
  do 2 (split; [done |]). exists wf.
  destruct o'; injection H as <- <-; do 4 (split; [done |]);
    (split; [by rewrite Hload |]); by split.
Qed.

Lemma main_ends (site : Site) (files : Fs.t) (r : Run) (o : Outcome) :
  main site files = (r, o) ->
  ((downloadDir ∉ directories site) /\ o = Resolved /\ browser r = NotLaunched
   /\ dirs r = directories site /\ fs (world r) = files
   /\ Forall (fun e => is_download e = false) (trace (world r)))
  \/ ((downloadDir ∈ directories site)
      /\ session site (directories site)
           (log ("Verifying download directory: " +:+ downloadDir) (initial_world files))
         = (r, o)).
Proof.
  unfold main. destruct (bool_decide _) eqn:E; cbn [negb].
  - apply bool_decide_eq_true in E. intros H. by right.
  - apply bool_decide_eq_false in E. simpl. intros [= <- <-]. left.
    do 5 (split; [done |]). simpl. by repeat constructor.
Qed.

(** X18: when the page of the user cannot be reached the run ends in
    order.  With the download directory there, the ledger in place and the
    browser launched, a navigation that fails is reported on the error
    stream, the browser is closed and the script returns: the cookies are
    not saved, no file is written after the ledger was initialised, and
    nothing is downloaded or recorded. *)
Theorem unreachable_page_ends_the_run (site : Site) (files files1 : Fs.t) :
  downloadDir ∈ directories site ->
  initCSV files = Ok files1 ->
  launches site = true ->
  reachable site = false ->
  exists r,
    main site files = (r, Resolved)
    /\ browser r = Closed
    /\ stderr r = ["Behance user " +:+ user +:+ " not found."]
    /\ fs (world r) = files1
    /\ crashed (world r) = false
    /\ Forall (fun e => is_download e = false) (trace (world r)).
Proof.
  intros Hdir Hinit Hlaunch Hreach.
  destruct (main site files) as [r o] eqn:Hmain. exists r.
  destruct (main_ends _ _ _ _ Hmain) as [(Hno & _) | (_ & Hs)]; [done |].
  pose proof Hs as Hrun. unfold session in Hrun.
  change (fs (log _ (log _ (initial_world files)))) with files in Hrun.
  rewrite Hinit in Hrun. rewrite Hlaunch, Hreach in Hrun. cbn [negb] in Hrun.
  cbv zeta in Hrun. change (fs (log _ _)) with files1 in Hrun.
  destruct (loadCookies files1 []) as [jar restored].
  injection Hrun as <- <-.
  do 5 (split; [by destruct restored |]). simpl.
  destruct restored; by repeat constructor.
Qed.

(** X19: the script closes the browser exactly when it runs to an end.
    However a run of the main body ends, [browser.close] has been called if
    and only if the download directory was there and the script returned
    (after the loop over the grid items, or after a navigation that
    failed); in a run that crashes or hangs the script never closes the
    browser it launched.  The browser was never launched exactly when the
    directory is missing, the ledger cannot be created, or the launch
    fails.  The directories are those found. *)
Theorem browser_is_closed_at_the_end (site : Site) (files : Fs.t)
    (r : Run) (o : Outcome) :
  main site files = (r, o) ->
  (browser r = Closed <-> o = Resolved /\ (downloadDir ∈ directories site))
  /\ (browser r = NotLaunched <->
        (downloadDir ∉ directories site)
        \/ (exists e, initCSV files = Throw e)
        \/ launches site = false)
  /\ dirs r = directories site.
Proof.
  intros Hmain.
  destruct (main_ends _ _ _ _ Hmain) as [(Hno & -> & Hb & Hd & _) | (Hdir & Hs)].
  { rewrite Hb. split; [| split; [| done]].
    - split; [done |]. by intros [_ ?].
    - split; [by left | done]. }
  destruct (session_ends _ _ _ _ _ Hs) as [Hd Hcases]. simpl in Hcases.
  split; [| split; [| done]].
  - destruct Hcases as [(_ & -> & -> & _) | (fs1 & _ & Hcases)];
      [by split; [| intros [? _]] |].
    destruct Hcases
      as [(_ & -> & -> & _)
         | [(_ & _ & -> & -> & _)
           | [(_ & _ & Ho & -> & _) | (_ & _ & w0 & _ & _ & _ & -> & _)]]].
    + by split; [| intros [? _]].
    + done.
    + by split; [| intros [? _]].
    + destruct o; by split; [| intros [? _]].
  - destruct Hcases as [(He & _ & -> & _) | (fs1 & Hinit & Hcases)].
    { split; [by right; left | done]. }
    destruct Hcases
      as [(Hl & _ & -> & _)
         | [(Hl & _ & _ & -> & _)
           | [(Hl & _ & _ & -> & _) | (Hl & _ & w0 & _ & _ & _ & -> & _)]]].
    + split; [by right; right | done].
    + split; [done |]. intros [? | [[e He] | ?]]; [done | | congruence].
      rewrite Hinit in He. done.
    + split; [done |]. intros [? | [[e He] | ?]]; [done | | congruence].
      rewrite Hinit in He. done.
    + split; [by destruct o |]. intros [? | [[e He] | ?]]; [done | | congruence].
      rewrite Hinit in He. done.
Qed.

(** X21: nothing is scraped before its time.  When a run of the main
    body makes a gesture, registers a listener, renames a file or appends a
    record, then the download directory was there, the ledger had been
    initialised, the browser launched and the page of the user reached; the
    user was signed in (by the cookies restored, or by signing in); the
    grid had appeared and the loader had returned. *)
Theorem scraping_starts_in_order (site : Site) (files : Fs.t) (r : Run)
    (o : Outcome) (e : Effect) :
  main site files = (r, o) ->
  e ∈ trace (world r) -> is_download e = true ->
  (downloadDir ∈ directories site)
  /\ launches site = true /\ reachable site = true
  /\ gridAppears site = true
  /\ is_Some (GridLoader.loadAllVideos (gridSettle site) (patience site)
                (gridPage site))
  /\ exists files1,
       initCSV files = Ok files1 /\ SignedIn site (loadCookies files1 []).1.
Proof.
  intros Hmain He Hdl.
  assert (Hno : Forall (fun e => is_download e = false) (trace (world r)) -> False).
  { intros Hall. rewrite Forall_forall in Hall. specialize (Hall e He). congruence. }
  destruct (main_ends _ _ _ _ Hmain) as [(_ & _ & _ & _ & _ & Htr) | (Hdir & Hs)];
    [by destruct Hno |].
  destruct (session_ends _ _ _ _ _ Hs) as [_ Hcases]. simpl in Hcases.
  assert (Hearly : forall f,
            Ahead (log ("Verifying download directory: " +:+ downloadDir)
                     (initial_world files)) f (world r) -> False).
  { intros f ((l & Ht & Hl) & _). apply Hno. rewrite Ht.
    apply Forall_app. split; [by repeat constructor | done]. }
  destruct Hcases as [(_ & _ & _ & Ha) | (fs1 & Hinit & Hcases)];
    [by destruct (Hearly _ Ha) |].
  destruct Hcases
    as [(_ & _ & _ & Ha)
       | [(_ & _ & _ & _ & Ha & _)
         | [(_ & _ & _ & _ & Ha)
           | (Hl & Hr & w0 & _ & _ & _ & _ & Hin & Hg & Hload)]]];
    try by destruct (Hearly _ Ha).
  do 5 (split; [done |]). by exists fs1.
Qed.

(** ** Running the script again *)








(** ** The date of an item *)










End Downloader.

(** * The properties on sample data *)

(** C1, as the claim states it, fails: the ledger of [sample_fs] has one
    row, whose identifier is abc-123; the check answers true for abc-12,
    which is the identifier of no row. *)
Lemma isVideoDataInCSV_not_by_field :
  ~ (isVideoDataInCSV "dl" sample_fs "abc-12" = true <->
     ledger_has_row "dl" sample_fs "abc-12").
Proof.
  intros [H _].
  destruct H as (csvData & row & Hread & Hrow & Hu); [by vm_compute |].
  vm_compute in Hread. injection Hread as <-.
  vm_compute in Hrow. apply list_elem_of_singleton in Hrow as ->.
  vm_compute in Hu. discriminate.
Qed.

Lemma isVideoDataInCSV_scans_text_witness :
  isVideoDataInCSV "dl" sample_fs "abc-123" = true.
Proof.
  apply (isVideoDataInCSV_scans_text "dl" sample_fs "abc-123").
  exists sample_ledger, sample_row.
  split; [by vm_compute |]. split; [| by vm_compute].
  vm_compute. apply list_elem_of_singleton. reflexivity.
Defined.

Lemma initCSV_idempotent_witness :
  initCSV "dl" sample_fs = Ok sample_fs
  /\ exists fs', initCSV "dl" empty_fs = Ok fs' /\
                 Fs.readFile fs' "dl/_videos.csv" = Ok headers.
Proof.
  split.
  - apply (initCSV_idempotent "dl" sample_fs); by vm_compute.
  - destruct (initCSV_idempotent "dl" empty_fs) as (_ & Hnew & _).
    destruct Hnew as (fs' & Hinit & _ & _ & Hread); [by vm_compute | by vm_compute |].
    by exists fs'.
Defined.

Lemma endless_page_after (n : nat) :
  GridLoader.page_after endless_settle sample_page (S n)
  = {| GridLoader.scrollTop := 2040 + 2000 * Z.of_nat n;
       GridLoader.scrollHeight := 5000 + 2000 * Z.of_nat n;
       GridLoader.clientHeight := 960 |}.
Proof.
  induction n as [|n IH]; [reflexivity |].
  change (GridLoader.page_after endless_settle sample_page (S (S n)))
    with (endless_settle (S n)
            (GridLoader.set_scrollTop
               (GridLoader.page_after endless_settle sample_page (S n))
               (GridLoader.scrollTop (GridLoader.page_after endless_settle sample_page (S n))
                + GridLoader.scrollHeight (GridLoader.page_after endless_settle sample_page (S n))))).
  rewrite IH. unfold endless_settle, GridLoader.set_scrollTop. simpl.
  f_equal; lia.
Qed.

(** On the sample page the loop takes four turns: the position moves to
    2040, 4040 and 6040 and is 6040 again in the fourth.  On the page that
    grows in every settle interval the loop is still running after any
    number of turns. *)
Lemma loadAllVideos_stops_when_stable_witness :
  (exists win, GridLoader.loadAllVideos sample_settle 10 sample_page = Some (4, win))
  /\ (forall fuel, GridLoader.loadAllVideos endless_settle fuel sample_page = None).
Proof.
  split.
  - destruct (loadAllVideos_stops_when_stable sample_settle sample_page)
      as (_ & Hreach & _).
    apply (Hreach 3); [by vm_compute | | lia].
    intros i Hi.
    destruct i as [|[|[|i]]]; [by vm_compute .. | lia].
  - destruct (loadAllVideos_stops_when_stable endless_settle sample_page)
      as (_ & _ & Hadv).
    apply Hadv. intros n. unfold GridLoader.previous, GridLoader.observed.
    destruct n as [|n]; rewrite !endless_page_after; simpl; lia.
Defined.

(** C4, evaluated: the date shown as "Jan 5, 2023" is read as local
    midnight and written out in UTC.  On a host at UTC the extractor gives
    2023-01-05; on a host one hour east of Greenwich (say Berlin in
    January) it gives 2023-01-04. *)
Theorem normalizeDate_depends_on_zone :
  normalizeDate 0 "Jan 5, 2023" = Ok "2023-01-05"
  /\ normalizeDate 60 "Jan 5, 2023" = Ok "2023-01-04"
  /\ extractVideoDataFromElementHandle 60 public_item
     = Ok {| url := "https://www.behance.net/videos/abc-123/My-Stream";
             uuid := "abc-123"; title := "My Stream"; date := "2023-01-04";
             duration := "1:02:03"; isPrivate := false; filename := None |}.
Proof. by vm_compute. Qed.

(** C7, evaluated: the ledger of [readonly_fs] refuses writes.  A private
    item: the append is rejected, nothing handles the rejection, the promise
    of [scrapeVideo] is never resolved and the item after it is never
    looked at.  A downloaded item: the file is renamed, then the same. *)
Theorem append_failure_ends_the_run :
  scrapeGrid "dl" sample_sanitize 0 (initial_world readonly_fs)
    [private_item; public_item] sample_inputs
  = ({| fs := readonly_fs; onBegin := []; onProgress := [];
        scopes := [ {| videoData := private_video; downloadFilename := "";
                       settled := false; driver := DriverIdle;
                       completion := CompletionIdle |} ];
        trace := [ ELog "Scraping video 1 of 2...";
                   ELogData "Extracted video data:" private_video;
                   ELog "Video is private, skipping: 2023-02-07 - Other (def-456)";
                   EUnhandled "EACCES" ];
        crashed := true |}, Crashed)
  /\ (let '(w', o) := scrapeGrid "dl" sample_sanitize 0 (initial_world readonly_fs)
                        [public_item; private_item] sample_inputs in
      o = Crashed
      /\ is_settled 0 w' = false
      /\ Fs.readFile (fs w') "dl/2023-01-05 - My Stream.mp4" = Ok "bytes"
      /\ Fs.readFile (fs w') "dl/_videos.csv" = Ok headers
      /\ added (initial_world readonly_fs) w' =
           [ ELog "Scraping video 1 of 2...";
             ELogData "Extracted video data:" public_video;
             ELog "Downloading video: 2023-01-05 - My Stream (abc-123)...";
             EOn DownloadWillBeginEv 0; EOn DownloadProgressEv 0;
             EGesture HoverItem; EGesture WaitTooltip; EGesture HoverTooltip;
             EGesture WaitMenu; EGesture QueryButton; EGesture Click;
             ERemoveAll DownloadWillBeginEv; ELog "Download started: g1";
             ERemoveAll DownloadProgressEv; ELog "Download complete: g1";
             ERename "dl/g1" "dl/2023-01-05 - My Stream.mp4";
             ELog "File renamed: dl/2023-01-05 - My Stream.mp4";
             EUnhandled "EACCES" ]).
Proof. by vm_compute. Qed.

(** The item abc-123 is in the ledger of [sample_fs]: it is skipped. *)
Lemma scrapeVideo_skips_ledgered_witness :
  exists w',
    scrapeVideo "dl" sample_sanitize 0 (initial_world sample_fs) public_item sample_inputs
    = (w', Resolved, sample_inputs) /\
    added (initial_world sample_fs) w' =
      [ ELogData "Extracted video data:" public_video;
        ELog "Video already downloaded: 2023-01-05 - My Stream (abc-123)";
        EResolve 0 ] /\
    fs w' = sample_fs.
Proof.
  destruct (scrapeVideo_skips_ledgered "dl" sample_sanitize 0
              (initial_world sample_fs) public_item sample_inputs public_video)
    as (w' & Hrun & Hadd & _ & _ & _ & Hfs & _);
    [reflexivity | by vm_compute | by vm_compute |].
  by exists w'.
Defined.

(** The private item def-456 is ledgered with the sentinel. *)
Lemma scrapeVideo_private_is_ledgered_witness :
  exists w',
    scrapeVideo "dl" sample_sanitize 0 (initial_world header_fs) private_item sample_inputs
    = (w', Resolved, sample_inputs) /\
    Fs.readFile (fs w') "dl/_videos.csv" =
      Ok (headers +:+ "https://www.behance.net/videos/def-456/Other,def-456,Other,"
          +:+ "2023-02-07,2:00,PRIVATE - video not downloadable" +:+ JS.LF).
Proof.
  destruct (scrapeVideo_private_is_ledgered "dl" sample_sanitize 0
              (initial_world header_fs) private_item sample_inputs private_video)
    as (_ & Hledger);
    [reflexivity | by vm_compute | by vm_compute | reflexivity |].
  destruct Hledger as (w' & Hrun & _ & Hread); [by vm_compute |].
  exists w'. split; [done |]. etrans; [exact Hread | by vm_compute].
Defined.


(** Of the two downloads announced, g1 and g2, the first is captured; the
    completion of g2 is passed over and that of g1 is acted upon. *)
Lemma download_correlation_exclusive_witness :
  exists consumed,
    sample_inputs = consumed ++ [DownloadProgress "g1" "completed"] /\
    first_begin consumed = Some "g1" /\
    read_downloadFilename 0
      (scrapeVideo "dl" sample_sanitize 0 (initial_world header_fs)
         public_item sample_inputs).1.1 = "g1".
Proof.
  destruct (download_correlation_exclusive "dl" sample_sanitize 0
              (initial_world header_fs) public_item sample_inputs public_video
              (scrapeVideo "dl" sample_sanitize 0 (initial_world header_fs)
                 public_item sample_inputs).1.1
              Resolved [DownloadProgress "g1" "completed"])
    as (consumed & Hsplit & Hread & _);
    [reflexivity | reflexivity | reflexivity | by vm_compute | by vm_compute
    | reflexivity | by vm_compute |].
  exists consumed. split; [done |].
  assert (Hc : consumed = take 14 sample_inputs).
  { symmetry.
    apply (app_inj_tail (take 14 sample_inputs) consumed
             (DownloadProgress "g1" "completed") (DownloadProgress "g1" "completed")).
    exact Hsplit. }
  rewrite Hc in *. split; [reflexivity |]. etrans; [exact Hread | reflexivity].
Defined.

(** No download is announced in [early_inputs]: the completions reported
    for g1 and g2 trigger nothing. *)
Lemma no_completion_before_begin_witness :
  count is_action
    (added (initial_world header_fs)
       (scrapeVideo "dl" sample_sanitize 0 (initial_world header_fs)
          public_item early_inputs).1.1) = 0.
Proof.
  apply (no_completion_before_begin "dl" sample_sanitize 0 (initial_world header_fs)
           public_item early_inputs public_video _ Pending []);
    [reflexivity | reflexivity | reflexivity | by vm_compute | by vm_compute
    | reflexivity | | by vm_compute | reflexivity].
  repeat constructor; discriminate.
Defined.

(** * Dates from one zone to another *)



(** * Further properties on sample data *)


(** The card name of [malformed_item] has no bullet: the run ends there and
    the public item after it is not looked at. *)
Lemma malformed_item_ends_the_run_witness :
  exists e w',
    scrapeAll "dl" sample_sanitize 0 (initial_world header_fs) 0 2
      [malformed_item; public_item] sample_inputs = (w', Crashed)
    /\ trace w' = [ELog "Scraping video 1 of 2..."; EUnhandled e]
    /\ fs w' = header_fs.
Proof.
  destruct (malformed_item_ends_the_run "dl" sample_sanitize 0
              (initial_world header_fs) malformed_item [public_item]
              sample_inputs 0 2)
    as (e & w' & Hrun & Htr & _ & Hfs & _).
  - right. left. simpl. intros H. apply includes_Substring in H.
    vm_compute in H. discriminate.
  - exists e, w'. exact (conj Hrun (conj Htr Hfs)).
Defined.



(** The record of the public item, appended to a ledger that holds the
    header line only. *)
Lemma appended_record_is_found_witness :
  match addVideoDataToCSV "dl" header_fs public_video with
  | Ok fs1 => isVideoDataInCSV "dl" fs1 "abc-123" = true
  | Throw _ => False
  end.
Proof.
  destruct (addVideoDataToCSV "dl" header_fs public_video) as [fs1 | e] eqn:E.
  - exact (appended_record_is_found "dl" header_fs fs1 public_video E).
  - vm_compute in E. discriminate.
Defined.



(** The same run makes two appends, one for each item. *)
Lemma scrapeAll_appends_witness :
  exists l,
    trace (scrapeAll "dl" sample_sanitize 0 (initial_world header_fs) 0 2
             [private_item; public_item] sample_inputs).1 = [] ++ l
    /\ count is_append l <= 2.
Proof.
  apply (scrapeAll_appends "dl" sample_sanitize 0 [private_item; public_item]
           (initial_world header_fs) 0 2 sample_inputs _ Resolved).
  - reflexivity.
  - reflexivity.
  - reflexivity.
  - repeat (constructor; [first [exact I | intros H; discriminate] |]).
    constructor.
  - by vm_compute.
Defined.

(** And it leaves no listener on the session. *)
Lemma loop_leaves_no_listener_witness :
  onProgress (scrapeAll "dl" sample_sanitize 0 (initial_world header_fs) 0 2
                [private_item; public_item] sample_inputs).1 = [].
Proof.
  apply (loop_leaves_no_listener "dl" sample_sanitize 0
           [private_item; public_item] (initial_world header_fs) 0 2 sample_inputs).
  - reflexivity.
  - reflexivity.
  - reflexivity.
  - repeat (constructor; [first [exact I | intros H; discriminate] |]).
    constructor.
  - by vm_compute.
Defined.

(** On the sample page the loader takes four turns. *)
Lemma loadAllVideos_takes_two_turns_witness :
  2 <= 4
  /\ GridLoader.atBottom (GridLoader.finished sample_settle sample_page 4) = true
  /\ GridLoader.scroller (GridLoader.finished sample_settle sample_page 4)
     = GridLoader.page_after sample_settle sample_page 4.
Proof.
  apply (loadAllVideos_takes_two_turns sample_settle sample_page 10 4
           (GridLoader.finished sample_settle sample_page 4)); by vm_compute.
Defined.

(** The sample page does not change from the third settle interval on. *)
Lemma loadAllVideos_ends_on_a_settled_page_witness :
  exists n win,
    GridLoader.loadAllVideos sample_settle 10 sample_page = Some (n, win) /\ n <= 4.
Proof.
  apply (loadAllVideos_ends_on_a_settled_page sample_settle sample_page 2 10).
  - intros j s Hj. unfold sample_settle.
    destruct (j <? 2)%nat eqn:E; [| reflexivity].
    apply Nat.ltb_lt in E. lia.
  - by vm_compute.
  - by vm_compute.
  - lia.
Defined.

(** The cookies of [sample_jar], saved and restored into an empty jar. *)
Lemma cookies_round_trip_witness :
  loadCookies "dl" sample_parse sample_setCookie
    (saveCookies "dl" sample_stringify header_fs sample_jar).1 []
  = (sample_jar, true).
Proof.
  apply (cookies_round_trip "dl" sample_stringify sample_parse sample_setCookie
           header_fs _ sample_jar []); by vm_compute.
Defined.

(** Without the directory [dl] the script returns at once. *)
Lemma missing_directory_is_not_created_witness :
  browser (main "dl" sample_sanitize 0 "someone" sample_stringify sample_parse
             sample_setCookie homeless_site empty_fs).1 = NotLaunched.
Proof.
  rewrite (missing_directory_is_not_created "dl" sample_sanitize 0 "someone"
             sample_stringify sample_parse sample_setCookie homeless_site empty_fs).
  - reflexivity.
  - apply not_elem_of_empty.
Defined.

(** The page of the user cannot be reached: the ledger has been created
    and nothing else. *)
Lemma unreachable_page_ends_the_run_witness :
  exists r,
    main "dl" sample_sanitize 0 "someone" sample_stringify sample_parse
      sample_setCookie unreachable_site empty_fs = (r, Resolved)
    /\ browser r = Closed
    /\ stderr r = ["Behance user someone not found."]
    /\ fs (world r) = header_fs.
Proof.
  destruct (unreachable_page_ends_the_run "dl" sample_sanitize 0 "someone"
              sample_stringify sample_parse sample_setCookie unreachable_site
              empty_fs header_fs)
    as (r & Hrun & Hb & He & Hfs & _).
  - by vm_compute.
  - by vm_compute.
  - reflexivity.
  - reflexivity.
  - exists r. exact (conj Hrun (conj Hb (conj He Hfs))).
Defined.

(** The first visit runs to its end: the browser is closed. *)
Lemma browser_is_closed_at_the_end_witness :
  browser (main "dl" sample_sanitize 0 "someone" sample_stringify sample_parse
             sample_setCookie sample_site empty_fs).1 = Closed.
Proof.
  apply (browser_is_closed_at_the_end "dl" sample_sanitize 0 "someone"
           sample_stringify sample_parse sample_setCookie sample_site empty_fs
           _ Resolved).
  - by vm_compute.
  - split; [reflexivity | by vm_compute].
Defined.


(** The first visit hovers over the public item, after the user has
    signed in. *)
Lemma scraping_starts_in_order_witness :
  SignedIn sample_site [] /\ gridAppears sample_site = true.
Proof.
  destruct (scraping_starts_in_order "dl" sample_sanitize 0 "someone"
              sample_stringify sample_parse sample_setCookie sample_site empty_fs
              (main "dl" sample_sanitize 0 "someone" sample_stringify sample_parse
                 sample_setCookie sample_site empty_fs).1
              Resolved (EGesture HoverItem))
    as (_ & _ & _ & Hgrid & _ & files1 & Hinit & Hin).
  - by vm_compute.
  - apply (list_elem_of_lookup_2 _ 24). by vm_compute.
  - reflexivity.
  - split; [| exact Hgrid].
    assert (Hfiles : files1 = header_fs)
      by (vm_compute in Hinit; by injection Hinit as <-).
    rewrite Hfiles in Hin. exact Hin.
Defined.

(** The download of the public item ends with one call of [resolve()]. *)
Lemma scrapeVideo_resolves_once_witness :
  count is_resolve
    (added (initial_world header_fs)
       (scrapeVideo "dl" sample_sanitize 0 (initial_world header_fs)
          public_item sample_inputs).1.1) = 1.
Proof.
  apply (scrapeVideo_resolves_once "dl" sample_sanitize 0 (initial_world header_fs)
           public_item sample_inputs _ Resolved [DownloadProgress "g1" "completed"]);
    [reflexivity | reflexivity | reflexivity | by vm_compute].
Defined.
